(** * Workflow graph execution engine: model and properties

    A shallow embedding of [mcp_helpers.py] (configuration recovery parser and
    launch-parameter locator) and of the worker side of [workflow_runner.py]
    (capability factory, node materialisation, orchestrator synthesis and the
    per-session message loop).

    Conventions.
    - A Python [str] is a [string], one character per code point (code points
      below 256).
    - A Python [dict] is an association list in insertion order; iteration
      order matters to [locate_config] and to the generated prompt.
    - A call that may raise returns a [result]; a [try]/[except] is a match
      on that result.
    - Library and service code outside the repository ([json.loads], the
      model catalogue, the agent framework, the external tool server, the
      clock) is collected in the record [World]. *)

From Stdlib Require Import String Ascii List ZArith Bool Arith Lia.
From Stdlib Require Import DecimalString.
Import ListNotations.
Local Open Scope list_scope.
Local Open Scope string_scope.

(* ================================================================== *)
(** ** Python values, exceptions and the built-ins the code relies on *)
(* ================================================================== *)

Module Py.

(** JSON-shaped Python values.  A float is kept as its decimal literal:
    no floating-point arithmetic is performed by the modelled code. *)
Unset Elimination Schemes.
Inductive value : Type :=
| VNone
| VBool (b : bool)
| VInt (z : Z)
| VFloat (literal : string)
| VStr (s : string)
| VList (items : list value)
| VDict (entries : list (string * value)).
Set Elimination Schemes.

Definition dict := list (string * value).

(** Induction over nested values: the elements of a list and the values
    of a dict satisfy the property. *)
Section ValueInd.
Variable P : value -> Prop.
Hypothesis HNone : P VNone.
Hypothesis HBool : forall b, P (VBool b).
Hypothesis HInt : forall z, P (VInt z).
Hypothesis HFloat : forall l, P (VFloat l).
Hypothesis HStr : forall s, P (VStr s).
Hypothesis HList : forall l, Forall P l -> P (VList l).
Hypothesis HDict : forall d, Forall (fun kv => P (snd kv)) d -> P (VDict d).

Fixpoint value_ind (v : value) : P v :=
  match v with
  | VNone => HNone
  | VBool b => HBool b
  | VInt z => HInt z
  | VFloat l => HFloat l
  | VStr s => HStr s
  | VList l =>
      HList l ((fix items (l : list value) : Forall P l :=
                  match l with
                  | [] => Forall_nil _
                  | x :: l' => Forall_cons _ (value_ind x) (items l')
                  end) l)
  | VDict d =>
      HDict d ((fix entries (d : dict) : Forall (fun kv => P (snd kv)) d :=
                  match d with
                  | [] => Forall_nil _
                  | kv :: d' => Forall_cons _ (value_ind (snd kv)) (entries d')
                  end) d)
  end.
End ValueInd.

Inductive exn : Type :=
| IndexError
| KeyError (key : string)
| AttributeError
| TypeError
| ValueError
| JSONDecodeError
| RuntimeError (msg : string).

Inductive result (A : Type) : Type :=
| Ret (a : A)
| Raise (e : exn).
Arguments Ret {A} a.
Arguments Raise {A} e.

Definition bind {A B} (r : result A) (f : A -> result B) : result B :=
  match r with
  | Ret a => f a
  | Raise e => Raise e
  end.

(** Sequencing of calls that may raise: [x <- call ;; rest]. *)
Notation "x <- c1 ;; c2" := (bind c1 (fun x => c2))
  (at level 61, c1 at next level, right associativity).

(** [try: r  except: h] *)
Definition try_except {A} (r : result A) (h : exn -> result A) : result A :=
  match r with
  | Ret a => Ret a
  | Raise e => h e
  end.

(** A float literal denotes zero when its mantissa has a digit and no
    digit other than 0 (underflow of a tiny literal is not modelled). *)
Fixpoint mantissa (s : string) : string :=
  match s with
  | EmptyString => EmptyString
  | String c s' =>
      if (Ascii.eqb c "e" || Ascii.eqb c "E")%bool then EmptyString
      else String c (mantissa s')
  end.

Fixpoint count_chars (p : ascii -> bool) (s : string) : nat :=
  match s with
  | EmptyString => 0
  | String c s' => (if p c then 1 else 0) + count_chars p s'
  end.

Definition float_is_zero (l : string) : bool :=
  let m := mantissa l in
  let digits := count_chars (fun c => (48 <=? nat_of_ascii c)%nat && (nat_of_ascii c <=? 57)%nat) m in
  let zeros := count_chars (Ascii.eqb "0") m in
  negb (digits =? 0)%nat && (digits =? zeros)%nat.

(** Truth value of an object, as tested by [if x:] and [not x]. *)
Definition truthy (v : value) : bool :=
  match v with
  | VNone => false
  | VBool b => b
  | VInt z => negb (Z.eqb z 0)
  | VFloat l => negb (float_is_zero l)
  | VStr s => negb (String.eqb s "")
  | VList l => match l with [] => false | _ => true end
  | VDict d => match d with [] => false | _ => true end
  end.

(** [d.get(k)] as an option, [k in d], [d.get(k, default)], [d[k] = v]. *)
Fixpoint lookup {A} (k : string) (d : list (string * A)) : option A :=
  match d with
  | [] => None
  | (k', v) :: d' => if String.eqb k k' then Some v else lookup k d'
  end.

Definition has_key {A} (k : string) (d : list (string * A)) : bool :=
  match lookup k d with Some _ => true | None => false end.

Definition get_default {A} (k : string) (default : A) (d : list (string * A)) : A :=
  match lookup k d with Some v => v | None => default end.

Fixpoint setitem {A} (k : string) (v : A) (d : list (string * A)) : list (string * A) :=
  match d with
  | [] => [(k, v)]
  | (k', v') :: d' =>
      if String.eqb k k' then (k', v) :: d' else (k', v') :: setitem k v d'
  end.

Definition is_dict (v : value) : bool :=
  match v with VDict _ => true | _ => false end.

(** Structural equality of values ([==] on JSON-shaped data).  Python's
    numeric tower ([1 == True == 1.0]) is not needed by the modelled
    code, which only compares strings with the items of a list. *)
Fixpoint value_eqb (a b : value) : bool :=
  match a, b with
  | VNone, VNone => true
  | VBool x, VBool y => Bool.eqb x y
  | VInt x, VInt y => Z.eqb x y
  | VFloat x, VFloat y => String.eqb x y
  | VStr x, VStr y => String.eqb x y
  | VList x, VList y =>
      (fix go (x y : list value) : bool :=
         match x, y with
         | [], [] => true
         | a :: x', b :: y' => value_eqb a b && go x' y'
         | _, _ => false
         end) x y
  | VDict x, VDict y =>
      (fix go (x y : dict) : bool :=
         match x, y with
         | [], [] => true
         | (ka, a) :: x', (kb, b) :: y' =>
             String.eqb ka kb && value_eqb a b && go x' y'
         | _, _ => false
         end) x y
  | _, _ => false
  end.

(** Characters. *)
Definition code (c : ascii) : nat := nat_of_ascii c.

Definition in_range (lo hi : nat) (c : ascii) : bool :=
  (lo <=? code c)%nat && (code c <=? hi)%nat.

Definition is_digit (c : ascii) : bool := in_range 48 57 c.
Definition is_upper (c : ascii) : bool := in_range 65 90 c.
Definition is_lower (c : ascii) : bool := in_range 97 122 c.
Definition is_word (c : ascii) : bool :=
  is_digit c || is_upper c || is_lower c || (code c =? 95)%nat.

(** Whitespace for [str.strip()] and for [\s] on [str] patterns. *)
Definition is_space (c : ascii) : bool :=
  in_range 9 13 c || in_range 28 32 c || (code c =? 133)%nat || (code c =? 160)%nat.

(** [str.lower()] on the code points of the model: A-Z and the
    upper-case letters of Latin-1. *)
Definition lower_char (c : ascii) : ascii :=
  if is_upper c || (in_range 192 222 c && negb (code c =? 215)%nat)
  then ascii_of_nat (code c + 32) else c.

Fixpoint lower (s : string) : string :=
  match s with
  | EmptyString => EmptyString
  | String c s' => String (lower_char c) (lower s')
  end.

Fixpoint lstrip (s : string) : string :=
  match s with
  | String c s' => if is_space c then lstrip s' else s
  | EmptyString => EmptyString
  end.

Fixpoint rev_string (s acc : string) : string :=
  match s with
  | EmptyString => acc
  | String c s' => rev_string s' (String c acc)
  end.

Definition rstrip (s : string) : string :=
  rev_string (lstrip (rev_string s "")) "".

Definition strip (s : string) : string := rstrip (lstrip s).

Definition startswith (p s : string) : bool := String.prefix p s.

(** [sub in s] for strings. *)
Fixpoint contains (sub s : string) : bool :=
  String.prefix sub s
  || match s with
     | EmptyString => false
     | String _ s' => contains sub s'
     end.

Fixpoint forall_chars (p : ascii -> bool) (s : string) : bool :=
  match s with
  | EmptyString => true
  | String c s' => p c && forall_chars p s'
  end.

(** [str.isdigit()] on ASCII text. *)
Definition isdigit (s : string) : bool :=
  negb (String.eqb s "") && forall_chars is_digit s.

(** [x in container]; a non-container raises [TypeError]. *)
Definition py_in (x : string) (container : value) : result bool :=
  match container with
  | VList l => Ret (existsb (value_eqb (VStr x)) l)
  | VDict d => Ret (has_key x d)
  | VStr s => Ret (contains x s)
  | _ => Raise TypeError
  end.

(** Decimal text of an integer, and back. *)
Definition str_of_Z (z : Z) : string :=
  NilZero.string_of_int (Z.to_int z).

Fixpoint digits_value (s : string) (acc : Z) : Z :=
  match s with
  | EmptyString => acc
  | String c s' => digits_value s' (10 * acc + Z.of_nat (code c - 48))%Z
  end.

(** [int(text)] for text of the shape [-?\d+].  From Python 3.11 on the
    conversion raises [ValueError] beyond a configured number of digits;
    [limit = None] is the unlimited behaviour. *)
Definition py_int (limit : option nat) (text : string) : result Z :=
  let '(neg, ds) :=
    match text with
    | String "-"%char ds => (true, ds)
    | _ => (false, text)
    end in
  if negb (isdigit ds) then Raise ValueError
  else match limit with
       | Some n => if (n <? String.length ds)%nat then Raise ValueError
                   else Ret (if neg then (- digits_value ds 0)%Z else digits_value ds 0)
       | None => Ret (if neg then (- digits_value ds 0)%Z else digits_value ds 0)
       end.

End Py.

(* ================================================================== *)
(** ** Regular expressions: the backtracking semantics of [re]         *)
(* ================================================================== *)

Module Re.
Import Py.

(** The fragment of pattern syntax used by the code.  Alternation tries
    its left branch first and repetition is greedy, as in [re]. *)
Inductive regex : Type :=
| Eps
| Cls (p : ascii -> bool)
| Cat (a b : regex)
| Alt (a b : regex)
| Star (a : regex)
| Grp (i : nat) (a : regex)
| Dollar.

Definition Plus (a : regex) : regex := Cat a (Star a).
Definition Opt (a : regex) : regex := Alt a Eps.
Definition Chr (c : ascii) : regex := Cls (Ascii.eqb c).

Fixpoint Lit (s : string) : regex :=
  match s with
  | EmptyString => Eps
  | String c s' => Cat (Chr c) (Lit s')
  end.

Definition captures := list (nat * string).

Fixpoint take (n : nat) (s : string) : string :=
  match n, s with
  | S n', String c s' => String c (take n' s')
  | _, _ => EmptyString
  end.

(** The text consumed between [s] and its suffix [rest]. *)
Definition consumed (s rest : string) : string :=
  take (String.length s - String.length rest) s.

Fixpoint set_group (i : nat) (t : string) (caps : captures) : captures :=
  match caps with
  | [] => [(i, t)]
  | (j, u) :: caps' =>
      if (i =? j)%nat then (j, t) :: caps' else (j, u) :: set_group i t caps'
  end.

Fixpoint find_group (i : nat) (caps : captures) : option string :=
  match caps with
  | [] => None
  | (j, u) :: caps' => if (i =? j)%nat then Some u else find_group i caps'
  end.

(** [m.group(i)]; every group of the patterns below takes part in
    every match. *)
Definition group (i : nat) (caps : captures) : string :=
  match find_group i caps with Some t => t | None => "" end.

(** Match [r] at the start of [s], then continue with [k] on the rest;
    [None] makes the matcher backtrack. *)
Fixpoint run {A} (r : regex) (s : string) (caps : captures)
         (k : string -> captures -> option A) : option A :=
  match r with
  | Eps => k s caps
  | Cls p =>
      match s with
      | String c s' => if p c then k s' caps else None
      | EmptyString => None
      end
  | Cat a b => run a s caps (fun s1 caps1 => run b s1 caps1 k)
  | Alt a b =>
      match run a s caps k with
      | Some x => Some x
      | None => run b s caps k
      end
  | Star a =>
      (fix loop (n : nat) (s : string) (caps : captures) : option A :=
         match n with
         | O => k s caps
         | S n' =>
             match run a s caps
                     (fun s1 caps1 =>
                        if (String.length s1 <? String.length s)%nat
                        then loop n' s1 caps1 else None) with
             | Some x => Some x
             | None => k s caps
             end
         end) (String.length s) s caps
  | Grp i a => run a s caps (fun s1 caps1 => k s1 (set_group i (consumed s s1) caps1))
  | Dollar =>
      if (String.eqb s "" || String.eqb s (String (ascii_of_nat 10) ""))%bool
      then k s caps else None
  end.

(** [re.match(r, s)]: the groups and the unread rest. *)
Definition match_at (r : regex) (s : string) : option (captures * string) :=
  run r s [] (fun rest caps => Some (caps, rest)).

(** [re.finditer(r, s)]: leftmost non-overlapping matches.  No pattern of
    the code matches the empty string; after an empty match the scan
    moves on by one character. *)
Fixpoint finditer_from (fuel : nat) (r : regex) (s : string) : list captures :=
  match fuel with
  | O => []
  | S fuel' =>
      match match_at r s with
      | Some (caps, rest) =>
          if (String.length rest <? String.length s)%nat
          then caps :: finditer_from fuel' r rest
          else caps :: match s with
                       | EmptyString => []
                       | String _ s' => finditer_from fuel' r s'
                       end
      | None =>
          match s with
          | EmptyString => []
          | String _ s' => finditer_from fuel' r s'
          end
      end
  end.

Definition finditer (r : regex) (s : string) : list captures :=
  finditer_from (S (String.length s)) r s.

(** Replacement templates: literal text and group references. *)
Inductive piece : Type :=
| Text (t : string)
| Ref (i : nat).

Fixpoint expand (tpl : list piece) (caps : captures) : string :=
  match tpl with
  | [] => ""
  | Text t :: tpl' => t ++ expand tpl' caps
  | Ref i :: tpl' => group i caps ++ expand tpl' caps
  end.

(** [re.sub(r, tpl, s)] *)
Fixpoint sub_from (fuel : nat) (r : regex) (tpl : list piece) (s : string) : string :=
  match fuel with
  | O => s
  | S fuel' =>
      match match_at r s with
      | Some (caps, rest) =>
          if (String.length rest <? String.length s)%nat
          then expand tpl caps ++ sub_from fuel' r tpl rest
          else match s with
               | EmptyString => expand tpl caps
               | String c s' => expand tpl caps ++ String c (sub_from fuel' r tpl s')
               end
      | None =>
          match s with
          | EmptyString => ""
          | String c s' => String c (sub_from fuel' r tpl s')
          end
      end
  end.

Definition sub (r : regex) (tpl : list piece) (s : string) : string :=
  sub_from (S (String.length s)) r tpl s.

End Re.

(* ================================================================== *)
(** ** JSON text: [json.dumps] and a reader for [json.loads]           *)
(* ================================================================== *)

Module Json.
Import Py Re.

Definition quote : ascii := ascii_of_nat 34.
Definition backslash : ascii := ascii_of_nat 92.

(** *** [json.dumps] (default separators, [ensure_ascii]) *)

Definition hex_digit (n : nat) : ascii :=
  if (n <? 10)%nat then ascii_of_nat (48 + n) else ascii_of_nat (87 + n).

Definition escape_char (c : ascii) : string :=
  let n := code c in
  if (n =? 34)%nat then String backslash (String quote "")
  else if (n =? 92)%nat then String backslash (String backslash "")
  else if (n =? 10)%nat then String backslash "n"
  else if (n =? 13)%nat then String backslash "r"
  else if (n =? 9)%nat then String backslash "t"
  else if (n =? 8)%nat then String backslash "b"
  else if (n =? 12)%nat then String backslash "f"
  else if ((32 <=? n) && (n <=? 126))%nat then String c ""
  else String backslash
         ("u00" ++ String (hex_digit (n / 16)) (String (hex_digit (n mod 16)) "")).

Fixpoint escape (s : string) : string :=
  match s with
  | EmptyString => ""
  | String c s' => escape_char c ++ escape s'
  end.

Definition dumps_str (s : string) : string :=
  String quote (escape s ++ String quote "").

Fixpoint json_dumps (v : value) : string :=
  match v with
  | VNone => "null"
  | VBool true => "true"
  | VBool false => "false"
  | VInt z => str_of_Z z
  | VFloat l => l
  | VStr s => dumps_str s
  | VList l =>
      "[" ++ (fix items (l : list value) : string :=
                match l with
                | [] => ""
                | [x] => json_dumps x
                | x :: l' => json_dumps x ++ ", " ++ items l'
                end) l ++ "]"
  | VDict d =>
      "{" ++ (fix entries (d : dict) : string :=
                match d with
                | [] => ""
                | [(k, x)] => dumps_str k ++ ": " ++ json_dumps x
                | (k, x) :: d' => dumps_str k ++ ": " ++ json_dumps x ++ ", " ++ entries d'
                end) d ++ "}"
  end.

(** *** A reader for JSON text

    Follows the scanner of [json.loads]: whitespace is space, tab, line
    feed and carriage return; a number is an integer unless it has a
    fraction or an exponent; a repeated key keeps its first position and
    its last value; text after the value is an error.  [\u] escapes are
    outside the fragment and are rejected. *)

Definition is_json_ws (c : ascii) : bool :=
  let n := code c in ((n =? 32) || (n =? 9) || (n =? 10) || (n =? 13))%nat.

Fixpoint skip_ws (s : string) : string :=
  match s with
  | String c s' => if is_json_ws c then skip_ws s' else s
  | EmptyString => EmptyString
  end.

Definition unescape (c : ascii) : option ascii :=
  let n := code c in
  if (n =? 34)%nat then Some quote
  else if (n =? 92)%nat then Some backslash
  else if (n =? 47)%nat then Some "/"%char
  else if (n =? 98)%nat then Some (ascii_of_nat 8)
  else if (n =? 102)%nat then Some (ascii_of_nat 12)
  else if (n =? 110)%nat then Some (ascii_of_nat 10)
  else if (n =? 114)%nat then Some (ascii_of_nat 13)
  else if (n =? 116)%nat then Some (ascii_of_nat 9)
  else None.

Definition push (c : ascii) (r : option (string * string)) : option (string * string) :=
  match r with
  | Some (t, rest) => Some (String c t, rest)
  | None => None
  end.

(** The body of a string, after its opening quote. *)
Fixpoint scan_string (s : string) : option (string * string) :=
  match s with
  | EmptyString => None
  | String c s' =>
      if Ascii.eqb c quote then Some ("", s')
      else if Ascii.eqb c backslash then
        match s' with
        | String e s'' =>
            match unescape e with
            | Some ch => push ch (scan_string s'')
            | None => None
            end
        | EmptyString => None
        end
      else if (code c <? 32)%nat then None
      else push c (scan_string s')
  end.

(** The number pattern of the scanner: group 1 is an optional minus
    followed by 0 or by a non-zero digit and further digits, group 2 an
    optional fraction, group 3 an optional exponent. *)
Definition NUMBER_RE : regex :=
  Cat (Grp 1 (Cat (Opt (Chr "-"%char))
                  (Alt (Chr "0"%char) (Cat (Cls (in_range 49 57)) (Star (Cls is_digit))))))
      (Cat (Opt (Grp 2 (Cat (Chr "."%char) (Plus (Cls is_digit)))))
           (Opt (Grp 3 (Cat (Alt (Chr "e"%char) (Chr "E"%char))
                            (Cat (Opt (Alt (Chr "-"%char) (Chr "+"%char))) (Plus (Cls is_digit))))))).

Definition scan_number (s : string) : option (value * string) :=
  match match_at NUMBER_RE s with
  | Some (caps, rest) =>
      match find_group 2 caps, find_group 3 caps with
      | None, None =>
          match py_int None (group 1 caps) with
          | Ret z => Some (VInt z, rest)
          | Raise _ => None
          end
      | _, _ => Some (VFloat (consumed s rest), rest)
      end
  | None => None
  end.

Definition after (p s : string) : option string :=
  if String.prefix p s
  then Some (String.substring (String.length p) (String.length s - String.length p) s)
  else None.

Definition scan_constant (s : string) : option (value * string) :=
  match after "null" s with
  | Some r => Some (VNone, r)
  | None =>
  match after "true" s with
  | Some r => Some (VBool true, r)
  | None =>
  match after "false" s with
  | Some r => Some (VBool false, r)
  | None =>
  match scan_number s with
  | Some r => Some r
  | None =>
  match after "NaN" s with
  | Some r => Some (VFloat "NaN", r)
  | None =>
  match after "Infinity" s with
  | Some r => Some (VFloat "Infinity", r)
  | None =>
  match after "-Infinity" s with
  | Some r => Some (VFloat "-Infinity", r)
  | None => None
  end end end end end end end.

Fixpoint scan_value (fuel : nat) (s : string) : option (value * string) :=
  match fuel with
  | O => None
  | S n =>
      match s with
      | String c s' =>
          if Ascii.eqb c quote then
            match scan_string s' with
            | Some (t, rest) => Some (VStr t, rest)
            | None => None
            end
          else if Ascii.eqb c "{" then
            match skip_ws s' with
            | String "}" rest => Some (VDict [], rest)
            | s1 => scan_members n s1 []
            end
          else if Ascii.eqb c "[" then
            match skip_ws s' with
            | String "]" rest => Some (VList [], rest)
            | s1 => scan_items n s1 []
            end
          else scan_constant s
      | EmptyString => None
      end
  end

with scan_members (fuel : nat) (s : string) (acc : dict) : option (value * string) :=
  match fuel with
  | O => None
  | S n =>
      match s with
      | String c s' =>
          if Ascii.eqb c quote then
            match scan_string s' with
            | Some (key, s1) =>
                match skip_ws s1 with
                | String ":" s2 =>
                    match scan_value n (skip_ws s2) with
                    | Some (v, s3) =>
                        let acc' := setitem key v acc in
                        match skip_ws s3 with
                        | String "}" rest => Some (VDict acc', rest)
                        | String "," s4 => scan_members n (skip_ws s4) acc'
                        | _ => None
                        end
                    | None => None
                    end
                | _ => None
                end
            | None => None
            end
          else None
      | EmptyString => None
      end
  end

with scan_items (fuel : nat) (s : string) (acc : list value) : option (value * string) :=
  match fuel with
  | O => None
  | S n =>
      match scan_value n s with
      | Some (v, s1) =>
          match skip_ws s1 with
          | String "]" rest => Some (VList (acc ++ [v])%list, rest)
          | String "," s2 => scan_items n (skip_ws s2) (acc ++ [v])%list
          | _ => None
          end
      | None => None
      end
  end.

Definition json_loads (s : string) : result value :=
  match scan_value (2 + String.length s) (skip_ws s) with
  | Some (v, rest) =>
      if String.eqb (skip_ws rest) "" then Ret v else Raise JSONDecodeError
  | None => Raise JSONDecodeError
  end.

End Json.

(* ================================================================== *)
(** ** [mcp_helpers.py]                                                *)
(* ================================================================== *)

Module McpHelpers.
Import Py Re.

Definition ws : regex := Star (Cls is_space).
Definition not_quote : regex := Cls (fun c => negb (Ascii.eqb c Json.quote)).
Definition dquote : regex := Chr Json.quote.

(** [,\s*}] and [,\s*]] *)
Definition trailing_comma (closing : ascii) : regex :=
  Cat (Chr ","%char) (Cat ws (Chr closing)).

(** [(\{|\,)\s*([a-zA-Z0-9_]+)\s*:] *)
Definition bare_key : regex :=
  Cat (Grp 1 (Alt (Chr "{"%char) (Chr ","%char)))
      (Cat ws (Cat (Grp 2 (Plus (Cls is_word))) (Cat ws (Chr ":"%char)))).

(** The common prefix of the three extraction patterns: a quoted key
    (group 1, one or more characters other than the quote), optional
    whitespace, a colon, optional whitespace. *)
Definition quoted_key (rhs : regex) : regex :=
  Cat dquote (Cat (Grp 1 (Plus not_quote))
    (Cat dquote (Cat ws (Cat (Chr ":"%char) (Cat ws rhs))))).

Definition string_pattern : regex :=
  quoted_key (Cat dquote (Cat (Grp 2 (Star not_quote)) dquote)).

(** value part [(-?\d+(?:\.\d+)?)] *)
Definition num_pattern : regex :=
  quoted_key (Grp 2 (Cat (Opt (Chr "-"%char))
                         (Cat (Plus (Cls is_digit))
                              (Opt (Cat (Chr "."%char) (Plus (Cls is_digit))))))).

Definition bool_pattern : regex :=
  quoted_key (Grp 2 (Alt (Lit "true") (Lit "false"))).

(** [[a-zA-Z0-9_./\\-]] *)
Definition loose_value_char (c : ascii) : bool :=
  is_word c || existsb (Ascii.eqb c) ["."%char; "/"%char; Json.backslash; "-"%char].

(** [([a-zA-Z0-9_]+)[=:]\s*([a-zA-Z0-9_./\\-]+)] *)
Definition loose_pattern : regex :=
  Cat (Grp 1 (Plus (Cls is_word)))
      (Cat (Alt (Chr "="%char) (Chr ":"%char))
           (Cat ws (Grp 2 (Plus (Cls loose_value_char))))).

(** [^-?\d+\.\d+$] *)
Definition decimal_pattern : regex :=
  Cat (Opt (Chr "-"%char))
      (Cat (Plus (Cls is_digit))
           (Cat (Chr "."%char) (Cat (Plus (Cls is_digit)) Dollar))).

Section WithLibrary.
(** [json.loads], and the digit limit of [int()]. *)
Variable loads : string -> result value.
Variable int_max_str_digits : option nat.

(** Strategy 1: repair the text and parse it again. *)
Definition repair (malformed_json : string) : string :=
  let fixed_json := strip malformed_json in
  let fixed_json := sub (trailing_comma "}") [Text "}"] fixed_json in
  let fixed_json := sub (trailing_comma "]") [Text "]"] fixed_json in
  let fixed_json :=
    sub bare_key [Ref 1; Text (String Json.quote ""); Ref 2;
                  Text (String Json.quote ":")] fixed_json in
  if negb (startswith "{" fixed_json) && negb (startswith "[" fixed_json)
  then "{" ++ fixed_json ++ "}"
  else fixed_json.

(** Strategy 2: quoted keys with string, numeric and boolean values. *)
Definition number_of (text : string) : value :=
  match (if contains "." text then Ret (VFloat text)
         else z <- py_int int_max_str_digits text ;; Ret (VInt z)) with
  | Ret v => v
  | Raise _ => VStr text
  end.

Definition extract_pairs (malformed_json : string) : dict :=
  let result := [] in
  let result :=
    fold_left (fun result m => setitem (group 1 m) (VStr (group 2 m)) result)
              (finditer string_pattern malformed_json) result in
  let result :=
    fold_left (fun result m => setitem (group 1 m) (number_of (group 2 m)) result)
              (finditer num_pattern malformed_json) result in
  fold_left (fun result m =>
               setitem (group 1 m) (VBool (String.eqb (lower (group 2 m)) "true")) result)
            (finditer bool_pattern malformed_json) result.

(** Strategy 3: loose [key=value] and [key: value] tokens. *)
Definition coerce (text : string) : result value :=
  if String.eqb (lower text) "true" then Ret (VBool true)
  else if String.eqb (lower text) "false" then Ret (VBool false)
  else if isdigit text then
    z <- py_int int_max_str_digits text ;; Ret (VInt z)
  else match match_at decimal_pattern text with
       | Some _ => Ret (VFloat text)
       | None => Ret (VStr text)
       end.

Fixpoint extract_tokens (ms : list captures) (result : dict) : Py.result dict :=
  match ms with
  | [] => Ret result
  | m :: ms' =>
      v <- coerce (group 2 m) ;;
      extract_tokens ms' (setitem (group 1 m) v result)
  end.

Definition _recover_json (malformed_json : string) : result value :=
  if String.eqb malformed_json "" then Ret (VDict [])
  else
    match loads (repair malformed_json) with
    | Ret v => Ret v
    | Raise _ =>
        let result := extract_pairs malformed_json in
        if truthy (VDict result) then Ret (VDict result)
        else
          try_except
            (result <- extract_tokens (finditer loose_pattern malformed_json) [] ;;
             Ret (VDict result))
            (fun _ => Ret (VDict []))
    end.

(** [config_str] is the text column of a tool record: a string or
    [None]. *)
Definition parse_config (config_str : option string) : result value :=
  match config_str with
  | None => Ret (VDict [])
  | Some text =>
      if String.eqb text "" then Ret (VDict [])
      else try_except (loads text) (fun _ => _recover_json text)
  end.

End WithLibrary.

Definition launch : Type := value * value * value * value.

Definition not_found : launch := (VNone, VNone, VNone, VNone).

(** The tuple built when ['command'] is a key of [config_dict]. *)
Definition launch_of (config_dict : dict) : launch :=
  (get_default "command" VNone config_dict,
   get_default "args" (VList []) config_dict,
   get_default "env" (VDict []) config_dict,
   get_default "disabled_tools" (VList []) config_dict).

Fixpoint locate_config (config_dict : value) : launch :=
  match config_dict with
  | VDict d =>
      if has_key "command" d then launch_of d
      else
        (fix items (entries : dict) : launch :=
           match entries with
           | [] => not_found
           | (key, value) :: rest =>
               match value with
               | VDict _ =>
                   let '(cmd, args, env, disabled) := locate_config value in
                   if truthy cmd then (cmd, args, env, disabled) else items rest
               | _ => items rest
               end
           end) d
  | _ => not_found
  end.

End McpHelpers.

(* ================================================================== *)
(** ** [workflow_runner.py]: data                                      *)
(* ================================================================== *)

(** The modules imported from [strands_tools]. *)
Module StrandsTools.
Inductive module : Type :=
| file_read | file_write | editor | shell | http_request | python_repl
| calculator | use_aws | retrieve | nova_reels | memory | environment
| generate_image | image_reader | journal | think | load_tool | swarm
| current_time | sleep | agent_graph | cron | slack | speak | stop
| use_llm | workflow | batch.
End StrandsTools.

(** The tables of [models.py] that the loaders read, with the columns
    they use; a session of the store is the list of rows of each table, in
    the order in which a query returns them. *)
Module Models.

Record Tool : Type := {
  Tool_id : string;
  Tool_name : string;
  Tool_tool_type : string;
  Tool_config : option string;
  Tool_agent_id : option string
}.

Record Agent : Type := {
  Agent_id : string;
  Agent_name : string;
  Agent_description : option string;
  Agent_prompt : option string;
  Agent_model_id : option string
}.

Record AgentTool : Type := {
  AgentTool_agent_id : string;
  AgentTool_tool_id : string
}.

Record Workflow : Type := {
  Workflow_id : string;
  Workflow_name : string;
  Workflow_description : option string;
  Workflow_model_id : option string;
  Workflow_last_edited : option string
}.

Record WorkflowNode : Type := {
  WorkflowNode_id : string;
  WorkflowNode_workflow_id : string;
  WorkflowNode_node_type : string;
  WorkflowNode_reference_id : option string
}.

Record WorkflowEdge : Type := {
  WorkflowEdge_workflow_id : string;
  WorkflowEdge_source_node_id : string;
  WorkflowEdge_target_node_id : string
}.

Record db_session : Type := {
  Tool_rows : list Tool;
  Agent_rows : list Agent;
  AgentTool_rows : list AgentTool;
  Workflow_rows : list Workflow;
  WorkflowNode_rows : list WorkflowNode;
  WorkflowEdge_rows : list WorkflowEdge
}.

End Models.

Module WorkflowRunner.
Import Py Re Json McpHelpers Models.

(** A tool reported by an external tool server ([tool.mcp_tool.name]). *)
Record MCPAgentTool : Type := { mcp_tool_name : string }.

(** The three callback handlers an agent can carry: the framework's
    default, and the two closures of [_processing_thread]. *)
Inductive callback : Type :=
| default_callback_handler
| top_level_callback_handler
| agent_level_callback_handler.

(** Capabilities held by an agent, and live agents.  [__agent_name] is
    [None] on an agent that never had the attribute set. *)
Inductive tool : Type :=
| strands_tool (m : StrandsTools.module)
| think_tool
| mcp_agent_tool (t : MCPAgentTool)
| agent_tool_function (__name__ __doc__ : string)
| agent_wrapper (__name__ __doc__ : string) (__captured : StrandsAgent)
with StrandsAgent : Type :=
| mkStrandsAgent (model : option string) (system_prompt : option string)
                 (tools : list tool) (callback_handler : callback)
                 (__agent_name : option string)
                 (__agent_desctription : option string).

Definition model (a : StrandsAgent) := let 'mkStrandsAgent m _ _ _ _ _ := a in m.
Definition system_prompt (a : StrandsAgent) := let 'mkStrandsAgent _ p _ _ _ _ := a in p.
Definition tools (a : StrandsAgent) := let 'mkStrandsAgent _ _ t _ _ _ := a in t.
Definition callback_handler (a : StrandsAgent) := let 'mkStrandsAgent _ _ _ c _ _ := a in c.
Definition __agent_name (a : StrandsAgent) := let 'mkStrandsAgent _ _ _ _ n _ := a in n.
Definition __agent_desctription (a : StrandsAgent) := let 'mkStrandsAgent _ _ _ _ _ d := a in d.

(** [agent.callback_handler = h] *)
Definition set_callback_handler (h : callback) (a : StrandsAgent) : StrandsAgent :=
  let 'mkStrandsAgent m p t _ n d := a in mkStrandsAgent m p t h n d.

(** The joined records of a resolved graph, as [load_workflow] and
    [load_agent] build them.  Identifiers are kept as their text. *)
Record tool_data : Type := {
  tool_id : string;
  tool_name : string;
  tool_type : string;
  tool_config : option string;
  tool_agent_id : option string
}.

Record agent_ref : Type := {
  agent_id : string;
  agent_name : string;
  agent_prompt : option string;
  agent_model_id : option string;
  agent_description : option string;
  agent_tools : list tool_data
}.

Inductive reference : Type :=
| AgentRef (r : agent_ref)
| ToolRef (r : tool_data).

Record node_data : Type := {
  node_id : string;
  node_type : string;
  node_reference : option reference
}.

Record edge : Type := { source : string; target : string }.

Record message : Type := { role : string; content : string; timestamp : string }.

(** The workflow context.  A key that the code may find absent is an
    option; [agents] and [tools] are empty until [create_nodes] ran. *)
Record workflow_ctx : Type := {
  id : string;
  name : string;
  description : option string;
  model_id : option string;
  nodes : list (string * node_data);
  edges : list edge;
  conversation_history : option (list message);
  last_edited : option string;
  agents : list StrandsAgent;
  ctx_tools : list (list tool);
  orchestrator : option StrandsAgent
}.

(** *** The loaders

    [load_workflow] and [load_agent] join the rows of the store into a
    context.  The layout position of a node is carried by the source and
    never read by the worker; it is left out. *)

(** [db_session.query(T).get(key)] *)
Definition get_row {T} (key_of : T -> string) (rows : list T) (key : string) : option T :=
  find (fun row => String.eqb (key_of row) key) rows.

Definition tool_data_of (tool : Tool) : tool_data := {|
  tool_id := Tool_id tool;
  tool_name := Tool_name tool;
  tool_type := Tool_tool_type tool;
  tool_config := Tool_config tool;
  tool_agent_id := Tool_agent_id tool |}.

(** The tool records associated with an agent; an association whose tool
    does not exist is skipped. *)
Definition joined_tools (db : db_session) (agent : Agent) : list tool_data :=
  flat_map (fun assoc =>
              match get_row Tool_id (Tool_rows db) (AgentTool_tool_id assoc) with
              | Some tool => [tool_data_of tool]
              | None => []
              end)
           (filter (fun assoc => String.eqb (AgentTool_agent_id assoc) (Agent_id agent))
                   (AgentTool_rows db)).

Definition agent_ref_of (db : db_session) (agent : Agent) : agent_ref := {|
  agent_id := Agent_id agent;
  agent_name := Agent_name agent;
  agent_prompt := Agent_prompt agent;
  agent_model_id := Agent_model_id agent;
  agent_description := Agent_description agent;
  agent_tools := joined_tools db agent |}.

(** The reference attached to a node: the agent record of an agent node,
    the tool record of a tool node, nothing when the row is missing or the
    node has another type. *)
Definition prepared_reference (db : db_session) (node : WorkflowNode) : option reference :=
  match WorkflowNode_reference_id node with
  | None => None
  | Some reference_id =>
      if String.eqb (WorkflowNode_node_type node) "agent" then
        option_map (fun agent => AgentRef (agent_ref_of db agent))
                   (get_row Agent_id (Agent_rows db) reference_id)
      else if String.eqb (WorkflowNode_node_type node) "tool" then
        option_map (fun tool => ToolRef (tool_data_of tool))
                   (get_row Tool_id (Tool_rows db) reference_id)
      else None
  end.

Definition prepared_node (db : db_session) (node : WorkflowNode) : node_data := {|
  node_id := WorkflowNode_id node;
  node_type := WorkflowNode_node_type node;
  node_reference := prepared_reference db node |}.

Definition load_workflow (workflow_id : string) (db : db_session) : result workflow_ctx :=
  match get_row Workflow_id (Workflow_rows db) workflow_id with
  | None => Raise ValueError
  | Some workflow =>
      let nodes :=
        filter (fun node => String.eqb (WorkflowNode_workflow_id node) workflow_id)
               (WorkflowNode_rows db) in
      let edges :=
        filter (fun e => String.eqb (WorkflowEdge_workflow_id e) workflow_id)
               (WorkflowEdge_rows db) in
      let prepared_nodes :=
        fold_left (fun prepared_nodes node =>
                     setitem (WorkflowNode_id node) (prepared_node db node) prepared_nodes)
                  nodes [] in
      Ret {| id := Workflow_id workflow;
             name := Workflow_name workflow;
             description := Workflow_description workflow;
             model_id := Workflow_model_id workflow;
             nodes := prepared_nodes;
             edges := map (fun e => {| source := WorkflowEdge_source_node_id e;
                                       target := WorkflowEdge_target_node_id e |}) edges;
             conversation_history := Some [];
             last_edited := Workflow_last_edited workflow;
             agents := []; ctx_tools := []; orchestrator := None |}
  end.

(** The context of a bare agent: one agent node and no edge. *)
Definition load_agent (agent_id : string) (db : db_session) : result workflow_ctx :=
  match get_row Agent_id (Agent_rows db) agent_id with
  | None => Raise ValueError
  | Some agent_db =>
      let agent_node := {| node_id := agent_id; node_type := "agent";
                           node_reference := Some (AgentRef (agent_ref_of db agent_db)) |} in
      Ret {| id := agent_id;
             name := Agent_name agent_db;
             description := Agent_description agent_db;
             model_id := Agent_model_id agent_db;
             nodes := [(agent_id, agent_node)];
             edges := [];
             conversation_history := Some [];
             last_edited := None;
             agents := []; ctx_tools := []; orchestrator := None |}
  end.

(** Who produced a streaming event during one orchestrator call: the
    orchestrator itself or the [i]-th agent of the context. *)
Inductive emitter : Type :=
| by_orchestrator
| by_agent (i : nat).

(** Everything outside the repository that the worker depends on.
    - [loads]: [json.loads].
    - [int_max_str_digits]: the digit limit of [int()].
    - [get_model_with_cross_region_profile]: the model catalogue.
    - [StrandsAgent_init]: [Some e] when the agent constructor raises [e].
    - [list_tools_sync]: starting the client for a command, arguments and
      environment and listing the tools of the server.
    - [invoke]: one call [agent(message)], given the messages of the
      earlier calls: the events handed to callback handlers, in order,
      and the answer text or the exception that ends the call.
    - [now]: the text of the [n]-th reading of the clock. *)
Record World : Type := {
  loads : string -> result value;
  int_max_str_digits : option nat;
  get_model_with_cross_region_profile : string -> result string;
  StrandsAgent_init : option string -> option string -> list tool -> option exn;
  list_tools_sync : value -> value -> value -> result (list MCPAgentTool);
  invoke : StrandsAgent -> list string -> string -> list (emitter * dict) * result string;
  now : nat -> string
}.

Definition nl : string := String (ascii_of_nat 10) "".

(** [str(x)] inside an f-string for a nullable text column. *)
Definition str_of (x : option string) : string :=
  match x with Some s => s | None => "None" end.

Definition nonempty {A} (l : list A) : bool :=
  match l with [] => false | _ => true end.

(* ================================================================ *)
(** ** Capability factory                                           *)
(* ================================================================ *)

(** The registry of built-in operations. *)
Definition tool_mapping : list (string * tool) :=
  [ ("file_read", strands_tool StrandsTools.file_read);
    ("file_write", strands_tool StrandsTools.file_write);
    ("editor", strands_tool StrandsTools.editor);
    ("shell", strands_tool StrandsTools.shell);
    ("http_request", strands_tool StrandsTools.http_request);
    ("python_repl", strands_tool StrandsTools.python_repl);
    ("calculator", strands_tool StrandsTools.calculator);
    ("use_aws", strands_tool StrandsTools.use_aws);
    ("retrieve", strands_tool StrandsTools.retrieve);
    ("nova_reels", strands_tool StrandsTools.nova_reels);
    ("memory", strands_tool StrandsTools.memory);
    ("environment", strands_tool StrandsTools.environment);
    ("generate_image", strands_tool StrandsTools.generate_image);
    ("image_reader", strands_tool StrandsTools.image_reader);
    ("journal", strands_tool StrandsTools.journal);
    ("think", think_tool);
    ("load_tool", strands_tool StrandsTools.load_tool);
    ("swarm", strands_tool StrandsTools.swarm);
    ("current_time", strands_tool StrandsTools.current_time);
    ("sleep", strands_tool StrandsTools.sleep);
    ("agent_graph", strands_tool StrandsTools.agent_graph);
    ("cron", strands_tool StrandsTools.cron);
    ("slack", strands_tool StrandsTools.slack);
    ("speak", strands_tool StrandsTools.speak);
    ("stop", strands_tool StrandsTools.stop);
    ("workflow", strands_tool StrandsTools.workflow);
    ("batch", strands_tool StrandsTools.batch) ].

(** [config.get(k, default)]: only a dict has the method. *)
Definition config_get (config : value) (k : string) (default : value) : result value :=
  match config with
  | VDict d => Ret (get_default k default d)
  | _ => Raise AttributeError
  end.

(** [[tool for tool in all_tools if tool.mcp_tool.name not in disabled_tools]] *)
Fixpoint keep_enabled (disabled_tools : value) (all_tools : list MCPAgentTool)
  : result (list MCPAgentTool) :=
  match all_tools with
  | [] => Ret []
  | t :: rest =>
      hit <- py_in (mcp_tool_name t) disabled_tools ;;
      kept <- keep_enabled disabled_tools rest ;;
      Ret (if hit then kept else t :: kept)
  end.

Section Worker.
Variable W : World.

(** [StrandsAgent(model=..., system_prompt=..., tools=...)] *)
Definition StrandsAgent_new (model : option string) (system_prompt : option string)
           (tools : list tool) : result StrandsAgent :=
  match StrandsAgent_init W model system_prompt tools with
  | Some e => Raise e
  | None => Ret (mkStrandsAgent model system_prompt tools
                                default_callback_handler None None)
  end.

(** The [mcp] branch, inside its [try]. *)
Definition mcp_tools (config : value) : result (option (list tool)) :=
  let '(command, args, env, _) := locate_config config in
  (* Get disabled_tools from root config *)
  disabled_tools <- config_get config "disabled_tools" (VList []) ;;
  if negb (truthy command) then Ret None
  else
    all_tools <- list_tools_sync W command args env ;;
    if truthy disabled_tools && nonempty all_tools then
      filtered_tools <- keep_enabled disabled_tools all_tools ;;
      Ret (Some (map mcp_agent_tool filtered_tools))
    else Ret (Some (map mcp_agent_tool all_tools)).

(** The parsed configuration of a tool record; a failure of the parser
    would leave an empty mapping. *)
Definition parsed_config (td : tool_data) : value :=
  match parse_config (loads W) (int_max_str_digits W) (tool_config td) with
  | Ret c => c
  | Raise _ => VDict []
  end.

Definition _create_tool_instance_from_data (td : tool_data)
  : result (option (list tool)) :=
  let config := parsed_config td in
  if String.eqb (tool_type td) "builtin" then
    let tool_name_lower := lower (tool_name td) in
    match lookup tool_name_lower tool_mapping with
    | Some tool_module => Ret (Some [tool_module])
    | None => Ret None
    end
  else if String.eqb (tool_type td) "mcp" then
    try_except (mcp_tools config) (fun _ => Ret None)
  else if String.eqb (tool_type td) "agent"
          && match tool_agent_id td with Some _ => true | None => false end then
    Ret (Some [agent_tool_function (tool_name td)
                 ("Tool that calls agent " ++ tool_name td)])
  else Ret None.

(** [create_tool]: a node without reference gives [None]; a reference
    of agent shape has no ['tool_type'] key. *)
Definition create_tool (node : node_data) : result (option (list tool)) :=
  match node_reference node with
  | None => Ret None
  | Some (ToolRef td) => _create_tool_instance_from_data td
  | Some (AgentRef _) => Raise (KeyError "tool_type")
  end.

(** The loop of [create_agent] over the tool records of the agent: a
    record whose instance is [None], empty, or whose creation raised
    adds nothing. *)
Fixpoint collect_tools (tools_data : list tool_data) (agent_tools : list tool)
  : list tool :=
  match tools_data with
  | [] => agent_tools
  | td :: rest =>
      match _create_tool_instance_from_data td with
      | Ret (Some tool_instance) =>
          if nonempty tool_instance
          then collect_tools rest (agent_tools ++ tool_instance)%list
          else collect_tools rest agent_tools
      | Ret None => collect_tools rest agent_tools
      | Raise _ => collect_tools rest agent_tools
      end
  end.

(** [if model_arg:] then the catalogue lookup, whose failure is only
    logged. *)
Definition cross_region (model_arg : option string) : option string :=
  match model_arg with
  | Some m =>
      if String.eqb m "" then Some m
      else match get_model_with_cross_region_profile W m with
           | Ret m' => Some m'
           | Raise _ => Some m
           end
  | None => None
  end.

Definition create_agent (agent_data : node_data) : option StrandsAgent :=
  match node_reference agent_data with
  | None => None
  | Some (AgentRef agent_ref) =>
      let agent_tools := collect_tools (agent_tools agent_ref) [] in
      let model_arg := cross_region (agent_model_id agent_ref) in
      match StrandsAgent_new model_arg (agent_prompt agent_ref) agent_tools with
      | Ret (mkStrandsAgent m p t h _ _) =>
          Some (mkStrandsAgent m p t h (Some (agent_name agent_ref))
                               (agent_description agent_ref))
      | Raise _ => None
      end
  | Some (ToolRef _) =>
      (* agent_ref['prompt'] raises KeyError inside the try *)
      None
  end.

(** [create_nodes]: the live agents, and the tool instances stored
    under ['tools']. *)
Fixpoint create_nodes_from (items : list (string * node_data))
         (agents : list StrandsAgent) (tools : list (list tool))
  : result (list StrandsAgent * list (list tool)) :=
  match items with
  | [] => Ret (agents, tools)
  | (_, node) :: rest =>
      if String.eqb (node_type node) "agent" then
        match create_agent node with
        | Some agent => create_nodes_from rest (agents ++ [agent])%list tools
        | None => create_nodes_from rest agents tools
        end
      else if String.eqb (node_type node) "tool" then
        tool_instance <- create_tool node ;;
        match tool_instance with
        | Some (t :: ts) => create_nodes_from rest agents (tools ++ [t :: ts])%list
        | _ => create_nodes_from rest agents tools
        end
      else create_nodes_from rest agents tools
  end.

Definition create_nodes (workflow_context : workflow_ctx)
  : result (list StrandsAgent * list (list tool)) :=
  create_nodes_from (nodes workflow_context) [] [].

End Worker.

(* ================================================================ *)
(** ** Orchestrator synthesis                                       *)
(* ================================================================ *)

(** [nodes.get(node_id, {}).get('reference', {}).get('name', default)] *)
Definition reference_name (r : reference) : string :=
  match r with
  | AgentRef a => agent_name a
  | ToolRef t => tool_name t
  end.

Definition display_name (node : option node_data) (node_id : string) : string :=
  match node with
  | Some n =>
      match node_reference n with
      | Some r => reference_name r
      | None => "Node " ++ node_id
      end
  | None => "Node " ++ node_id
  end.

(** [nodes.get(node_id, {}).get('type') == kind] *)
Definition has_type (node : option node_data) (kind : string) : bool :=
  match node with
  | Some n => String.eqb (node_type n) kind
  | None => false
  end.

Definition node_line (item : string * node_data) : string :=
  let '(node_id, node) := item in
  if String.eqb (node_type node) "input" || String.eqb (node_type node) "output"
  then ""
  else "- " ++ display_name (Some node) node_id ++ " (ID: " ++ node_id
       ++ ", Type: " ++ node_type node ++ ")" ++ nl.

Definition source_name (nodes : list (string * node_data)) (e : edge) : string :=
  if has_type (lookup (source e) nodes) "input" then "the initial input"
  else display_name (lookup (source e) nodes) (source e).

Definition target_name (nodes : list (string * node_data)) (e : edge) : string :=
  if has_type (lookup (target e) nodes) "output" then "the user as final response"
  else display_name (lookup (target e) nodes) (target e).

Definition edge_line (nodes : list (string * node_data)) (e : edge) : string :=
  "- You can from " ++ source_name nodes e ++ " send the result to the "
  ++ target_name nodes e ++ nl.

Definition instructions : string :=
  nl ++ "## Instructions" ++ nl
  ++ "1. When you receive a user message, identify the appropriate starting point in the workflow." ++ nl
  ++ "2. Route the message through the workflow according to the graph structure." ++ nl
  ++ "3. Each agent or tool in the workflow will process the message and produce a response." ++ nl
  ++ "4. Follow the graph edges to determine the next node (agent or tool) to invoke." ++ nl
  ++ "5. For agent nodes, use the corresponding agent tool to process the message." ++ nl
  ++ "6. For tool nodes, use the corresponding tool directly to process the message." ++ nl
  ++ "7. Return the final response to the user." ++ nl.

Definition _generate_workflow_prompt (workflow : workflow_ctx) : string :=
  let prompt := "# Workflow: " ++ name workflow ++ nl ++ nl in
  let prompt := prompt ++ str_of (description workflow) ++ nl ++ nl in
  let prompt := prompt ++ "## Your Role" ++ nl in
  let prompt := prompt ++ "You are the Workflow Orchestrator responsible for managing the execution of this workflow. " in
  let prompt := prompt ++ "You receive user messages and route them through the workflow according to the graph structure below." ++ nl ++ nl in
  let prompt := prompt ++ "## Workflow Graph Structure" ++ nl in
  let prompt := prompt ++ "### Nodes:" ++ nl in
  let prompt := fold_left (fun prompt item => prompt ++ node_line item)
                          (nodes workflow) prompt in
  let prompt := prompt ++ nl ++ "### Edges:" ++ nl in
  let prompt := fold_left (fun prompt e => prompt ++ edge_line (nodes workflow) e)
                          (edges workflow) prompt in
  prompt ++ instructions.

(** [[^a-zA-Z0-9_-]] *)
Definition outside_identifier : regex :=
  Cls (fun c => negb (is_word c || Ascii.eqb c "-")).

(** The wrapper built around one agent of the context. *)
Definition wrap_agent (agent : StrandsAgent) : result tool :=
  match __agent_name agent with
  | None => Raise AttributeError
  | Some agent_name =>
      let doc :=
        match __agent_desctription agent with
        | Some d => if String.eqb d ""
                    then " Execute the agent called " ++ agent_name ++ " " else d
        | None => " Execute the agent called " ++ agent_name ++ " "
        end in
      Ret (agent_wrapper (sub outside_identifier [Text "_"] agent_name) doc agent)
  end.

Fixpoint wrap_agents (agents : list StrandsAgent) : result (list tool) :=
  match agents with
  | [] => Ret []
  | agent :: rest =>
      agent_wrapper <- wrap_agent agent ;;
      wrapped <- wrap_agents rest ;;
      Ret (agent_wrapper :: wrapped)
  end.

Section Orchestrator.
Variable W : World.

Definition _create_orchestrator (workflow_context : workflow_ctx)
  : result StrandsAgent :=
  all_tools <- wrap_agents (agents workflow_context) ;;
  let all_tools := (all_tools ++ concat (ctx_tools workflow_context))%list in
  let system_prompt := _generate_workflow_prompt workflow_context in
  model_id <- match model_id workflow_context with
              | Some m => if String.eqb m "" then Ret (Some m)
                          else m' <- get_model_with_cross_region_profile W m ;;
                               Ret (Some m')
              | None => Ret None
              end ;;
  StrandsAgent_new W model_id (Some system_prompt) all_tools.

End Orchestrator.

(* ================================================================ *)
(** ** The worker: [_processing_thread]                             *)
(* ================================================================ *)

Definition STARTED : string := "_Q_E_E_STARTED".
Definition TERMINATE : string := "_Q_E_E_TERMINATE".
Definition RETRIEVE : string := "_Q_E_E_RETRIEVE".
Definition HISTORY : string := "_Q_E_E_HISTORY".
Definition ANSWERED : string := "_Q_E_E_ANSWERED".

(** [{k: v for k, v in event.items() if k in ["delta", 'current_tool_use']}] *)
Definition keep_keys (event : dict) : dict :=
  filter (fun kv => String.eqb (fst kv) "delta"
                    || String.eqb (fst kv) "current_tool_use") event.

Definition frame (event : dict) : string :=
  "data: " ++ json_dumps (VDict event) ++ nl ++ "end".

(** [container[k]] *)
Definition getitem (container : value) (k : string) : result value :=
  match container with
  | VDict d => match lookup k d with
               | Some v => Ret v
               | None => Raise (KeyError k)
               end
  | _ => Raise TypeError
  end.

(** Each handler returns the text it puts on the output queue, if any. *)
Definition top_level (event : dict) : result (option string) :=
  if has_key "delta" event then Ret (Some (frame (keep_keys event)))
  else Ret None.

Definition agent_level (event : dict) : result (option string) :=
  if has_key "delta" event then
    let event := keep_keys event in
    let delta := get_default "delta" VNone event in
    has_text <- py_in "text" delta ;;
    if has_text then
      text <- getitem delta "text" ;;
      let event := setitem "delta" (VDict [("toolUse", VDict [("input", text)])]) event in
      let event :=
        setitem "current_tool_use"
                (VDict [("toolUseId", VStr "agent");
                        ("name", VStr "aws_documentation_retriever")]) event in
      Ret (Some (frame event))
    else Ret (Some (frame event))
  else Ret None.

Definition call_handler (h : callback) (event : dict) : result (option string) :=
  match h with
  | default_callback_handler => Ret None
  | top_level_callback_handler => top_level event
  | agent_level_callback_handler => agent_level event
  end.

(** The handler reached by an event is the [callback_handler] of the
    agent that produced it. *)
Definition handler_of (orchestrator : StrandsAgent) (agents : list StrandsAgent)
           (who : emitter) : callback :=
  match who with
  | by_orchestrator => callback_handler orchestrator
  | by_agent i =>
      match nth_error agents i with
      | Some a => callback_handler a
      | None => default_callback_handler
      end
  end.

(** Events are handled in order; an exception raised by a handler ends
    the call.  The result is what was put on the queue, and the
    exception if there was one. *)
Fixpoint run_callbacks (orchestrator : StrandsAgent) (agents : list StrandsAgent)
         (events : list (emitter * dict)) : list string * option exn :=
  match events with
  | [] => ([], None)
  | (who, event) :: rest =>
      match call_handler (handler_of orchestrator agents who) event with
      | Raise e => ([], Some e)
      | Ret put =>
          let '(puts, failure) := run_callbacks orchestrator agents rest in
          (match put with Some text => text :: puts | None => puts end, failure)
      end
  end.

Inductive status : Type :=
| Waiting                (* blocked in input_queue.get() *)
| Exited                 (* left the loop after TERMINATE *)
| Crashed (e : exn).     (* ended by an uncaught exception *)

(** The state of one worker process: its context, what it has put on
    the output queue so far, the number of clock readings, and the
    messages passed to the orchestrator so far. *)
Record worker : Type := {
  context : workflow_ctx;
  output_queue : list string;
  clock : nat;
  calls : list string
}.

Definition with_history (c : workflow_ctx) (h : option (list message))
  : workflow_ctx :=
  {| id := id c; name := name c; description := description c;
     model_id := model_id c; nodes := nodes c; edges := edges c;
     conversation_history := h; last_edited := last_edited c;
     agents := agents c; ctx_tools := ctx_tools c;
     orchestrator := orchestrator c |}.

Definition with_nodes_created (c : workflow_ctx) (a : list StrandsAgent)
           (t : list (list tool)) : workflow_ctx :=
  {| id := id c; name := name c; description := description c;
     model_id := model_id c; nodes := nodes c; edges := edges c;
     conversation_history := conversation_history c;
     last_edited := last_edited c; agents := a; ctx_tools := t;
     orchestrator := orchestrator c |}.

Definition with_orchestrator (c : workflow_ctx) (o : StrandsAgent)
  : workflow_ctx :=
  {| id := id c; name := name c; description := description c;
     model_id := model_id c; nodes := nodes c; edges := edges c;
     conversation_history := conversation_history c;
     last_edited := last_edited c; agents := agents c;
     ctx_tools := ctx_tools c; orchestrator := Some o |}.

Definition message_value (m : message) : value :=
  VDict [("role", VStr (role m)); ("content", VStr (content m));
         ("timestamp", VStr (timestamp m))].

(** [json.dumps(history, default=str)] *)
Definition history_json (history : list message) : string :=
  json_dumps (VList (map message_value history)).

Section Processing.
Variable W : World.

(** [json.dumps(datetime.datetime.now(datetime.timezone.utc), default=str)] *)
Definition timestamp_at (tick : nat) : string := json_dumps (VStr (now W tick)).

(** Lines 200-220: materialise the nodes and choose the orchestrator.
    The agents of the list are shared with the context, so setting a
    callback handler on one of them is visible through both. *)
Definition setup (workflow_context : workflow_ctx)
  : workflow_ctx * result StrandsAgent :=
  match create_nodes W workflow_context with
  | Raise e => (workflow_context, Raise e)
  | Ret (agents, tools) =>
      let workflow_context := with_nodes_created workflow_context agents tools in
      if (1 <? List.length agents)%nat then
        let agents := map (set_callback_handler agent_level_callback_handler) agents in
        let workflow_context := with_nodes_created workflow_context agents tools in
        match _create_orchestrator W workflow_context with
        | Raise e => (workflow_context, Raise e)
        | Ret orchestrator =>
            let orchestrator :=
              set_callback_handler top_level_callback_handler orchestrator in
            (with_orchestrator workflow_context orchestrator, Ret orchestrator)
        end
      else
        match agents with
        | [] => (workflow_context, Raise IndexError)
        | first :: rest =>
            let orchestrator :=
              set_callback_handler top_level_callback_handler first in
            let workflow_context :=
              with_nodes_created workflow_context (orchestrator :: rest) tools in
            (with_orchestrator workflow_context orchestrator, Ret orchestrator)
        end
  end.

(** [answer = orchestrator(message)]: what the handlers put on the
    queue during the call, and how the call ends. *)
Definition orchestrator_call (orchestrator : StrandsAgent)
           (agents : list StrandsAgent) (earlier : list string)
           (message : string) : list string * result string :=
  let '(events, answer) := invoke W orchestrator earlier message in
  let '(puts, failure) := run_callbacks orchestrator agents events in
  (puts, match failure with Some e => Raise e | None => answer end).

(** One iteration of the loop on a received message. *)
Definition handle (orchestrator : StrandsAgent) (w : worker) (message : string)
  : worker * status :=
  if String.eqb message TERMINATE then (w, Exited)
  else if String.eqb message RETRIEVE then
    let history :=
      match conversation_history (context w) with Some h => h | None => [] end in
    ({| context := context w;
        output_queue := (output_queue w ++ [(HISTORY ++ history_json history)%string])%list;
        clock := clock w; calls := calls w |}, Waiting)
  else
    let history :=
      match conversation_history (context w) with Some h => h | None => [] end in
    let history :=
      (history ++ [{| role := "user"; content := message;
                      timestamp := timestamp_at (clock w) |}])%list in
    let w1 := {| context := with_history (context w) (Some history);
                 output_queue := output_queue w;
                 clock := S (clock w); calls := calls w |} in
    let '(puts, answer) :=
      orchestrator_call orchestrator (agents (context w1)) (calls w1) message in
    let w2 := {| context := context w1;
                 output_queue := (output_queue w1 ++ puts)%list;
                 clock := clock w1; calls := (calls w1 ++ [message])%list |} in
    match answer with
    | Raise e => (w2, Crashed e)
    | Ret answer =>
        let history :=
          (history ++ [{| role := "assistant"; content := answer;
                          timestamp := timestamp_at (clock w2) |}])%list in
        ({| context := with_history (context w2) (Some history);
            output_queue := (output_queue w2 ++ [ANSWERED])%list;
            clock := S (clock w2); calls := calls w2 |}, Waiting)
    end.

(** The [while True] loop over the messages that arrive on the input
    queue, in order. *)
Fixpoint loop (orchestrator : StrandsAgent) (w : worker) (inbox : list string)
  : worker * status :=
  match inbox with
  | [] => (w, Waiting)
  | message :: rest =>
      match handle orchestrator w message with
      | (w', Waiting) => loop orchestrator w' rest
      | stopped => stopped
      end
  end.

Definition _processing_thread (workflow_context : workflow_ctx)
           (inbox : list string) : worker * status :=
  match setup workflow_context with
  | (workflow_context, Raise e) =>
      ({| context := workflow_context; output_queue := []; clock := 0;
          calls := [] |}, Crashed e)
  | (workflow_context, Ret orchestrator) =>
      loop orchestrator
           {| context := workflow_context; output_queue := [STARTED];
              clock := 0; calls := [] |} inbox
  end.

End Processing.

(** [qs['output'].get()] on the caller's side: the first message of the
    queue, or nothing yet. *)
Definition queue_get (q : list string) : option (string * list string) :=
  match q with
  | [] => None
  | x :: q' => Some (x, q')
  end.

End WorkflowRunner.

(* ================================================================== *)
(** ** Reference readings of the documented behaviour                  *)
(* ================================================================== *)

Module Documented.
Import Py McpHelpers WorkflowRunner.

(** [sub] occurs in [s]. *)
Definition occurs_in (sub s : string) : Prop :=
  exists pre post : string, s = pre ++ sub ++ post.

(** The sub-mappings that hold a ['command'] key, in the order of a
    depth-first walk through the values that are mappings; a mapping that
    holds the key is not searched further. *)
Fixpoint command_mappings (v : value) : list dict :=
  match v with
  | VDict d =>
      if has_key "command" d then [d]
      else
        (fix entries (d : dict) : list dict :=
           match d with
           | [] => []
           | (_, x) :: d' => (command_mappings x ++ entries d')%list
           end) d
  | _ => []
  end.


Definition truthy_command (d : dict) : bool :=
  truthy (get_default "command" VNone d).

(** The locator in terms of the walk: a ['command'] key of the mapping
    itself wins, otherwise the first nested mapping with a truthy
    command. *)
Definition located (v : value) : launch :=
  match v with
  | VDict d =>
      if has_key "command" d then launch_of d
      else match find truthy_command (command_mappings v) with
           | Some d' => launch_of d'
           | None => not_found
           end
  | _ => not_found
  end.


(** The directive sentence as documented. *)
Definition directive (nodes : list (string * node_data)) (e : edge) : string :=
  "you may send the result from " ++ source_name nodes e ++ " to " ++ target_name nodes e.

(** The tools of a server that a list of disabled names lets through. *)
Definition disabled (disabled_tools : value) (t : MCPAgentTool) : bool :=
  match disabled_tools with
  | VList names => existsb (value_eqb (VStr (mcp_tool_name t))) names
  | _ => false
  end.



(** An agent node built from an agent record with a given tool list. *)
Definition with_agent_tools (r : agent_ref) (l : list tool_data) : agent_ref :=
  {| agent_id := agent_id r; agent_name := agent_name r;
     agent_prompt := agent_prompt r; agent_model_id := agent_model_id r;
     agent_description := agent_description r; agent_tools := l |}.

Definition agent_data_of (node_id : string) (r : agent_ref) : node_data :=
  {| node_id := node_id; node_type := "agent"; node_reference := Some (AgentRef r) |}.

(** A live agent made from one of the agent nodes of a graph: it carries
    the instruction text and the name of that node's agent record. *)
Definition made_from (items : list (string * node_data)) (a : StrandsAgent) : Prop :=
  exists node_id node r,
    In (node_id, node) items /\ node_type node = "agent"
    /\ node_reference node = Some (AgentRef r)
    /\ system_prompt a = agent_prompt r
    /\ __agent_name a = Some (agent_name r).

(** The documented condition of the single-agent special case. *)
Definition is_agent_node (item : string * node_data) : bool :=
  String.eqb (node_type (snd item)) "agent".

Definition one_agent_node_and_no_edges (c : workflow_ctx) : Prop :=
  List.length (filter is_agent_node (nodes c)) = 1 /\ edges c = [].

(** The worker uses a live agent of the graph itself as orchestrator. *)
Definition uses_agent_directly (W : World) (c : workflow_ctx) : Prop :=
  exists first rest tools,
    create_nodes W c = Ret (first :: rest, tools)
    /\ snd (setup W c)
       = Ret (set_callback_handler top_level_callback_handler first).

End Documented.

(* ================================================================== *)
(** ** Concrete worlds and graphs                                      *)
(* ================================================================== *)

Module Demo.
Import Py Json McpHelpers WorkflowRunner.

Definition q : string := String Json.quote "".

(** A tool server that reports two tools, an agent framework that echoes
    its input after one streamed fragment, and a catalogue without
    cross-region profiles. *)
Definition world : World := {|
  loads := json_loads;
  int_max_str_digits := Some 4300;
  get_model_with_cross_region_profile := fun m => Ret m;
  StrandsAgent_init := fun _ _ _ => None;
  list_tools_sync := fun _ _ _ =>
    Ret [ {| mcp_tool_name := "search" |}; {| mcp_tool_name := "fetch" |} ];
  invoke := fun _ _ message =>
    ([(by_orchestrator, [("delta", VDict [("text", VStr message)])])],
     Ret ("echo " ++ message));
  now := fun tick => "2025-01-01 00:00:0" ++ str_of_Z (Z.of_nat tick) ++ "+00:00"
|}.

(** The same, with a tool server that cannot be started. *)
Definition world_without_server : World := {|
  loads := json_loads;
  int_max_str_digits := Some 4300;
  get_model_with_cross_region_profile := fun m => Ret m;
  StrandsAgent_init := fun _ _ _ => None;
  list_tools_sync := fun _ _ _ => Raise (RuntimeError "connection closed");
  invoke := invoke world;
  now := now world
|}.

Definition calculator : tool_data := {|
  tool_id := "t-calc"; tool_name := "Calculator"; tool_type := "builtin";
  tool_config := None; tool_agent_id := None |}.

(** An external-process tool whose configuration has no command. *)
Definition docs_without_command : tool_data := {|
  tool_id := "t-docs"; tool_name := "docs"; tool_type := "mcp";
  tool_config := Some ("{" ++ q ++ "timeout" ++ q ++ ": 30}");
  tool_agent_id := None |}.

(** An external-process tool whose command sits at the top of its
    configuration, with one disabled tool. *)
Definition docs_flat : tool_data := {|
  tool_id := "t-docs"; tool_name := "docs"; tool_type := "mcp";
  tool_config :=
    Some ("{" ++ q ++ "command" ++ q ++ ": " ++ q ++ "uvx" ++ q ++ ", "
          ++ q ++ "disabled_tools" ++ q ++ ": [" ++ q ++ "fetch" ++ q ++ "]}");
  tool_agent_id := None |}.


Definition agent_record (agent_name prompt : string) (tools : list tool_data)
  : agent_ref := {|
  agent_id := "id-" ++ agent_name; agent_name := agent_name;
  agent_prompt := Some prompt; agent_model_id := None;
  agent_description := None; agent_tools := tools |}.

Definition agent_node (node_id agent_name prompt : string)
           (tools : list tool_data) : string * node_data :=
  (node_id, {| node_id := node_id; node_type := "agent";
               node_reference := Some (AgentRef (agent_record agent_name prompt tools)) |}).

Definition plain_node (node_id kind : string) : string * node_data :=
  (node_id, {| node_id := node_id; node_type := kind; node_reference := None |}).

Definition graph (nodes : list (string * node_data)) (edges : list edge)
  : workflow_ctx := {|
  id := "w-1"; name := "Flow"; description := Some "A demonstration graph.";
  model_id := None; nodes := nodes; edges := edges;
  conversation_history := Some []; last_edited := None;
  agents := []; ctx_tools := []; orchestrator := None |}.

(** [input] -> [agent: Summarizer] -> [output] *)
Definition summarizer_flow : workflow_ctx :=
  graph [plain_node "n1" "input";
         agent_node "n2" "Summarizer" "Summarize the text." [calculator];
         plain_node "n3" "output"]
        [ {| source := "n1"; target := "n2" |}; {| source := "n2"; target := "n3" |} ].

(** A store from which [load_workflow] builds that graph. *)
Definition store : Models.db_session := {|
  Models.Tool_rows :=
    [ {| Models.Tool_id := "t-calc"; Models.Tool_name := "Calculator";
         Models.Tool_tool_type := "builtin"; Models.Tool_config := None;
         Models.Tool_agent_id := None |} ];
  Models.Agent_rows :=
    [ {| Models.Agent_id := "id-Summarizer"; Models.Agent_name := "Summarizer";
         Models.Agent_description := None;
         Models.Agent_prompt := Some "Summarize the text.";
         Models.Agent_model_id := None |} ];
  Models.AgentTool_rows :=
    [ {| Models.AgentTool_agent_id := "id-Summarizer";
         Models.AgentTool_tool_id := "t-calc" |} ];
  Models.Workflow_rows :=
    [ {| Models.Workflow_id := "w-1"; Models.Workflow_name := "Flow";
         Models.Workflow_description := Some "A demonstration graph.";
         Models.Workflow_model_id := None; Models.Workflow_last_edited := None |} ];
  Models.WorkflowNode_rows :=
    [ {| Models.WorkflowNode_id := "n1"; Models.WorkflowNode_workflow_id := "w-1";
         Models.WorkflowNode_node_type := "input";
         Models.WorkflowNode_reference_id := None |};
      {| Models.WorkflowNode_id := "n2"; Models.WorkflowNode_workflow_id := "w-1";
         Models.WorkflowNode_node_type := "agent";
         Models.WorkflowNode_reference_id := Some "id-Summarizer" |};
      {| Models.WorkflowNode_id := "n3"; Models.WorkflowNode_workflow_id := "w-1";
         Models.WorkflowNode_node_type := "output";
         Models.WorkflowNode_reference_id := None |} ];
  Models.WorkflowEdge_rows :=
    [ {| Models.WorkflowEdge_workflow_id := "w-1";
         Models.WorkflowEdge_source_node_id := "n1";
         Models.WorkflowEdge_target_node_id := "n2" |};
      {| Models.WorkflowEdge_workflow_id := "w-1";
         Models.WorkflowEdge_source_node_id := "n2";
         Models.WorkflowEdge_target_node_id := "n3" |} ]
|}.

(** Two agents [A] and [B] and the edge from [A] to [B]. *)
Definition a_to_b : workflow_ctx :=
  graph [agent_node "a" "A" "Do A." []; agent_node "b" "B" "Do B." []]
        [ {| source := "a"; target := "b" |} ].

(** A graph with an input and an output node only. *)
Definition no_agents : workflow_ctx :=
  graph [plain_node "n1" "input"; plain_node "n3" "output"]
        [ {| source := "n1"; target := "n3" |} ].

(** A graph whose only agent node lost its agent record. *)
Definition dangling_agent : workflow_ctx :=
  graph [plain_node "n2" "agent"] [].

(** A bare agent whose tools are the calculator and a server without
    command. *)
Definition bare_agent : workflow_ctx :=
  graph [agent_node "n2" "Helper" "Help." [docs_without_command; calculator]] [].

(** The Summarizer flow once its worker is ready: the live agent that
    serves as orchestrator, and the state of the worker after [STARTED]. *)
Definition summarizer : StrandsAgent :=
  mkStrandsAgent None (Some "Summarize the text.")
                 [strands_tool StrandsTools.calculator]
                 top_level_callback_handler (Some "Summarizer") None.

Definition ready : worker := {|
  context := fst (setup world summarizer_flow);
  output_queue := [STARTED]; clock := 0; calls := [] |}.

End Demo.

(* ================================================================== *)
(** ** Notions used to state properties of whole runs                  *)
(* ================================================================== *)

Module Run.
Import Py WorkflowRunner.

(** [workflow_context.get('conversation_history', [])] *)
Definition history_of (w : worker) : list message :=
  match conversation_history (context w) with
  | Some h => h
  | None => []
  end.

(** The messages of an inbox that reach the orchestrator when no call
    fails: those before the first [TERMINATE] that are not [RETRIEVE]. *)
Fixpoint ordinary (inbox : list string) : list string :=
  match inbox with
  | [] => []
  | message :: rest =>
      if String.eqb message TERMINATE then []
      else if String.eqb message RETRIEVE then ordinary rest
      else message :: ordinary rest
  end.

(** The texts of the [user] entries and of the [assistant] entries of a
    history, in order. *)
Definition questions (history : list message) : list string :=
  map content (filter (fun m => String.eqb (role m) "user") history).

Definition answers (history : list message) : list string :=
  map content (filter (fun m => String.eqb (role m) "assistant") history).

(** What the loop puts on the output queue: a streamed fragment, a
    history dump or the turn-complete sentinel. *)
Definition is_reply (text : string) : bool :=
  String.prefix "data: " text || String.prefix HISTORY text || String.eqb text ANSWERED.

(** Two worker states that differ at most in their output queue. *)
Definition same_but_output (a b : worker) : Prop :=
  context a = context b /\ clock a = clock b /\ calls a = calls b.

End Run.

(* ================================================================== *)
(** ** Notions used to state what the history message carries         *)
(* ================================================================== *)

Module Wire.
Import Py Json WorkflowRunner.

(** The characters that [json.dumps] writes as they are or with a
    two-character escape: printable ASCII, and backspace, tab, line feed,
    form feed and carriage return. *)
Definition plain_char (c : ascii) : bool :=
  let n := code c in
  ((n =? 8) || (n =? 9) || (n =? 10) || (n =? 12) || (n =? 13)
   || ((32 <=? n) && (n <=? 126)))%nat.

Definition plain (s : string) : bool := forall_chars plain_char s.

Definition plain_message (m : message) : bool :=
  plain (role m) && plain (content m) && plain (timestamp m).

(** The text between the brackets of a serialised list. *)
Fixpoint items_text (l : list value) : string :=
  match l with
  | [] => ""
  | [x] => json_dumps x
  | x :: l' => json_dumps x ++ ", " ++ items_text l'
  end.

End Wire.

(* ================================================================== *)
(** ** Notions used to state properties of node materialisation        *)
(* ================================================================== *)

Module Parts.
Import Py Re WorkflowRunner.

(** What one tool record adds to the tool list of its agent. *)
Definition instances (W : World) (td : tool_data) : list tool :=
  match _create_tool_instance_from_data W td with
  | Ret (Some tool_instance) => tool_instance
  | _ => []
  end.

(** What one node adds to the list of live agents. *)
Definition live_agent (W : World) (item : string * node_data) : list StrandsAgent :=
  if String.eqb (node_type (snd item)) "agent" then
    match create_agent W (snd item) with
    | Some agent => [agent]
    | None => []
    end
  else [].

(** The characters a capability name may hold, and the text with every
    other character replaced by an underscore. *)
Definition allowed_in_name (c : ascii) : bool := is_word c || Ascii.eqb c "-".

Fixpoint replace_outside (s : string) : string :=
  match s with
  | EmptyString => EmptyString
  | String c s' => String (if allowed_in_name c then c else "_"%char) (replace_outside s')
  end.

(** A node whose reference has the shape its type asks for: a tool node
    carries no agent record. *)
Definition well_shaped (node : node_data) : Prop :=
  node_type node = "tool" ->
  match node_reference node with
  | Some (AgentRef _) => False
  | _ => True
  end.

End Parts.

(* ================================================================== *)
(** ** Further concrete worlds and records                             *)
(* ================================================================== *)

Module Samples.
Import Py WorkflowRunner.

(** An agent record that names a model. *)
Definition nova_agent : agent_ref := {|
  agent_id := "id-A"; agent_name := "A"; agent_prompt := Some "Do A.";
  agent_model_id := Some "amazon.nova-pro-v1:0"; agent_description := None;
  agent_tools := [] |}.

(** The two-agent graph of [Demo] with a model named for its orchestrator. *)
Definition a_to_b_on_nova : workflow_ctx := {|
  id := id Demo.a_to_b; name := name Demo.a_to_b;
  description := description Demo.a_to_b;
  model_id := Some "amazon.nova-pro-v1:0";
  nodes := nodes Demo.a_to_b; edges := edges Demo.a_to_b;
  conversation_history := conversation_history Demo.a_to_b;
  last_edited := last_edited Demo.a_to_b;
  agents := []; ctx_tools := []; orchestrator := None |}.

End Samples.

(* ================================================================== *)
(** ** Notions used to state properties of the configuration helpers   *)
(* ================================================================== *)

Module Shapes.
Import Py Re McpHelpers.



(** The last match of a list whose first group is the key [k]. *)
Definition last_with (k : string) (ms : list captures) : option captures :=
  find (fun m => String.eqb (group 1 m) k) (rev ms).

End Shapes.

(* ================================================================== *)
(** ** app.py: the registry of sessions and the callers of the worker  *)
(* ================================================================== *)

Module App.
Import Py WorkflowRunner.

(** *** The registry [_synced_workflow_queues] *)

(** Its keys: a session identifier is a [str], the identifier of a
    workflow or of an agent a [uuid.UUID]; a key of one kind never equals a
    key of the other. *)
Inductive key : Type :=
| session_key (session_id : string)
| workflow_key (workflow_id : string).

Definition key_eqb (a b : key) : bool :=
  match a, b with
  | session_key x, session_key y => String.eqb x y
  | workflow_key x, workflow_key y => String.eqb x y
  | _, _ => false
  end.

(** Its values: the shared mapping of a session, which holds the queues
    ['input'] and ['output'], or the session identifier that is recorded
    under a workflow.  A queue is named by the number of its creation. *)
Inductive entry : Type :=
| queues (input output : nat)
| session_of (session_id : string).

Definition registry : Type := list (key * entry).

(** [d.get(k)] *)
Fixpoint reg_get (k : key) (r : registry) : option entry :=
  match r with
  | [] => None
  | (k', v) :: r' => if key_eqb k k' then Some v else reg_get k r'
  end.

(** [d[k] = v]: in place when the key is present, at the end otherwise. *)
Fixpoint reg_set (k : key) (v : entry) (r : registry) : registry :=
  match r with
  | [] => [(k, v)]
  | (k', v') :: r' =>
      if key_eqb k k' then (k', v) :: r' else (k', v') :: reg_set k v r'
  end.

(** [d.pop(k, None)] *)
Fixpoint reg_pop (k : key) (r : registry) : registry :=
  match r with
  | [] => []
  | (k', v') :: r' => if key_eqb k k' then r' else (k', v') :: reg_pop k r'
  end.

(** The queues that the registry holds, in its order. *)
Definition queues_of (v : entry) : list nat :=
  match v with
  | queues input output => [input; output]
  | session_of _ => []
  end.

Definition handles (r : registry) : list nat :=
  flat_map (fun kv => queues_of (snd kv)) r.

(** A session identifier is bound to a shared mapping and a workflow
    identifier to a session identifier. *)
Definition well_kinded (kv : key * entry) : Prop :=
  match kv with
  | (session_key _, queues _ _) => True
  | (workflow_key _, session_of _) => True
  | _ => False
  end.

(** The manager process: the registry and the number of queues made. *)
Record manager : Type := {
  _synced_workflow_queues : registry;
  allocated : nat
}.

(** [init_workflow_queues]: the result is the lookup of the session
    after the four assignments, [None] standing for a [KeyError]. *)
Definition init_workflow_queues (workflow_id session_id : string) (m : manager)
  : option entry * manager :=
  let input := allocated m in
  let output := S (allocated m) in
  let r := reg_set (session_key session_id) (queues input output)
                   (_synced_workflow_queues m) in
  let r := reg_set (workflow_key workflow_id) (session_of session_id) r in
  (reg_get (session_key session_id) r,
   {| _synced_workflow_queues := r; allocated := S (S (allocated m)) |}).

Definition get_workflow_queues (session_id : key) (m : manager) : option entry :=
  reg_get session_id (_synced_workflow_queues m).

(** [v == workflow_id] for a value of the registry: a shared mapping
    equals nothing but itself, and a session identifier equals a [str] with
    the same text. *)
Definition equals (v : entry) (id : key) : bool :=
  match v, id with
  | session_of s, session_key s' => String.eqb s s'
  | _, _ => false
  end.

(** [[k for k, v in _synced_workflow_queues.items() if v == workflow_id]] *)
Definition get_all_session_for_workflow (workflow_id : key) (r : registry)
  : list key :=
  map fst (filter (fun kv => equals (snd kv) workflow_id) r).

Section Clearing.

(** Whether [isinstance] counts the shared mapping of a session as a
    [dict]; a session identifier never is one. *)
Variable proxy_is_dict : bool.

(** The ['input'] queue of a value that passes [isinstance(v, dict)]. *)
Definition input_of_dict (v : entry) : option nat :=
  match v with
  | queues input _ => if proxy_is_dict then Some input else None
  | session_of _ => None
  end.

(** The body of the loop over the sessions of a workflow; the second
    component lists the queues that were sent [TERMINATE]. *)
Definition terminate_session (state : registry * list nat) (session : key)
  : registry * list nat :=
  let '(r, sent) := state in
  match reg_get session r with
  | Some v =>
      match input_of_dict v with
      | Some input => (reg_pop session r, (sent ++ [input])%list)
      | None => state
      end
  | None => state
  end.

Definition clear_all_workflow_sessions (id_to_clear : key) (r : registry)
  : registry * list nat :=
  match match reg_get id_to_clear r with
        | Some v => input_of_dict v
        | None => None
        end with
  | Some input => (reg_pop id_to_clear r, [input])
  | None =>
      let sessions := get_all_session_for_workflow id_to_clear r in
      let '(r, sent) := fold_left terminate_session sessions (r, []) in
      (reg_pop id_to_clear r, sent)
  end.

End Clearing.

(** The states of the manager that the application can produce. *)
Inductive reachable : manager -> Prop :=
| at_start : reachable {| _synced_workflow_queues := []; allocated := 0 |}
| after_init (workflow_id session_id : string) (m : manager) :
    reachable m -> reachable (snd (init_workflow_queues workflow_id session_id m))
| after_clear (proxy_is_dict : bool) (id_to_clear : key) (m : manager) :
    reachable m ->
    reachable {| _synced_workflow_queues :=
                   fst (clear_all_workflow_sessions proxy_is_dict id_to_clear
                          (_synced_workflow_queues m));
                 allocated := allocated m |}.

(** *** The callers of the worker *)

(** How a loop on [qs['output'].get()] ends: it returns, it waits on the
    empty queue, or it is still running when the count of steps is used up. *)
Inductive reading : Type :=
| Finished
| Blocked
| Unfinished.

(** [_event_generator] after its [put], on the content of the output
    queue: what it yields, what it leaves on the queue, and how it ends. *)
Fixpoint _event_generator (fuel : nat) (output : list string)
  : list string * list string * reading :=
  match fuel with
  | O => ([], output, Unfinished)
  | S fuel =>
      match queue_get output with
      | None => ([], [], Blocked)
      | Some (answer, output) =>
          if String.eqb answer ANSWERED then ([], output, Finished)
          else if startswith HISTORY answer then
            _event_generator fuel (output ++ [answer])%list
          else
            let '(yielded, output, r) := _event_generator fuel output in
            (answer :: yielded, output, r)
      end
  end.

(** [s[n:]] *)
Fixpoint slice_from (n : nat) (s : string) : string :=
  match n, s with
  | O, _ => s
  | S n', String _ s' => slice_from n' s'
  | S _, EmptyString => EmptyString
  end.

Inductive response : Type :=
| history_ok (history : value)
| http_error (status_code : nat) (error : string).

Definition session : Type := (worker * status)%type.

Definition with_output (w : worker) (output : list string) : worker :=
  {| context := context w; output_queue := output; clock := clock w;
     calls := calls w |}.

Section Callers.
Variable W : World.

(** The [try] of [retrieve_conversation_history] on a history message. *)
Definition parsed_history (text : string) : result response :=
  let history_json := slice_from (String.length HISTORY) text in
  match loads W history_json with
  | Ret history => Ret (history_ok history)
  | Raise JSONDecodeError => Ret (http_error 500 "Failed to parse history")
  | Raise e => Raise e
  end.

(** The loop of [retrieve_conversation_history] on the content of the
    output queue; [None] when it waits on the empty queue. *)
Fixpoint await_history (output : list string)
  : option (result response) * list string :=
  match output with
  | [] => (None, [])
  | text :: output =>
      if startswith HISTORY text then (Some (parsed_history text), output)
      else if String.eqb text ANSWERED then
        (Some (Ret (history_ok (VList []))), output)
      else await_history output
  end.

(** [qs['input'].put(message)]: the worker of the session takes the
    message if it still waits for one.  Its puts are complete when the caller
    reads the output queue; a caller that only takes from the queue sees the
    same sequence however the two are interleaved. *)
Definition deliver (orchestrator : StrandsAgent) (s : session) (message : string)
  : session :=
  match snd s with
  | Waiting => handle W orchestrator (fst s) message
  | _ => s
  end.

(** [send_message] for a registered session: [None] is the response 400
    to an empty message, otherwise the stream and how its generator ends. *)
Definition send_message (fuel : nat) (orchestrator : StrandsAgent) (s : session)
           (data_message : string)
  : option (list string * reading) * session :=
  let message := strip data_message in
  if String.eqb message "" then (None, s)
  else
    let '(w, st) := deliver orchestrator s message in
    let '(yielded, output, r) := _event_generator fuel (output_queue w) in
    (Some (yielded, r), (with_output w output, st)).

(** [retrieve_conversation_history] for a registered session. *)
Definition retrieve_conversation_history (orchestrator : StrandsAgent) (s : session)
  : option (result response) * session :=
  let '(w, st) := deliver orchestrator s RETRIEVE in
  let '(answer, output) := await_history (output_queue w) in
  (answer, (with_output w output, st)).

End Callers.

End App.

Module Sessions.
Import Py WorkflowRunner App.

(** The worker of the Summarizer flow of [Demo] once the activation has
    taken [STARTED] off its output queue. *)
Definition listening : worker := with_output Demo.ready [].

(** The same worker after the turn of the message [hello], its stream
    read to the end. *)
Definition answered : worker :=
  with_output (fst (handle Demo.world Demo.summarizer listening "hello")) [].

(** The same worker with a fragment and the end marker of an earlier turn
    still on its output queue. *)
Definition abandoned : worker :=
  with_output Demo.ready ["data: {}" ++ nl ++ "end"; ANSWERED].

(** The world of [Demo] with a model that fails after one fragment. *)
Definition world_with_failing_model : World := {|
  loads := loads Demo.world;
  int_max_str_digits := int_max_str_digits Demo.world;
  get_model_with_cross_region_profile := get_model_with_cross_region_profile Demo.world;
  StrandsAgent_init := StrandsAgent_init Demo.world;
  list_tools_sync := list_tools_sync Demo.world;
  invoke := fun _ _ message =>
    ([(by_orchestrator, [("delta", VDict [("text", VStr message)])])],
     Raise (RuntimeError "throttled"));
  now := now Demo.world |}.

(** The manager after two activations of the workflow [w]. *)
Definition two_sessions : manager :=
  snd (init_workflow_queues "w" "s2"
         (snd (init_workflow_queues "w" "s1"
                 {| _synced_workflow_queues := []; allocated := 0 |}))).

End Sessions.

(* ================================================================== *)
(** ** bedrock_models.py: the catalogue of models                      *)
(* ================================================================== *)

Module Bedrock.
Import Py.

(** [s.split(sep)] for a separator that is not empty: [skip] counts the
    characters of a separator that are still to be passed over. *)
Fixpoint split_from (sep : string) (skip : nat) (s : string) : list string :=
  match s with
  | EmptyString => [EmptyString]
  | String c s' =>
      match skip with
      | S n => split_from sep n s'
      | O =>
          if String.prefix sep s then
            EmptyString :: split_from sep (String.length sep - 1) s'
          else
            match split_from sep 0 s' with
            | piece :: pieces => String c piece :: pieces
            | [] => [String c EmptyString]
            end
      end
  end.

Definition split (sep s : string) : list string := split_from sep 0 s.

(** The answers of the Bedrock service, with the keys that the module
    reads; [None] is a key that is absent. *)
Record associated_model : Type := { modelArn : option string }.

Record profile_summary : Type := {
  inferenceProfileId : option string;
  models : option (list associated_model)
}.

Record model_summary : Type := {
  modelId : option string;
  modelName : option string;
  providerName : option string;
  outputModalities : option (list string);
  inferenceTypesSupported : option (list string)
}.

(** The client: what [list_inference_profiles] and
    [list_foundation_models] answer under the keys
    ['inferenceProfileSummaries'] and ['modelSummaries'], a failure to make
    the client or to call it being an exception. *)
Record client : Type := {
  list_inference_profiles : result (option (list profile_summary));
  list_foundation_models : result (option (list model_summary))
}.

Definition or_default {A} (default : A) (x : option A) : A :=
  match x with
  | Some a => a
  | None => default
  end.

Definition nonempty (s : string) : bool := negb (String.eqb s "").

(** [model_arn.split('foundation-model/')[1]] *)
Definition base_model_id_of (model_arn : string) : result string :=
  match split "foundation-model/" model_arn with
  | _ :: base_model_id :: _ => Ret base_model_id
  | _ => Raise IndexError
  end.

(** The body of the loop over the associated models of a profile. *)
Definition record_model (profile_id : string) (model_to_profile_map : list (string * string))
           (model : associated_model) : result (list (string * string)) :=
  let model_arn := or_default "" (modelArn model) in
  if nonempty model_arn && contains "foundation-model/" model_arn then
    base_model_id <- base_model_id_of model_arn ;;
    if nonempty base_model_id && nonempty profile_id
    then Ret (setitem base_model_id profile_id model_to_profile_map)
    else Ret model_to_profile_map
  else Ret model_to_profile_map.

Fixpoint for_each {A B} (body : B -> A -> result B) (items : list A) (state : B)
  : result B :=
  match items with
  | [] => Ret state
  | item :: rest => state' <- body state item ;; for_each body rest state'
  end.

(** The body of the loop over the profiles. *)
Definition record_profile (model_to_profile_map : list (string * string))
           (profile : profile_summary) : result (list (string * string)) :=
  let profile_id := or_default "" (inferenceProfileId profile) in
  for_each (record_model profile_id) (or_default [] (models profile))
           model_to_profile_map.

Definition get_cross_region_inference_profiles (c : client) : list (string * string) :=
  match (summaries <- list_inference_profiles c ;;
         for_each record_profile (or_default [] summaries) []) with
  | Ret model_to_profile_map => model_to_profile_map
  | Raise _ => []
  end.

(** What an entry of the map of profiles stands for: a profile of the
    answer with that identifier, not empty, that lists a model whose ARN has
    the key after its first [foundation-model/]. *)
Definition from_catalogue (profiles : list profile_summary)
           (base_model_id profile_id : string) : Prop :=
  exists profile associated arn,
    In profile profiles
    /\ inferenceProfileId profile = Some profile_id
    /\ profile_id <> ""
    /\ In associated (or_default [] (models profile))
    /\ modelArn associated = Some arn
    /\ base_model_id_of arn = Ret base_model_id.

Definition get_model_with_cross_region_profile (c : client) (model_id : string)
  : string :=
  get_default model_id model_id (get_cross_region_inference_profiles c).

(** An element of the list that [list_bedrock_models] returns. *)
Record listed_model : Type := {
  listed_modelId : string;
  listed_modelName : option string;
  listed_provider : option string;
  listed_outputModalities : list string;
  listed_inferenceTypes : list string;
  crossRegionProfile : string
}.

Definition member (x : string) (l : list string) : bool := existsb (String.eqb x) l.

(** The body of the loop over the models: the element that is appended,
    if one is. *)
Definition listed (filter_text_modality filter_on_demand filter_cross_region : bool)
           (cross_region_profiles : list (string * string)) (model : model_summary)
  : list listed_model :=
  let has_text_modality :=
    if negb filter_text_modality then true
    else member "TEXT" (or_default [] (outputModalities model)) in
  let has_on_demand :=
    if negb filter_on_demand then true
    else member "ON_DEMAND" (or_default [] (inferenceTypesSupported model)) in
  let model_id := or_default "" (modelId model) in
  let has_cross_region :=
    if negb filter_cross_region then true
    else has_key model_id cross_region_profiles in
  if has_text_modality && has_on_demand && has_cross_region then
    [ {| listed_modelId := model_id;
         listed_modelName := modelName model;
         listed_provider := providerName model;
         listed_outputModalities := or_default [] (outputModalities model);
         listed_inferenceTypes := or_default [] (inferenceTypesSupported model);
         crossRegionProfile := get_default model_id "" cross_region_profiles |} ]
  else [].

Definition list_bedrock_models (c : client)
           (filter_text_modality filter_on_demand filter_cross_region : bool)
  : list listed_model :=
  match list_foundation_models c with
  | Raise _ => []
  | Ret summaries =>
      let cross_region_profiles :=
        if filter_cross_region then get_cross_region_inference_profiles c else [] in
      flat_map (listed filter_text_modality filter_on_demand filter_cross_region
                       cross_region_profiles)
               (or_default [] summaries)
  end.

End Bedrock.

Module Catalogue.
Import Py Bedrock.

(** A service with one profile for Nova Pro and two models, of which
    only Nova Pro has a profile. *)
Definition nova_arn : string :=
  "arn:aws:bedrock:us-east-1::foundation-model/amazon.nova-pro-v1:0".

Definition service : client := {|
  list_inference_profiles :=
    Ret (Some [ {| inferenceProfileId := Some "us.amazon.nova-pro-v1:0";
                   models := Some [ {| modelArn := Some nova_arn |} ] |} ]);
  list_foundation_models :=
    Ret (Some [ {| modelId := Some "amazon.nova-pro-v1:0";
                   modelName := Some "Nova Pro"; providerName := Some "Amazon";
                   outputModalities := Some ["TEXT"];
                   inferenceTypesSupported := Some ["ON_DEMAND"] |};
                {| modelId := Some "amazon.titan-image-v1";
                   modelName := Some "Titan Image"; providerName := Some "Amazon";
                   outputModalities := Some ["IMAGE"];
                   inferenceTypesSupported := Some ["ON_DEMAND"] |} ])
|}.

Definition nova_listed : listed_model := {|
  listed_modelId := "amazon.nova-pro-v1:0";
  listed_modelName := Some "Nova Pro";
  listed_provider := Some "Amazon";
  listed_outputModalities := ["TEXT"];
  listed_inferenceTypes := ["ON_DEMAND"];
  crossRegionProfile := "us.amazon.nova-pro-v1:0" |}.

(** A service that cannot be reached: making the client or calling it
    raises. *)
Definition unreachable : client := {|
  list_inference_profiles := Raise (RuntimeError "no credentials");
  list_foundation_models := Raise (RuntimeError "no credentials") |}.

(** A world whose catalogue lookup is [get_model_with_cross_region_profile]
    of [bedrock_models.py] on the answers of a service: the lookup returns
    for every identifier. *)
Definition backed_by (c : client) (W : WorkflowRunner.World) : WorkflowRunner.World := {|
  WorkflowRunner.loads := WorkflowRunner.loads W;
  WorkflowRunner.int_max_str_digits := WorkflowRunner.int_max_str_digits W;
  WorkflowRunner.get_model_with_cross_region_profile :=
    fun model_id => Ret (get_model_with_cross_region_profile c model_id);
  WorkflowRunner.StrandsAgent_init := WorkflowRunner.StrandsAgent_init W;
  WorkflowRunner.list_tools_sync := WorkflowRunner.list_tools_sync W;
  WorkflowRunner.invoke := WorkflowRunner.invoke W;
  WorkflowRunner.now := WorkflowRunner.now W |}.

End Catalogue.

(* ================================================================== *)
(** ** Properties of [mcp_helpers.py]                                  *)
(* ================================================================== *)

Module McpHelpersFacts.
Import Py Re McpHelpers Documented.

Section Recovery.
Variable loads : string -> result value.
Variable limit : option nat.



End Recovery.


End McpHelpersFacts.

Module LocateFacts.
Import Py McpHelpers Documented.

Lemma find_app {A} (p : A -> bool) (l1 l2 : list A) :
  find p (l1 ++ l2)%list = match find p l1 with Some x => Some x | None => find p l2 end.
Proof.
  induction l1 as [| a l1 IH]; simpl; [reflexivity |].
  destruct (p a); [reflexivity | exact IH].
Qed.

Lemma located_command (v : value) :
  truthy (fst (fst (fst (located v))))
  = match find truthy_command (command_mappings v) with Some _ => true | None => false end.
Proof.
  destruct v as [| | | | | l | d]; try reflexivity.
  unfold located. cbn [command_mappings].
  destruct (has_key "command" d) eqn:Hk.
  - cbn [find]. unfold truthy_command, launch_of. cbn [fst].
    destruct (truthy (get_default "command" VNone d)); reflexivity.
  - destruct (find truthy_command _) as [d' |] eqn:Hf.
    + apply find_some in Hf. destruct Hf as [_ Ht]. exact Ht.
    + reflexivity.
Qed.

Lemma locate_config_located (v : value) : locate_config v = located v.
Proof.
  induction v as [| b | z | l | s | l IH | d IH] using Py.value_ind; try reflexivity.
  unfold located. cbn [locate_config command_mappings].
  destruct (has_key "command" d); [reflexivity |].
  clear - IH. induction d as [| [k x] d IHd]; [reflexivity |].
  inversion IH as [| ? ? Hx Hd]; subst. specialize (IHd Hd).
  rewrite find_app.
  assert (Hskip : forall y, is_dict y = false -> command_mappings y = []).
  { intros y Hy. destruct y; try reflexivity. discriminate Hy. }
  destruct (is_dict x) eqn:Hdict.
  - destruct x as [| | | | | | dx]; try discriminate Hdict.
    cbn [snd] in Hx. rewrite Hx.
    pose proof (located_command (VDict dx)) as Hc.
    destruct (located (VDict dx)) as [[[cmd args] env] disabled] eqn:Hloc.
    cbn [fst] in Hc. rewrite Hc.
    destruct (find truthy_command (command_mappings (VDict dx))) as [d' |] eqn:Hf.
    + unfold located in Hloc. cbn [command_mappings] in Hf.
      destruct (has_key "command" dx) eqn:Hk.
      * cbn [find] in Hf. destruct (truthy_command dx); [| discriminate Hf].
        injection Hf as <-. symmetry. exact Hloc.
      * cbn [command_mappings] in Hloc. rewrite Hk in Hloc.
        rewrite Hf in Hloc. symmetry. exact Hloc.
    + exact IHd.
  - rewrite (Hskip x Hdict). cbn [find].
    destruct x; try exact IHd. discriminate Hdict.
Qed.

Lemma no_command_not_found (v : value) :
  command_mappings v = [] -> locate_config v = not_found.
Proof.
  rewrite locate_config_located.
  intros Hnone. destruct v as [| | | | | l | d]; try reflexivity.
  unfold located. cbn [command_mappings] in *.
  destruct (has_key "command" d); [discriminate Hnone |].
  rewrite Hnone. reflexivity.
Qed.





End LocateFacts.

(* ================================================================== *)
(** ** Properties of the capability factory                            *)
(* ================================================================== *)

Module FactoryFacts.
Import Py McpHelpers WorkflowRunner Documented.

Section Factory.
Variable W : World.


Lemma mcp_branch (td : tool_data) :
  tool_type td = "mcp" ->
  _create_tool_instance_from_data W td
  = try_except (mcp_tools W (parsed_config W td)) (fun _ => Ret None).
Proof.
  intros Hkind. unfold _create_tool_instance_from_data. rewrite Hkind. reflexivity.
Qed.


Lemma falsy_command_gives_none (config : value) :
  truthy (fst (fst (fst (locate_config config)))) = false ->
  try_except (mcp_tools W config) (fun _ => Ret None) = Ret None.
Proof.
  unfold mcp_tools.
  destruct (locate_config config) as [[[command args] env] unused]. cbn [fst].
  intros Hfalsy.
  destruct (config_get config "disabled_tools" (VList [])) as [disabled_tools | e];
    [| reflexivity].
  cbn [bind]. rewrite Hfalsy. reflexivity.
Qed.

Lemma failed_start_gives_none (config : value) (e : exn) :
  (let '(command, args, env, _) := locate_config config in
   list_tools_sync W command args env) = Raise e ->
  try_except (mcp_tools W config) (fun _ => Ret None) = Ret None.
Proof.
  unfold mcp_tools.
  destruct (locate_config config) as [[[command args] env] unused].
  intros Hstart.
  destruct (config_get config "disabled_tools" (VList [])) as [disabled_tools | e'];
    [| reflexivity].
  cbn [bind]. destruct (truthy command); [| reflexivity].
  cbn [negb]. rewrite Hstart. reflexivity.
Qed.

Lemma collect_tools_skips (td : tool_data) (before after : list tool_data)
      (acc : list tool) :
  _create_tool_instance_from_data W td = Ret None ->
  collect_tools W (before ++ td :: after)%list acc
  = collect_tools W (before ++ after)%list acc.
Proof.
  intros Hnone. revert acc.
  induction before as [| first before IH]; intros acc; cbn [app collect_tools].
  - rewrite Hnone. reflexivity.
  - destruct (_create_tool_instance_from_data W first) as [[inst |] | e];
      try apply IH.
    destruct (nonempty inst); apply IH.
Qed.

Lemma instances_nonempty_or_nil (td : tool_data) (l : list tool) :
  _create_tool_instance_from_data W td = Ret (Some l) ->
  (if nonempty l then l else []) = Parts.instances W td.
Proof.
  intros Hmade. unfold Parts.instances. rewrite Hmade. destruct l; reflexivity.
Qed.

(** The loop over the tool records of an agent, as a concatenation. *)
Lemma collect_tools_concat (tools_data : list tool_data) :
  forall acc, collect_tools W tools_data acc
              = (acc ++ flat_map (Parts.instances W) tools_data)%list.
Proof.
  induction tools_data as [| td rest IH]; intros acc; cbn [collect_tools flat_map].
  - symmetry. apply app_nil_r.
  - unfold Parts.instances at 1.
    destruct (_create_tool_instance_from_data W td) as [[l |] | e]; cbn [app].
    + destruct l as [| t l]; cbn [nonempty app]; rewrite IH; [reflexivity |].
      rewrite <- app_assoc. reflexivity.
    + apply IH.
    + apply IH.
Qed.

(** An agent record whose constructor call is accepted gives an agent
    with the fields of the record and the capabilities of its tool records. *)
Lemma create_agent_accepted (node_id : string) (r : agent_ref) :
  StrandsAgent_init W (cross_region W (agent_model_id r)) (agent_prompt r)
                    (flat_map (Parts.instances W) (agent_tools r)) = None ->
  create_agent W (agent_data_of node_id r)
  = Some (mkStrandsAgent (cross_region W (agent_model_id r)) (agent_prompt r)
                         (flat_map (Parts.instances W) (agent_tools r))
                         default_callback_handler
                         (Some (agent_name r)) (agent_description r)).
Proof.
  intros Haccepted.
  unfold create_agent, agent_data_of, StrandsAgent_new. cbn [node_reference].
  rewrite (collect_tools_concat _ []). cbn [app]. rewrite Haccepted. reflexivity.
Qed.

(** C4: for a record of kind [mcp], the factory returns [None] when the
    located command is missing or falsy, in particular when no mapping of
    the parsed configuration has a ['command'] key at any depth; it returns
    [None] when starting the client or listing its tools raises.  An agent
    whose tool list holds such a record is created exactly as without it:
    when the agent constructor accepts the capabilities of the remaining
    records, the agent is constructed, with the name and the instruction
    text of its record and with exactly those capabilities, in the order of
    the records. *)
Theorem mcp_failure_is_absorbed (td : tool_data) :
  tool_type td = "mcp" ->
  (truthy (fst (fst (fst (locate_config (parsed_config W td))))) = false ->
   _create_tool_instance_from_data W td = Ret None)
  /\ (command_mappings (parsed_config W td) = [] ->
      _create_tool_instance_from_data W td = Ret None)
  /\ (forall e,
         (let '(command, args, env, _) := locate_config (parsed_config W td) in
          list_tools_sync W command args env) = Raise e ->
         _create_tool_instance_from_data W td = Ret None)
  /\ (_create_tool_instance_from_data W td = Ret None ->
      forall node_id r before after,
        create_agent W (agent_data_of node_id (with_agent_tools r (before ++ td :: after)))
        = create_agent W (agent_data_of node_id (with_agent_tools r (before ++ after))))
  /\ (_create_tool_instance_from_data W td = Ret None ->
      forall node_id r before after,
        let remaining :=
          (flat_map (Parts.instances W) before
           ++ flat_map (Parts.instances W) after)%list in
        StrandsAgent_init W (cross_region W (agent_model_id r)) (agent_prompt r)
                          remaining = None ->
        exists a,
          create_agent W (agent_data_of node_id
                            (with_agent_tools r (before ++ td :: after))) = Some a
          /\ tools a = remaining
          /\ __agent_name a = Some (agent_name r)
          /\ system_prompt a = agent_prompt r).
Proof.
  intros Hkind. rewrite (mcp_branch td Hkind).
  split; [| split; [| split; [| split]]].
  - apply falsy_command_gives_none.
  - intros Hnone. apply falsy_command_gives_none.
    rewrite (LocateFacts.no_command_not_found _ Hnone). reflexivity.
  - intros e. apply failed_start_gives_none.
  - intros Hnone node_id r before after.
    rewrite <- (mcp_branch td Hkind) in Hnone.
    unfold create_agent, agent_data_of, with_agent_tools. cbn.
    rewrite (collect_tools_skips td before after [] Hnone). reflexivity.
  - intros Hnone node_id r before after remaining Haccepted.
    rewrite <- (mcp_branch td Hkind) in Hnone.
    assert (Hsame : flat_map (Parts.instances W) (before ++ td :: after)
                    = remaining).
    { rewrite flat_map_app. cbn [flat_map]. unfold Parts.instances at 2.
      rewrite Hnone. reflexivity. }
    eexists. split.
    + apply create_agent_accepted.
      cbn [with_agent_tools agent_model_id agent_prompt agent_tools].
      rewrite Hsame. exact Haccepted.
    + cbn [tools __agent_name system_prompt with_agent_tools agent_tools
             agent_name agent_prompt].
      split; [exact Hsame |]. split; reflexivity.
Qed.




End Factory.


Lemma mcp_failure_is_absorbed_witness :
  tool_type Demo.docs_without_command = "mcp"
  /\ command_mappings (parsed_config Demo.world Demo.docs_without_command) = []
  /\ _create_tool_instance_from_data Demo.world Demo.docs_without_command = Ret None
  /\ _create_tool_instance_from_data Demo.world_without_server Demo.docs_flat = Ret None
  /\ exists a,
       create_agent Demo.world
         (agent_data_of "n2"
            (Demo.agent_record "Helper" "Help."
               [Demo.docs_without_command; Demo.calculator])) = Some a
       /\ tools a = [strands_tool StrandsTools.calculator]
       /\ __agent_name a = Some "Helper"
       /\ system_prompt a = Some "Help.".
Proof.
  split; [reflexivity |]. split; [reflexivity |]. split; [| split].
  - apply (proj1 (proj2 (mcp_failure_is_absorbed Demo.world Demo.docs_without_command eq_refl))).
    reflexivity.
  - apply (proj1 (proj2 (proj2
             (mcp_failure_is_absorbed Demo.world_without_server Demo.docs_flat eq_refl)))
             (RuntimeError "connection closed")).
    reflexivity.
  - exact (proj2 (proj2 (proj2 (proj2
             (mcp_failure_is_absorbed Demo.world Demo.docs_without_command eq_refl))))
             eq_refl "n2" (Demo.agent_record "Helper" "Help." []) []
             [Demo.calculator] eq_refl).
Defined.



End FactoryFacts.

(* ================================================================== *)
(** ** Properties of the generated prompt                              *)
(* ================================================================== *)

Module PromptFacts.
Import Py WorkflowRunner Documented.

Lemma append_assoc (a b c : string) : (a ++ b) ++ c = a ++ b ++ c.
Proof.
  induction a as [| x a IH]; [reflexivity |].
  cbn [append]. f_equal. exact IH.
Qed.

Lemma prefix_append (p s : string) : String.prefix p (p ++ s) = true.
Proof.
  induction p as [| x p IH]; cbn [append String.prefix].
  - destruct s; reflexivity.
  - destruct (Ascii.ascii_dec x x) as [_ | Hne]; [exact IH | contradiction].
Qed.

(** The test [contains] finds every occurrence. *)
Lemma occurs_in_contains (sub s : string) :
  occurs_in sub s -> contains sub s = true.
Proof.
  intros [pre [post ->]].
  induction pre as [| x pre IH].
  - cbn [append]. destruct (sub ++ post) eqn:Hs; cbn [contains];
      rewrite <- Hs, prefix_append; reflexivity.
  - cbn [append contains]. rewrite IH. apply orb_true_r.
Qed.

Lemma occurs_in_append_l (sub a b : string) : occurs_in sub b -> occurs_in sub (a ++ b).
Proof.
  intros [pre [post ->]]. exists (a ++ pre), post. symmetry. apply append_assoc.
Qed.

Lemma occurs_in_append_r (sub a b : string) : occurs_in sub a -> occurs_in sub (a ++ b).
Proof.
  intros [pre [post ->]]. exists pre, (post ++ b).
  rewrite !append_assoc. reflexivity.
Qed.

Lemma occurs_in_self (sub : string) : occurs_in sub sub.
Proof.
  exists "", "". cbn [append]. induction sub as [| x sub IH]; [reflexivity |].
  cbn [append]. f_equal. exact IH.
Qed.

(** Text appended by a loop stays in the prompt. *)
Lemma fold_keeps {A} (f : A -> string) (l : list A) (init sub : string) :
  occurs_in sub init -> occurs_in sub (fold_left (fun p x => p ++ f x) l init).
Proof.
  revert init. induction l as [| y l IH]; intros init Hin; cbn [fold_left].
  - exact Hin.
  - apply IH. apply occurs_in_append_r. exact Hin.
Qed.

Lemma fold_adds {A} (f : A -> string) (l : list A) (init : string) (x : A) :
  In x l -> occurs_in (f x) (fold_left (fun p x => p ++ f x) l init).
Proof.
  revert init. induction l as [| y l IH]; intros init Hin; [contradiction |].
  cbn [fold_left]. destruct Hin as [-> | Hin].
  - apply fold_keeps. apply occurs_in_append_l. apply occurs_in_self.
  - apply IH. exact Hin.
Qed.

(** C1 (amended): for every edge of the graph the generated prompt holds
    the line [- You can from <source> send the result to the <target>],
    where the source is written [the initial input] when the source node has
    type [input], the target is written [the user as final response] when the
    target node has type [output], and a node is otherwise written by the
    name of its reference, or as [Node <id>] when it has none. *)
Theorem prompt_lists_every_edge (workflow : workflow_ctx) (e : edge) :
  In e (edges workflow) ->
  occurs_in ("- You can from " ++ source_name (nodes workflow) e
             ++ " send the result to the " ++ target_name (nodes workflow) e ++ nl)
            (_generate_workflow_prompt workflow)
  /\ (has_type (lookup (source e) (nodes workflow)) "input" = true ->
      source_name (nodes workflow) e = "the initial input")
  /\ (has_type (lookup (source e) (nodes workflow)) "input" = false ->
      source_name (nodes workflow) e
      = display_name (lookup (source e) (nodes workflow)) (source e))
  /\ (has_type (lookup (target e) (nodes workflow)) "output" = true ->
      target_name (nodes workflow) e = "the user as final response")
  /\ (has_type (lookup (target e) (nodes workflow)) "output" = false ->
      target_name (nodes workflow) e
      = display_name (lookup (target e) (nodes workflow)) (target e)).
Proof.
  intros Hin. split.
  - unfold _generate_workflow_prompt. apply occurs_in_append_r.
    apply (fold_adds (edge_line (nodes workflow)) (edges workflow) _ e Hin).
  - unfold source_name, target_name.
    repeat split; intros ->; reflexivity.
Qed.

Lemma prompt_lists_every_edge_witness :
  occurs_in ("- You can from A send the result to the B" ++ nl)
            (_generate_workflow_prompt Demo.a_to_b).
Proof.
  exact (proj1 (prompt_lists_every_edge Demo.a_to_b {| source := "a"; target := "b" |}
                  (or_introl eq_refl))).
Defined.

(** C1 (as documented) fails: for the graph with agents [A] and [B] and
    the edge from [A] to [B], the prompt does not hold the sentence
    [you may send the result from A to B]. *)
Lemma prompt_has_no_documented_directive :
  directive (nodes Demo.a_to_b) {| source := "a"; target := "b" |}
  = "you may send the result from A to B"
  /\ ~ occurs_in (directive (nodes Demo.a_to_b) {| source := "a"; target := "b" |})
                 (_generate_workflow_prompt Demo.a_to_b).
Proof.
  split; [reflexivity |].
  intros Hocc. apply occurs_in_contains in Hocc.
  vm_compute in Hocc. discriminate Hocc.
Qed.

End PromptFacts.

(* ================================================================== *)
(** ** Properties of the worker set-up                                 *)
(* ================================================================== *)

Module SetupFacts.
Import Py WorkflowRunner Documented.

Section Setup.
Variable W : World.

(** A live agent carries the instruction text and the name of the agent
    record of its node. *)
Lemma create_agent_fields (node : node_data) (a : StrandsAgent) :
  create_agent W node = Some a ->
  exists r, node_reference node = Some (AgentRef r)
            /\ system_prompt a = agent_prompt r
            /\ __agent_name a = Some (agent_name r).
Proof.
  unfold create_agent, StrandsAgent_new.
  destruct (node_reference node) as [[r | t] |]; try discriminate.
  destruct (StrandsAgent_init W _ _ _); [discriminate |].
  intros Hsome. injection Hsome as <-. exists r. repeat split.
Qed.

Lemma create_nodes_from_agents (items : list (string * node_data)) :
  forall acc tools agents tools',
    create_nodes_from W items acc tools = Ret (agents, tools') ->
    forall a, In a agents -> In a acc \/ made_from items a.
Proof.
  induction items as [| [node_id node] items IH]; intros acc tools agents tools' Hrun a Ha.
  - cbn in Hrun. injection Hrun as <- <-. left. exact Ha.
  - cbn [create_nodes_from] in Hrun.
    assert (Hlater : made_from items a -> made_from ((node_id, node) :: items) a).
    { intros [i [n [r [Hin Hrest]]]]. exists i, n, r. split; [right; exact Hin | exact Hrest]. }
    destruct (String.eqb (node_type node) "agent") eqn:Hkind.
    + apply String.eqb_eq in Hkind.
      destruct (create_agent W node) as [agent |] eqn:Hmade.
      * destruct (IH _ _ _ _ Hrun a Ha) as [Hacc | Hmore]; [| right; auto].
        apply in_app_or in Hacc. destruct Hacc as [Hacc | [<- | []]]; [left; exact Hacc |].
        right. destruct (create_agent_fields node agent Hmade) as [r [Href [Hp Hn]]].
        exists node_id, node, r. repeat split; auto. left. reflexivity.
      * destruct (IH _ _ _ _ Hrun a Ha) as [Hacc | Hmore]; [left; exact Hacc | right; auto].
    + destruct (String.eqb (node_type node) "tool").
      * destruct (create_tool W node) as [[[| t ts] |] | e]; cbn [bind] in Hrun;
          try discriminate;
          (destruct (IH _ _ _ _ Hrun a Ha) as [Hacc | Hmore];
           [left; exact Hacc | right; auto]).
      * destruct (IH _ _ _ _ Hrun a Ha) as [Hacc | Hmore]; [left; exact Hacc | right; auto].
Qed.

Lemma create_orchestrator_prompt (c : workflow_ctx) (o : StrandsAgent) :
  _create_orchestrator W c = Ret o ->
  system_prompt o = Some (_generate_workflow_prompt c) /\ __agent_name o = None.
Proof.
  unfold _create_orchestrator, StrandsAgent_new.
  destruct (wrap_agents (agents c)) as [wrapped | e]; [| discriminate]. cbn [bind].
  destruct (match model_id c with
            | Some m => _
            | None => _
            end) as [m | e]; [| discriminate]. cbn [bind].
  destruct (StrandsAgent_init W _ _ _); [discriminate |].
  intros Hret. injection Hret as <-. split; reflexivity.
Qed.

Lemma set_callback_handler_keeps (h : callback) (a : StrandsAgent) :
  system_prompt (set_callback_handler h a) = system_prompt a
  /\ __agent_name (set_callback_handler h a) = __agent_name a.
Proof. destruct a. split; reflexivity. Qed.

Lemma setup_one (c : workflow_ctx) (a : StrandsAgent) (tools : list (list tool)) :
  create_nodes W c = Ret ([a], tools) ->
  snd (setup W c) = Ret (set_callback_handler top_level_callback_handler a).
Proof. intros Hnodes. unfold setup. rewrite Hnodes. reflexivity. Qed.

Lemma setup_many (c : workflow_ctx) (agents : list StrandsAgent)
      (tools : list (list tool)) (o : StrandsAgent) :
  create_nodes W c = Ret (agents, tools) ->
  2 <= List.length agents ->
  snd (setup W c) = Ret o ->
  system_prompt o = Some (_generate_workflow_prompt c) /\ __agent_name o = None.
Proof.
  intros Hnodes Hmany. unfold setup. rewrite Hnodes.
  destruct (1 <? List.length agents)%nat eqn:Hlt;
    [| apply Nat.ltb_ge in Hlt; lia].
  destruct (_create_orchestrator W _) as [made | e] eqn:Hmade; cbn [snd];
    [| discriminate].
  intros Hret. injection Hret as <-.
  destruct (create_orchestrator_prompt _ _ Hmade) as [Hp Hn].
  destruct (set_callback_handler_keeps top_level_callback_handler made) as [Hp' Hn'].
  rewrite Hp', Hn', Hp, Hn. split; reflexivity.
Qed.

(** C2 (amended): the worker uses an agent of the graph directly as
    orchestrator exactly when node materialisation yields exactly one live
    agent, whatever the edges of the graph.  The system prompt of the
    orchestrator is then the instruction text of the agent record of one of
    the agent nodes, verbatim; with two or more live agents the system prompt
    is the generated one. *)
Theorem single_live_agent_is_orchestrator
        (c : workflow_ctx) (agents : list StrandsAgent) (tools : list (list tool)) :
  create_nodes W c = Ret (agents, tools) ->
  (uses_agent_directly W c <-> List.length agents = 1)
  /\ (forall a, agents = [a] ->
        exists o, snd (setup W c) = Ret o
                  /\ system_prompt o = system_prompt a
                  /\ made_from (nodes c) a)
  /\ (2 <= List.length agents ->
      forall o, snd (setup W c) = Ret o ->
                system_prompt o = Some (_generate_workflow_prompt c)).
Proof.
  intros Hnodes.
  assert (Hfrom : forall a, In a agents -> made_from (nodes c) a).
  { intros a Ha.
    destruct (create_nodes_from_agents (nodes c) [] [] agents tools Hnodes a Ha)
      as [[] | Hmade]. exact Hmade. }
  split; [split |]; [| | split].
  - intros [first [rest [tools' [Hnodes' Huse]]]].
    rewrite Hnodes in Hnodes'. injection Hnodes' as -> ->.
    destruct rest as [| second rest]; [reflexivity |]. exfalso.
    destruct (setup_many c _ _ _ Hnodes ltac:(cbn; lia) Huse) as [_ Hanon].
    destruct (set_callback_handler_keeps top_level_callback_handler first) as [_ Hname].
    destruct (Hfrom first (or_introl eq_refl)) as [i [n [r [_ [_ [_ [_ Hnamed]]]]]]].
    rewrite Hname, Hnamed in Hanon. discriminate Hanon.
  - intros Hone. destruct agents as [| a [| b rest]]; try discriminate Hone.
    exists a, [], tools. split; [exact Hnodes | exact (setup_one c a tools Hnodes)].
  - intros a ->. eexists. split; [exact (setup_one c a tools Hnodes) |].
    split; [apply set_callback_handler_keeps | apply Hfrom; left; reflexivity].
  - intros Hmany o Ho. exact (proj1 (setup_many c agents tools o Hnodes Hmany Ho)).
Qed.

(** The set-up does not touch the conversation history. *)
Lemma setup_keeps_history (c : workflow_ctx) :
  conversation_history (fst (setup W c)) = conversation_history c.
Proof.
  unfold setup.
  destruct (create_nodes W c) as [[agents tools] | e]; [| reflexivity].
  destruct (1 <? List.length agents)%nat.
  - destruct (_create_orchestrator W _); reflexivity.
  - destruct agents; reflexivity.
Qed.

(** C10: when node materialisation yields no live agent, the set-up
    raises [IndexError] on the first element of the empty list; the worker
    ends without having put anything on the output queue, so the [STARTED]
    sentinel is never there and the caller's [get] finds nothing. *)
Theorem no_live_agent_never_starts
        (c : workflow_ctx) (tools : list (list tool)) (inbox : list string) :
  create_nodes W c = Ret ([], tools) ->
  snd (_processing_thread W c inbox) = Crashed IndexError
  /\ output_queue (fst (_processing_thread W c inbox)) = []
  /\ ~ In STARTED (output_queue (fst (_processing_thread W c inbox)))
  /\ queue_get (output_queue (fst (_processing_thread W c inbox))) = None.
Proof.
  intros Hnodes. unfold _processing_thread, setup. rewrite Hnodes. cbn.
  repeat split. intros [].
Qed.

End Setup.

Lemma single_live_agent_is_orchestrator_witness :
  uses_agent_directly Demo.world Demo.bare_agent.
Proof.
  apply (proj1 (single_live_agent_is_orchestrator Demo.world Demo.bare_agent
                  _ _ eq_refl)).
  reflexivity.
Defined.

(** C2 (as documented) fails: the graph input -> Summarizer -> output has
    two edges, and the worker still uses the Summarizer agent itself as
    orchestrator, with the agent's instruction text as system prompt. *)
Lemma bypass_with_edges :
  uses_agent_directly Demo.world Demo.summarizer_flow
  /\ (exists o, snd (setup Demo.world Demo.summarizer_flow) = Ret o
                /\ system_prompt o = Some "Summarize the text.")
  /\ ~ one_agent_node_and_no_edges Demo.summarizer_flow
  /\ ~ (uses_agent_directly Demo.world Demo.summarizer_flow
        <-> one_agent_node_and_no_edges Demo.summarizer_flow).
Proof.
  assert (Huse : uses_agent_directly Demo.world Demo.summarizer_flow).
  { eexists _, _, _. split; reflexivity. }
  assert (Hedges : ~ one_agent_node_and_no_edges Demo.summarizer_flow).
  { intros [_ Hnone]. discriminate Hnone. }
  repeat split; auto.
  - eexists. split; reflexivity.
  - intros [Hto _]. exact (Hedges (Hto Huse)).
Qed.

Lemma no_live_agent_never_starts_witness :
  create_nodes Demo.world Demo.no_agents = Ret ([], [])
  /\ snd (_processing_thread Demo.world Demo.no_agents ["hello"]) = Crashed IndexError
  /\ output_queue (fst (_processing_thread Demo.world Demo.no_agents ["hello"])) = []
  /\ create_nodes Demo.world Demo.dangling_agent = Ret ([], [])
  /\ snd (_processing_thread Demo.world Demo.dangling_agent ["hello"]) = Crashed IndexError.
Proof.
  split; [reflexivity |].
  pose proof (no_live_agent_never_starts Demo.world Demo.no_agents [] ["hello"] eq_refl)
    as [Hcrash [Hout _]].
  pose proof (no_live_agent_never_starts Demo.world Demo.dangling_agent [] ["hello"] eq_refl)
    as [Hcrash' _].
  repeat split; assumption || reflexivity.
Defined.

End SetupFacts.

(* ================================================================== *)
(** ** Reading back what [json.dumps] writes for a history             *)
(* ================================================================== *)

Module WireFacts.
Import Py Json WorkflowRunner Wire.

Lemma scan_escaped_char (c : ascii) :
  plain_char c = true ->
  forall text, scan_string (escape_char c ++ text) = push c (scan_string text).
Proof.
  destruct c as [[] [] [] [] [] [] [] []]; intros Hplain text;
    first [discriminate Hplain | reflexivity].
Qed.

Lemma scan_escaped (s : string) :
  plain s = true ->
  forall rest, scan_string (escape s ++ String quote rest) = Some (s, rest).
Proof.
  induction s as [| c s IH]; intros Hplain rest.
  - reflexivity.
  - unfold plain in Hplain. cbn [forall_chars] in Hplain.
    apply andb_prop in Hplain. destruct Hplain as [Hc Hs].
    cbn [escape]. rewrite PromptFacts.append_assoc, (scan_escaped_char c Hc).
    rewrite (IH Hs). reflexivity.
Qed.

Lemma dumps_str_append (s rest : string) :
  dumps_str s ++ rest = String quote (escape s ++ String quote rest).
Proof.
  unfold dumps_str. cbn [append]. rewrite PromptFacts.append_assoc. reflexivity.
Qed.

Lemma skip_ws_stops (c : ascii) (s : string) :
  is_json_ws c = false -> skip_ws (String c s) = String c s.
Proof. intros Hc. cbn [skip_ws]. rewrite Hc. reflexivity. Qed.

Lemma skip_ws_passes (c : ascii) (s : string) :
  is_json_ws c = true -> skip_ws (String c s) = skip_ws s.
Proof. intros Hc. cbn [skip_ws]. rewrite Hc. reflexivity. Qed.

Lemma skip_ws_dumps (s rest : string) :
  skip_ws (dumps_str s ++ rest) = dumps_str s ++ rest.
Proof. rewrite dumps_str_append. apply skip_ws_stops. reflexivity. Qed.

Lemma scan_value_string (n : nat) (text : string) :
  scan_value (S n) (String quote text)
  = match scan_string text with
    | Some (t, rest) => Some (VStr t, rest)
    | None => None
    end.
Proof. reflexivity. Qed.

Lemma scan_dumped_string (n : nat) (s rest : string) :
  plain s = true ->
  scan_value (S n) (dumps_str s ++ rest) = Some (VStr s, rest).
Proof.
  intros Hplain. rewrite dumps_str_append, scan_value_string, (scan_escaped s Hplain).
  reflexivity.
Qed.

Lemma scan_members_key (n : nat) (text : string) (acc : dict) :
  scan_members (S n) (String quote text) acc
  = match scan_string text with
    | Some (key, s1) =>
        match skip_ws s1 with
        | String ":" s2 =>
            match scan_value n (skip_ws s2) with
            | Some (v, s3) =>
                match skip_ws s3 with
                | String "}" rest => Some (VDict (setitem key v acc), rest)
                | String "," s4 => scan_members n (skip_ws s4) (setitem key v acc)
                | _ => None
                end
            | None => None
            end
        | _ => None
        end
    | None => None
    end.
Proof. reflexivity. Qed.

Lemma scan_member (n : nat) (k v text : string) (acc : dict) :
  plain k = true -> plain v = true ->
  scan_members (S (S n)) (dumps_str k ++ ": " ++ dumps_str v ++ text) acc
  = match skip_ws text with
    | String "}" rest => Some (VDict (setitem k (VStr v) acc), rest)
    | String "," s4 => scan_members (S n) (skip_ws s4) (setitem k (VStr v) acc)
    | _ => None
    end.
Proof.
  intros Hk Hv.
  rewrite dumps_str_append, scan_members_key, (scan_escaped k Hk).
  cbn [append].
  rewrite (skip_ws_stops ":") by reflexivity.
  cbv iota beta.
  rewrite (skip_ws_passes " ") by reflexivity.
  rewrite skip_ws_dumps, (scan_dumped_string n v text Hv). reflexivity.
Qed.

Lemma scan_member_next (n : nat) (k v k2 text : string) (acc : dict) :
  plain k = true -> plain v = true ->
  scan_members (S (S n))
               (dumps_str k ++ ": " ++ dumps_str v ++ ", " ++ dumps_str k2 ++ text) acc
  = scan_members (S n) (dumps_str k2 ++ text) (setitem k (VStr v) acc).
Proof.
  intros Hk Hv. rewrite (scan_member n k v _ acc Hk Hv).
  change (", " ++ dumps_str k2 ++ text)
    with (String "," (String " " (dumps_str k2 ++ text))).
  rewrite (skip_ws_stops ",") by reflexivity. cbv iota beta.
  rewrite (skip_ws_passes " ") by reflexivity.
  rewrite skip_ws_dumps. reflexivity.
Qed.

Lemma scan_member_last (n : nat) (k v rest : string) (acc : dict) :
  plain k = true -> plain v = true ->
  scan_members (S (S n)) (dumps_str k ++ ": " ++ dumps_str v ++ "}" ++ rest) acc
  = Some (VDict (setitem k (VStr v) acc), rest).
Proof.
  intros Hk Hv. rewrite (scan_member n k v _ acc Hk Hv). reflexivity.
Qed.

Lemma scan_object (n : nat) (k text : string) :
  scan_value (S n) ("{" ++ dumps_str k ++ text)
  = scan_members n (dumps_str k ++ text) [].
Proof. rewrite dumps_str_append. reflexivity. Qed.

(** One message, as the loop of [json.dumps] writes it. *)
Lemma message_text (m : message) :
  json_dumps (message_value m)
  = "{" ++ (dumps_str "role" ++ ": " ++ dumps_str (role m) ++ ", "
            ++ dumps_str "content" ++ ": " ++ dumps_str (content m) ++ ", "
            ++ dumps_str "timestamp" ++ ": " ++ dumps_str (timestamp m)) ++ "}".
Proof. reflexivity. Qed.

Lemma scan_message (n : nat) (m : message) (rest : string) :
  plain_message m = true ->
  scan_value (5 + n) (json_dumps (message_value m) ++ rest)
  = Some (message_value m, rest).
Proof.
  unfold plain_message. intros Hplain.
  apply andb_prop in Hplain. destruct Hplain as [Hplain Htime].
  apply andb_prop in Hplain. destruct Hplain as [Hrole Hcontent].
  rewrite message_text, !PromptFacts.append_assoc.
  change (5 + n) with (S (S (S (S (S n))))).
  rewrite scan_object.
  rewrite (scan_member_next (S (S n))) by (reflexivity || assumption).
  rewrite (scan_member_next (S n)) by (reflexivity || assumption).
  rewrite (scan_member_last n) by (reflexivity || assumption).
  reflexivity.
Qed.

Lemma json_dumps_list (l : list value) :
  json_dumps (VList l) = "[" ++ items_text l ++ "]".
Proof.
  reflexivity.
Qed.

Lemma scan_items_step (n : nat) (s : string) (acc : list value) :
  scan_items (S n) s acc
  = match scan_value n s with
    | Some (v, s1) =>
        match skip_ws s1 with
        | String "]" rest => Some (VList (acc ++ [v])%list, rest)
        | String "," s2 => scan_items n (skip_ws s2) (acc ++ [v])%list
        | _ => None
        end
    | None => None
    end.
Proof. reflexivity. Qed.

Lemma skip_ws_message (m : message) (text : string) :
  skip_ws (json_dumps (message_value m) ++ text)
  = json_dumps (message_value m) ++ text.
Proof. reflexivity. Qed.

Lemma items_head (m : message) (l : list message) (text : string) :
  exists tail,
    items_text (map message_value (m :: l)) ++ text
    = json_dumps (message_value m) ++ tail.
Proof.
  destruct l as [| m2 l].
  - exists text. reflexivity.
  - eexists. cbn [map items_text]. rewrite PromptFacts.append_assoc. reflexivity.
Qed.

Lemma scan_array (n : nat) (m : message) (text : string) :
  scan_value (S n) ("[" ++ json_dumps (message_value m) ++ text)
  = scan_items n (json_dumps (message_value m) ++ text) [].
Proof. reflexivity. Qed.

Lemma scan_history (l : list message) :
  forallb plain_message l = true ->
  l <> [] ->
  forall acc n rest,
    scan_items (List.length l + 5 + n)
               (items_text (map message_value l) ++ "]" ++ rest) acc
    = Some (VList (acc ++ map message_value l)%list, rest).
Proof.
  induction l as [| m l IH]; intros Hplain Hsome acc n rest; [contradiction |].
  cbn [forallb] in Hplain. apply andb_prop in Hplain. destruct Hplain as [Hm Hl].
  destruct l as [| m2 l].
  - cbn [map items_text length]. change (1 + 5 + n) with (S (5 + n)).
    rewrite scan_items_step, (scan_message n m _ Hm). reflexivity.
  - assert (Hnext : m2 :: l <> []) by discriminate.
    specialize (IH Hl Hnext).
    change (items_text (map message_value (m :: m2 :: l)))
      with (json_dumps (message_value m) ++ ", "
            ++ items_text (map message_value (m2 :: l))).
    rewrite !PromptFacts.append_assoc.
    replace (List.length (m :: m2 :: l) + 5 + n)
      with (S (5 + (List.length (m2 :: l) + n))) by (cbn [length]; lia).
    rewrite scan_items_step, (scan_message _ m _ Hm).
    change (", " ++ items_text (map message_value (m2 :: l)) ++ "]" ++ rest)
      with (String "," (String " " (items_text (map message_value (m2 :: l))
                                     ++ "]" ++ rest))).
    rewrite (skip_ws_stops ",") by reflexivity. cbv iota beta.
    rewrite (skip_ws_passes " ") by reflexivity.
    destruct (items_head m2 l ("]" ++ rest)) as [tail Htail].
    rewrite Htail, skip_ws_message, <- Htail.
    replace (5 + (List.length (m2 :: l) + n))
      with (List.length (m2 :: l) + 5 + n) by lia.
    rewrite IH, <- app_assoc. reflexivity.
Qed.

Lemma length_append (a b : string) :
  String.length (a ++ b) = String.length a + String.length b.
Proof.
  induction a as [| c a IH]; [reflexivity |].
  cbn [append String.length]. rewrite IH. reflexivity.
Qed.

Lemma message_text_length (m : message) :
  3 <= String.length (json_dumps (message_value m)).
Proof.
  rewrite message_text. cbn [append String.length].
  rewrite !length_append. cbn [String.length]. lia.
Qed.

Lemma items_text_length (l : list message) :
  3 * List.length l <= String.length (items_text (map message_value l)).
Proof.
  induction l as [| m l IH]; [apply le_n |].
  pose proof (message_text_length m) as Hm.
  destruct l as [| m2 l].
  - cbn [map items_text length]. lia.
  - change (items_text (map message_value (m :: m2 :: l)))
      with (json_dumps (message_value m) ++ ", "
            ++ items_text (map message_value (m2 :: l))).
    rewrite !length_append. cbn [length] in *. lia.
Qed.

(** What is read back from the serialised history: the list of its
    entries, each a mapping with the role, the content and the timestamp. *)
Lemma history_reads_back (h : list message) :
  forallb plain_message h = true ->
  json_loads (history_json h) = Ret (VList (map message_value h)).
Proof.
  intros Hplain. destruct h as [| m h]; [reflexivity |].
  assert (Hsome : m :: h <> []) by discriminate.
  unfold history_json, json_loads. rewrite json_dumps_list.
  set (items := items_text (map message_value (m :: h))).
  assert (Hlen : 3 * List.length (m :: h) <= String.length items)
    by apply items_text_length.
  change (skip_ws ("[" ++ items ++ "]")) with ("[" ++ items ++ "]").
  replace (2 + String.length ("[" ++ items ++ "]"))
    with (S (List.length (m :: h) + 5
             + (String.length items - List.length (m :: h) - 2)))
    by (cbn [append String.length]; rewrite length_append;
        cbn [String.length length] in *; lia).
  destruct (items_head m h "]") as [tail Htail]. fold items in Htail.
  rewrite Htail, scan_array, <- Htail.
  change (items ++ "]") with (items ++ "]" ++ "").
  unfold items. rewrite (scan_history (m :: h) Hplain Hsome). reflexivity.
Qed.

End WireFacts.

(* ================================================================== *)
(** ** Properties of the message loop                                  *)
(* ================================================================== *)

Module LoopFacts.
Import Py WorkflowRunner Documented.

Lemma frame_is_data (event : dict) : String.prefix "data: " (frame event) = true.
Proof. unfold frame. apply PromptFacts.prefix_append. Qed.

Lemma handler_puts_data (h : callback) (event : dict) (text : string) :
  call_handler h event = Ret (Some text) -> String.prefix "data: " text = true.
Proof.
  destruct h; cbn [call_handler].
  - discriminate.
  - unfold top_level. destruct (has_key "delta" event); [| discriminate].
    intros Hput. injection Hput as <-. apply frame_is_data.
  - unfold agent_level. destruct (has_key "delta" event); [| discriminate].
    destruct (py_in "text" _) as [[|] | e]; cbn [bind]; try discriminate.
    + destruct (getitem _ "text") as [text' | e]; cbn [bind]; [| discriminate].
      intros Hput. injection Hput as <-. apply frame_is_data.
    + intros Hput. injection Hput as <-. apply frame_is_data.
Qed.

Lemma run_callbacks_put_data (o : StrandsAgent) (agents : list StrandsAgent)
      (events : list (emitter * dict)) :
  Forall (fun text => String.prefix "data: " text = true)
         (fst (run_callbacks o agents events)).
Proof.
  induction events as [| [who event] events IH]; cbn [run_callbacks fst].
  - constructor.
  - destruct (call_handler (handler_of o agents who) event) as [put | e] eqn:Hcall;
      [| constructor].
    destruct (run_callbacks o agents events) as [puts failure]. cbn [fst] in *.
    destruct put as [text |]; [| exact IH].
    constructor; [exact (handler_puts_data _ _ _ Hcall) | exact IH].
Qed.

Lemma data_is_not_answered (puts : list string) :
  Forall (fun text => String.prefix "data: " text = true) puts ->
  count_occ string_dec puts ANSWERED = 0 /\ ~ In ANSWERED puts.
Proof.
  intros Hdata.
  assert (Hnot : ~ In ANSWERED puts).
  { intros Hin. rewrite Forall_forall in Hdata. specialize (Hdata _ Hin).
    discriminate Hdata. }
  split; [apply count_occ_not_In; exact Hnot | exact Hnot].
Qed.

Section Loop.
Variable W : World.

Lemma orchestrator_call_puts_data (o : StrandsAgent) (agents : list StrandsAgent)
      (earlier : list string) (message : string) :
  Forall (fun text => String.prefix "data: " text = true)
         (fst (orchestrator_call W o agents earlier message)).
Proof.
  unfold orchestrator_call.
  destruct (invoke W o earlier message) as [events answer].
  pose proof (run_callbacks_put_data o agents events) as Hdata.
  destruct (run_callbacks o agents events) as [puts failure]. exact Hdata.
Qed.


Lemma handle_appends (o : StrandsAgent) (w : worker) (message : string) :
  exists later,
    output_queue (fst (handle W o w message)) = (output_queue w ++ later)%list.
Proof.
  unfold handle.
  destruct (String.eqb message TERMINATE).
  - exists []. cbn. symmetry. apply app_nil_r.
  - destruct (String.eqb message RETRIEVE).
    + eexists. reflexivity.
    + cbn [context calls with_history agents].
      destruct (orchestrator_call W o _ _ message) as [puts [answer | e]].
      * exists (puts ++ [ANSWERED])%list. cbn. rewrite <- app_assoc. reflexivity.
      * exists puts. reflexivity.
Qed.

Lemma loop_appends (o : StrandsAgent) (inbox : list string) :
  forall w, exists later,
    output_queue (fst (loop W o w inbox)) = (output_queue w ++ later)%list.
Proof.
  induction inbox as [| message rest IH]; intros w; cbn [loop].
  - exists []. cbn. symmetry. apply app_nil_r.
  - destruct (handle_appends o w message) as [l1 H1].
    destruct (handle W o w message) as [w' [| |]].
    + cbn [fst] in H1. destruct (IH w') as [l2 H2].
      exists (l1 ++ l2)%list. rewrite H2, H1, app_assoc. reflexivity.
    + exists l1. exact H1.
    + exists l1. exact H1.
Qed.

(** A context comes out of either loader with an empty history. *)
Lemma loaded_history_is_empty (key : string) (db : Models.db_session) (c : workflow_ctx) :
  load_workflow key db = Ret c \/ load_agent key db = Ret c ->
  conversation_history c = Some [].
Proof.
  unfold load_workflow, load_agent. intros [Hloaded | Hloaded].
  - destruct (get_row Models.Workflow_id _ key); [| discriminate].
    injection Hloaded as <-. reflexivity.
  - destruct (get_row Models.Agent_id _ key); [| discriminate].
    injection Hloaded as <-. reflexivity.
Qed.

(** C9: on [RETRIEVE] the worker puts one message, the [HISTORY] marker
    followed by the serialised history, and changes nothing else: the
    context, hence the history, the clock and the list of orchestrator calls
    are the same, and the worker waits for the next message.  The payload is
    what [json.dumps] writes for the list of the entries of the history, each
    a mapping with the keys [role], [content] and [timestamp] in this order;
    when the texts of the history hold only characters that are written
    without a [\u] escape, [json.loads] reads exactly that list back from
    the payload, so the payload determines the history.  Sent first to a
    worker whose context came from [load_workflow] or [load_agent], the
    message is the marker followed by the empty list. *)
Theorem retrieve_sends_history (o : StrandsAgent) (w : worker) :
  let history :=
    match conversation_history (context w) with Some h => h | None => [] end in
  let entries :=
    VList (map (fun m => VDict [("role", VStr (role m));
                                ("content", VStr (content m));
                                ("timestamp", VStr (timestamp m))]) history) in
  handle W o w RETRIEVE
  = ({| context := context w;
        output_queue :=
          (output_queue w ++ [(HISTORY ++ Json.json_dumps entries)%string])%list;
        clock := clock w;
        calls := calls w |}, Waiting)
  /\ (forallb Wire.plain_message history = true ->
      Json.json_loads (Json.json_dumps entries) = Ret entries)
  /\ (forall key db c started rest,
         load_workflow key db = Ret c \/ load_agent key db = Ret c ->
         snd (setup W c) = Ret started ->
         exists later,
           output_queue (fst (_processing_thread W c (RETRIEVE :: rest)))
           = STARTED :: "_Q_E_E_HISTORY[]" :: later).
Proof.
  intros history entries.
  split; [reflexivity |].
  split; [exact (WireFacts.history_reads_back history) |].
  intros key db c started rest Hloaded Hsetup.
  pose proof (loaded_history_is_empty key db c Hloaded) as Hempty.
  unfold _processing_thread.
  pose proof (SetupFacts.setup_keeps_history W c) as Hkeep.
  destruct (setup W c) as [c' outcome]. cbn [snd fst] in *. subst outcome.
  cbn [loop handle]. unfold handle. cbn [String.eqb].
  change (String.eqb RETRIEVE TERMINATE) with false.
  change (String.eqb RETRIEVE RETRIEVE) with true. cbn [context output_queue].
  rewrite Hkeep, Hempty.
  match goal with
  | |- context [loop W started ?w1 rest] =>
      destruct (loop_appends started rest w1) as [later Hlater]; rewrite Hlater
  end.
  exists later. reflexivity.
Qed.

End Loop.



Lemma retrieve_sends_history_witness :
  (exists later,
      output_queue (fst (_processing_thread Demo.world Demo.summarizer_flow
                           [RETRIEVE; "hello"]))
      = STARTED :: "_Q_E_E_HISTORY[]" :: later)
  /\ exists payload,
       output_queue (fst (handle Demo.world Demo.summarizer Sessions.answered RETRIEVE))
       = [(HISTORY ++ payload)%string]
       /\ Json.json_loads payload
          = Ret (VList
                   [VDict [("role", VStr "user"); ("content", VStr "hello");
                           ("timestamp",
                            VStr (Demo.q ++ "2025-01-01 00:00:00+00:00" ++ Demo.q))];
                    VDict [("role", VStr "assistant"); ("content", VStr "echo hello");
                           ("timestamp",
                            VStr (Demo.q ++ "2025-01-01 00:00:01+00:00" ++ Demo.q))]])
       /\ String.prefix
            ("[{" ++ Demo.q ++ "role" ++ Demo.q ++ ": " ++ Demo.q ++ "user" ++ Demo.q
             ++ ", " ++ Demo.q ++ "content" ++ Demo.q ++ ": " ++ Demo.q ++ "hello"
             ++ Demo.q ++ ", " ++ Demo.q ++ "timestamp" ++ Demo.q ++ ": ")
            payload = true.
Proof.
  split.
  - exact (proj2 (proj2 (retrieve_sends_history Demo.world Demo.summarizer Demo.ready))
                 "w-1" Demo.store Demo.summarizer_flow Demo.summarizer ["hello"]
                 (or_introl eq_refl) eq_refl).
  - eexists. split; [| split].
    + rewrite (proj1 (retrieve_sends_history Demo.world Demo.summarizer
                        Sessions.answered)).
      reflexivity.
    + exact (proj1 (proj2 (retrieve_sends_history Demo.world Demo.summarizer
                             Sessions.answered)) eq_refl).
    + reflexivity.
Defined.

End LoopFacts.

(* ================================================================== *)
(** ** Properties of whole runs of the worker                          *)
(* ================================================================== *)

Module RunFacts.
Import Py WorkflowRunner Run.

Lemma history_marker_is_not_answered (payload : string) : HISTORY ++ payload <> ANSWERED.
Proof. cbn. intros Heq. discriminate Heq. Qed.

Lemma filter_last {A} (p : A -> bool) (l : list A) (x : A) :
  filter p (l ++ [x])%list = (filter p l ++ (if p x then [x] else []))%list.
Proof. rewrite filter_app. reflexivity. Qed.

Section Runs.
Variable W : World.

(** The two outcomes of an ordinary message, as one equation. *)
Lemma handle_ordinary (o : StrandsAgent) (w : worker) (message : string) :
  message <> TERMINATE -> message <> RETRIEVE ->
  handle W o w message
  = let asked := (history_of w
                  ++ [{| role := "user"; content := message;
                         timestamp := timestamp_at W (clock w) |}])%list in
    match orchestrator_call W o (agents (context w)) (calls w) message with
    | (puts, Ret answer) =>
        ({| context :=
              with_history (context w)
                (Some (asked ++ [{| role := "assistant"; content := answer;
                                    timestamp := timestamp_at W (S (clock w)) |}])%list);
            output_queue := ((output_queue w ++ puts) ++ [ANSWERED])%list;
            clock := S (S (clock w));
            calls := (calls w ++ [message])%list |}, Waiting)
    | (puts, Raise e) =>
        ({| context := with_history (context w) (Some asked);
            output_queue := (output_queue w ++ puts)%list;
            clock := S (clock w);
            calls := (calls w ++ [message])%list |}, Crashed e)
    end.
Proof.
  intros Hterm Hretr.
  apply String.eqb_neq in Hterm. apply String.eqb_neq in Hretr.
  unfold handle, history_of. rewrite Hterm, Hretr.
  cbn [context calls with_history agents].
  destruct (orchestrator_call W o (agents (context w)) (calls w) message)
    as [puts [answer | e]]; reflexivity.
Qed.

Lemma handle_retrieve (o : StrandsAgent) (w : worker) :
  handle W o w RETRIEVE
  = ({| context := context w;
        output_queue := (output_queue w ++ [(HISTORY ++ history_json (history_of w))%string])%list;
        clock := clock w; calls := calls w |}, Waiting).
Proof. reflexivity. Qed.

(** The three kinds of message, for case analysis. *)
Lemma message_kind (message : string) :
  message = TERMINATE \/ message = RETRIEVE
  \/ (message <> TERMINATE /\ message <> RETRIEVE).
Proof.
  destruct (String.eqb_spec message TERMINATE) as [-> | Hterm]; [left; reflexivity |].
  destruct (String.eqb_spec message RETRIEVE) as [-> | Hretr]; [right; left; reflexivity |].
  right; right. split; assumption.
Qed.

Lemma ordinary_cons (message : string) (rest : list string) :
  message <> TERMINATE -> message <> RETRIEVE ->
  ordinary (message :: rest) = message :: ordinary rest.
Proof.
  intros Hterm Hretr.
  apply String.eqb_neq in Hterm. apply String.eqb_neq in Hretr.
  cbn [ordinary]. rewrite Hterm, Hretr. reflexivity.
Qed.

Lemma handle_puts_replies (o : StrandsAgent) (w : worker) (message : string) :
  exists later,
    output_queue (fst (handle W o w message)) = (output_queue w ++ later)%list
    /\ Forall (fun text => is_reply text = true) later.
Proof.
  destruct (message_kind message) as [-> | [-> | [Hterm Hretr]]].
  - exists []. split; [symmetry; apply app_nil_r | constructor].
  - rewrite handle_retrieve. eexists. split; [reflexivity |].
    constructor; [reflexivity | constructor].
  - rewrite (handle_ordinary o w message Hterm Hretr). cbv zeta.
    pose proof (LoopFacts.orchestrator_call_puts_data W o (agents (context w))
                  (calls w) message) as Hdata.
    destruct (orchestrator_call W o (agents (context w)) (calls w) message)
      as [puts outcome]. cbn [fst] in Hdata.
    assert (Hreplies : Forall (fun text => is_reply text = true) puts).
    { eapply Forall_impl; [| exact Hdata]. intros text Hpre.
      unfold is_reply. rewrite Hpre. reflexivity. }
    destruct outcome as [answer | e]; cbn [fst output_queue].
    + exists (puts ++ [ANSWERED])%list. split; [symmetry; apply app_assoc |].
      apply Forall_app. split; [exact Hreplies |].
      constructor; [reflexivity | constructor].
    + exists puts. split; [reflexivity | exact Hreplies].
Qed.

Lemma loop_puts_replies (o : StrandsAgent) (inbox : list string) :
  forall w, exists later,
    output_queue (fst (loop W o w inbox)) = (output_queue w ++ later)%list
    /\ Forall (fun text => is_reply text = true) later.
Proof.
  induction inbox as [| message rest IH]; intros w; cbn [loop].
  - exists []. split; [symmetry; apply app_nil_r | constructor].
  - destruct (handle_puts_replies o w message) as [l1 [H1 R1]].
    destruct (handle W o w message) as [w' [| |]]; cbn [fst] in H1.
    + destruct (IH w') as [l2 [H2 R2]].
      exists (l1 ++ l2)%list. split.
      * rewrite H2, H1, app_assoc. reflexivity.
      * apply Forall_app. split; assumption.
    + exists l1. split; assumption.
    + exists l1. split; assumption.
Qed.

(** X1: the worker puts [STARTED] on the output queue exactly when its
    set-up succeeds; it is then the first message and never appears again,
    whatever messages follow.  When the set-up raises, nothing at all is
    put. *)
Theorem started_once_iff_setup_succeeds (c : workflow_ctx) (inbox : list string) :
  (forall o, snd (setup W c) = Ret o ->
             hd_error (output_queue (fst (_processing_thread W c inbox))) = Some STARTED
             /\ count_occ string_dec
                  (output_queue (fst (_processing_thread W c inbox))) STARTED = 1)
  /\ (forall e, snd (setup W c) = Raise e ->
                output_queue (fst (_processing_thread W c inbox)) = []
                /\ snd (_processing_thread W c inbox) = Crashed e).
Proof.
  unfold _processing_thread. destruct (setup W c) as [c' outcome]. cbn [snd].
  split.
  - intros o ->.
    match goal with
    | |- context [loop W o ?w0 inbox] =>
        destruct (loop_puts_replies o inbox w0) as [later [Hout Hreplies]]
    end.
    rewrite Hout. cbn [output_queue app hd_error]. split; [reflexivity |].
    cbn [count_occ]. destruct (string_dec STARTED STARTED) as [_ | Hne]; [| contradiction].
    f_equal. apply count_occ_not_In. intros Hin.
    rewrite Forall_forall in Hreplies. specialize (Hreplies _ Hin).
    discriminate Hreplies.
  - intros e ->. split; reflexivity.
Qed.

(** X2: messages queued behind [TERMINATE] are never processed: the run
    is the same as if the inbox ended with that [TERMINATE], and the worker
    is not left waiting for input. *)
Theorem nothing_runs_after_terminate (o : StrandsAgent) (w : worker)
        (before after : list string) :
  loop W o w (before ++ TERMINATE :: after) = loop W o w (before ++ [TERMINATE])
  /\ snd (loop W o w (before ++ TERMINATE :: after)) <> Waiting.
Proof.
  revert w. induction before as [| message rest IH]; intros w.
  - cbn. split; [reflexivity | discriminate].
  - cbn [app loop].
    destruct (handle W o w message) as [w' [| |]].
    + apply IH.
    + split; [reflexivity | discriminate].
    + split; [reflexivity | discriminate].
Qed.

Lemma questions_last (h : list message) (m : message) :
  questions (h ++ [m]) = (questions h ++ (if String.eqb (role m) "user" then [content m] else []))%list.
Proof. unfold questions. rewrite filter_last, map_app. destruct (String.eqb (role m) "user"); reflexivity. Qed.

Lemma answers_last (h : list message) (m : message) :
  answers (h ++ [m]) = (answers h ++ (if String.eqb (role m) "assistant" then [content m] else []))%list.
Proof. unfold answers. rewrite filter_last, map_app. destruct (String.eqb (role m) "assistant"); reflexivity. Qed.

Lemma history_of_set (c : workflow_ctx) (h : list message) (out : list string)
      (k : nat) (l : list string) :
  history_of {| context := with_history c (Some h); output_queue := out;
                clock := k; calls := l |} = h.
Proof. reflexivity. Qed.

Lemma handle_keeps_questions (o : StrandsAgent) (w : worker) (message : string) :
  questions (history_of w) = calls w ->
  questions (history_of (fst (handle W o w message)))
  = calls (fst (handle W o w message)).
Proof.
  intros Hinv.
  destruct (message_kind message) as [-> | [-> | [Hterm Hretr]]].
  - exact Hinv.
  - rewrite handle_retrieve. exact Hinv.
  - rewrite (handle_ordinary o w message Hterm Hretr). cbv zeta.
    destruct (orchestrator_call W o (agents (context w)) (calls w) message)
      as [puts [answer | e]]; cbn [fst calls]; rewrite history_of_set.
    + rewrite !questions_last. cbn [role content String.eqb Ascii.eqb Bool.eqb].
      rewrite app_nil_r, Hinv. reflexivity.
    + rewrite questions_last. cbn [role content String.eqb Ascii.eqb Bool.eqb].
      rewrite Hinv. reflexivity.
Qed.

(** X3: the [user] entries of the history are exactly the messages passed
    to the orchestrator, in order: once this holds it holds after any run of
    the loop, also one that ends in a crash.  No message is recorded without
    being sent on, sent on without being recorded, recorded twice or
    reordered. *)
Theorem user_entries_are_the_calls (o : StrandsAgent) (inbox : list string)
        (w : worker) :
  questions (history_of w) = calls w ->
  questions (history_of (fst (loop W o w inbox))) = calls (fst (loop W o w inbox)).
Proof.
  revert w. induction inbox as [| message rest IH]; intros w Hinv; cbn [loop].
  - exact Hinv.
  - pose proof (handle_keeps_questions o w message Hinv) as Hstep.
    destruct (handle W o w message) as [w' [| |]]; cbn [fst] in *.
    + apply IH. exact Hstep.
    + exact Hstep.
    + exact Hstep.
Qed.

(** X4: in a run that does not crash, the orchestrator is called once
    for every message before the first [TERMINATE] that is not [RETRIEVE],
    with that message and in that order; each call adds one [ANSWERED] to the
    output queue and one [assistant] entry to the history, and takes two
    readings of the clock. *)
Theorem one_turn_per_ordinary_message (o : StrandsAgent) (inbox : list string)
        (w : worker) :
  (forall e, snd (loop W o w inbox) <> Crashed e) ->
  calls (fst (loop W o w inbox)) = (calls w ++ ordinary inbox)%list
  /\ count_occ string_dec (output_queue (fst (loop W o w inbox))) ANSWERED
     = count_occ string_dec (output_queue w) ANSWERED + List.length (ordinary inbox)
  /\ List.length (answers (history_of (fst (loop W o w inbox))))
     = List.length (answers (history_of w)) + List.length (ordinary inbox)
  /\ clock (fst (loop W o w inbox)) = clock w + 2 * List.length (ordinary inbox).
Proof.
  revert w. induction inbox as [| message rest IH]; intros w Hfine.
  - cbn. rewrite app_nil_r. repeat split; lia.
  - destruct (message_kind message) as [-> | [-> | [Hterm Hretr]]].
    + cbn. rewrite app_nil_r. repeat split; lia.
    + cbn [loop] in *. rewrite handle_retrieve in *.
      destruct (IH _ Hfine) as [Hcalls [Hcount [Hanswers Hclock]]].
      change (ordinary (RETRIEVE :: rest)) with (ordinary rest).
      rewrite Hcalls, Hcount, Hanswers, Hclock. cbn [calls output_queue clock].
      rewrite count_occ_app. cbn [count_occ].
      destruct (string_dec _ ANSWERED) as [Heq | _];
        [exfalso; exact (history_marker_is_not_answered _ Heq) |].
      repeat split; try lia.
    + rewrite (ordinary_cons message rest Hterm Hretr).
      cbn [loop] in *. rewrite (handle_ordinary o w message Hterm Hretr) in *.
      cbv zeta in *.
      pose proof (LoopFacts.orchestrator_call_puts_data W o (agents (context w))
                    (calls w) message) as Hdata.
      destruct (orchestrator_call W o (agents (context w)) (calls w) message)
        as [puts [answer | e]]; cbn [fst] in Hdata.
      * destruct (IH _ Hfine) as [Hcalls [Hcount [Hanswers Hclock]]].
        destruct (LoopFacts.data_is_not_answered puts Hdata) as [Hnone _].
        rewrite Hcalls, Hcount, Hanswers, Hclock. cbn [calls output_queue clock length].
        rewrite <- app_assoc. split; [reflexivity |].
        rewrite !count_occ_app, Hnone. cbn [count_occ].
        destruct (string_dec ANSWERED ANSWERED) as [_ | Hne]; [| contradiction].
        split; [lia |]. split; [| lia].
        rewrite history_of_set, !answers_last.
        cbn [role content String.eqb Ascii.eqb Bool.eqb].
        rewrite app_nil_r, length_app. cbn [length]. lia.
      * exfalso. exact (Hfine e eq_refl).
Qed.

Lemma handle_ignores_output (o : StrandsAgent) (a b : worker) (message : string) :
  same_but_output a b ->
  same_but_output (fst (handle W o a message)) (fst (handle W o b message))
  /\ snd (handle W o a message) = snd (handle W o b message).
Proof.
  destruct a as [ca oa ka la], b as [cb ob kb lb].
  unfold same_but_output. cbn [context clock calls]. intros [-> [-> ->]].
  unfold handle.
  destruct (String.eqb message TERMINATE); [cbn; auto |].
  destruct (String.eqb message RETRIEVE); [cbn; auto |].
  cbn [context calls clock output_queue with_history agents].
  destruct (orchestrator_call W o (agents cb) lb message) as [puts [answer | e]];
    cbn; auto.
Qed.

(** X5: asking for the history never influences the conversation: with
    the [RETRIEVE] messages removed from the inbox the run ends in the same
    status with the same context (hence the same history), the same clock and
    the same orchestrator calls; only the output queue differs. *)
Theorem retrieve_is_transparent (o : StrandsAgent) (inbox : list string) (w : worker) :
  let asked := loop W o w inbox in
  let unasked := loop W o w (filter (fun m => negb (String.eqb m RETRIEVE)) inbox) in
  same_but_output (fst asked) (fst unasked) /\ snd asked = snd unasked.
Proof.
  cbv zeta.
  assert (Hgen : forall a b, same_but_output a b ->
            same_but_output (fst (loop W o a inbox))
              (fst (loop W o b (filter (fun m => negb (String.eqb m RETRIEVE)) inbox)))
            /\ snd (loop W o a inbox)
               = snd (loop W o b (filter (fun m => negb (String.eqb m RETRIEVE)) inbox))).
  { induction inbox as [| message rest IH]; intros a b Hsame.
    - cbn. auto.
    - cbn [filter]. destruct (String.eqb_spec message RETRIEVE) as [-> | Hretr].
      + cbn [negb loop]. rewrite handle_retrieve. apply IH.
        destruct Hsame as [Hc [Hk Hl]]. repeat split; assumption.
      + cbn [negb loop].
        destruct (handle_ignores_output o a b message Hsame) as [Hnext Hstatus].
        destruct (handle W o a message) as [a' sa], (handle W o b message) as [b' sb].
        cbn [fst snd] in *. subst sb.
        destruct sa; [apply IH; exact Hnext | auto | auto]. }
  apply Hgen. repeat split.
Qed.

End Runs.

Lemma one_turn_per_ordinary_message_witness :
  let run := loop Demo.world Demo.summarizer Demo.ready
                  ["one"; RETRIEVE; "two"; TERMINATE; "three"] in
  snd run = Exited
  /\ calls (fst run) = ["one"; "two"]
  /\ count_occ string_dec (output_queue (fst run)) ANSWERED = 2.
Proof.
  cbv zeta.
  assert (Hfine : forall e,
             snd (loop Demo.world Demo.summarizer Demo.ready
                       ["one"; RETRIEVE; "two"; TERMINATE; "three"]) <> Crashed e)
    by (intros e; vm_compute; discriminate).
  destruct (one_turn_per_ordinary_message Demo.world Demo.summarizer _ _ Hfine)
    as [Hcalls [Hcount _]].
  split; [reflexivity |]. split; [exact Hcalls | exact Hcount].
Defined.

Lemma user_entries_are_the_calls_witness :
  questions (history_of (fst (loop Demo.world Demo.summarizer Demo.ready ["one"; "two"])))
  = ["one"; "two"].
Proof.
  exact (user_entries_are_the_calls Demo.world Demo.summarizer ["one"; "two"]
           Demo.ready eq_refl).
Defined.

End RunFacts.

(* ================================================================== *)
(** ** Properties of node materialisation                              *)
(* ================================================================== *)

Module PartsFacts.
Import Py Re McpHelpers WorkflowRunner Documented Parts.

Lemma replace_class_from (fuel : nat) (s : string) :
  String.length s < fuel ->
  sub_from fuel (Cls (fun c => negb (allowed_in_name c))) [Text "_"] s
  = replace_outside s.
Proof.
  revert s. induction fuel as [| fuel IH]; intros s Hfuel; [lia |].
  destruct s as [| c s']; [reflexivity |].
  cbn [String.length] in Hfuel.
  cbn [sub_from]. unfold match_at. cbn [run replace_outside].
  destruct (allowed_in_name c); cbn [negb].
  - rewrite (IH s') by lia. reflexivity.
  - assert (Hlt : (String.length s' <? String.length (String c s'))%nat = true)
      by (apply Nat.ltb_lt; cbn; lia).
    rewrite Hlt. cbn [expand group append]. rewrite (IH s') by lia. reflexivity.
Qed.

Lemma replace_outside_length (s : string) :
  String.length (replace_outside s) = String.length s.
Proof. induction s as [| c s IH]; cbn; [reflexivity | f_equal; exact IH]. Qed.

Lemma allowed_underscore : allowed_in_name "_" = true.
Proof. reflexivity. Qed.

Lemma replace_outside_allowed (s : string) :
  forall_chars allowed_in_name (replace_outside s) = true.
Proof.
  induction s as [| c s IH]; [reflexivity |].
  cbn [replace_outside forall_chars]. rewrite IH, andb_true_r.
  destruct (allowed_in_name c) eqn:Hc; [exact Hc | reflexivity].
Qed.

Lemma replace_outside_fixed (s : string) :
  forall_chars allowed_in_name s = true -> replace_outside s = s.
Proof.
  induction s as [| c s IH]; [reflexivity |].
  cbn [replace_outside forall_chars]. intros Hall.
  apply andb_true_iff in Hall. destruct Hall as [Hc Hs].
  rewrite Hc, (IH Hs). reflexivity.
Qed.

(** X6: the name of the capability that wraps an agent is the agent's
    name with every character outside letters, digits, underscore and hyphen
    replaced by an underscore: it has the length of the name, holds only
    allowed characters, and is the name itself when that holds only allowed
    characters.  An agent without name cannot be wrapped. *)
Theorem wrapper_name_is_sanitized (agent : StrandsAgent) :
  match __agent_name agent with
  | None => wrap_agent agent = Raise AttributeError
  | Some agent_name =>
      exists doc,
        wrap_agent agent = Ret (agent_wrapper (replace_outside agent_name) doc agent)
        /\ String.length (replace_outside agent_name) = String.length agent_name
        /\ forall_chars allowed_in_name (replace_outside agent_name) = true
        /\ (forall_chars allowed_in_name agent_name = true ->
            replace_outside agent_name = agent_name)
        /\ replace_outside (replace_outside agent_name) = replace_outside agent_name
  end.
Proof.
  unfold wrap_agent. destruct (__agent_name agent) as [agent_name |]; [| reflexivity].
  eexists. split.
  - unfold sub. change outside_identifier with (Cls (fun c => negb (allowed_in_name c))).
    rewrite replace_class_from by lia. reflexivity.
  - split; [apply replace_outside_length |].
    split; [apply replace_outside_allowed |].
    split; [apply replace_outside_fixed |].
    apply replace_outside_fixed, replace_outside_allowed.
Qed.

Section Materialise.
Variable W : World.

Lemma factory_returns (td : tool_data) :
  exists r, _create_tool_instance_from_data W td = Ret r.
Proof.
  unfold _create_tool_instance_from_data.
  destruct (String.eqb (tool_type td) "builtin").
  - destruct (lookup _ tool_mapping); eexists; reflexivity.
  - destruct (String.eqb (tool_type td) "mcp").
    + destruct (mcp_tools W (parsed_config W td)) as [r | e]; eexists; reflexivity.
    + destruct (String.eqb (tool_type td) "agent" && _); eexists; reflexivity.
Qed.

(** X7: the capability factory never raises, whatever the parser, the
    tool server and the record are; and the tool list of an agent is the
    concatenation, in the order of its tool records, of what the factory
    gives for each record, a record that gives [None] adding nothing. *)
Theorem factory_failures_stay_local (td : tool_data) (node : node_data) :
  (exists r, _create_tool_instance_from_data W td = Ret r)
  /\ (forall a r,
         create_agent W node = Some a ->
         node_reference node = Some (AgentRef r) ->
         tools a = flat_map (instances W) (agent_tools r)).
Proof.
  split; [apply factory_returns |].
  intros a r Hmade Href. unfold create_agent, StrandsAgent_new in Hmade.
  rewrite Href in Hmade.
  destruct (StrandsAgent_init W _ _ _); [discriminate |].
  injection Hmade as <-. cbn [tools]. apply (FactoryFacts.collect_tools_concat W _ []).
Qed.

Lemma wrap_agents_named (agents : list StrandsAgent) :
  Forall (fun a => exists n, __agent_name a = Some n) agents ->
  exists wrapped,
    wrap_agents agents = Ret wrapped
    /\ Forall2 (fun a t => exists n d, t = agent_wrapper n d a) agents wrapped.
Proof.
  induction 1 as [| a rest [n Hn] _ [wrapped [Hrest Hall]]].
  - exists []. split; [reflexivity | constructor].
  - cbn [wrap_agents]. unfold wrap_agent at 1. rewrite Hn. cbn [bind].
    rewrite Hrest. cbn [bind]. eexists. split; [reflexivity |].
    constructor; [eexists _, _; reflexivity | exact Hall].
Qed.

Lemma wrap_agents_shape (agents : list StrandsAgent) (wrapped : list tool) :
  wrap_agents agents = Ret wrapped ->
  Forall2 (fun a t => exists n d, t = agent_wrapper n d a) agents wrapped.
Proof.
  revert wrapped. induction agents as [| a rest IH]; intros wrapped Hwrap.
  - cbn in Hwrap. injection Hwrap as <-. constructor.
  - cbn [wrap_agents] in Hwrap. unfold wrap_agent at 1 in Hwrap.
    destruct (__agent_name a) as [n |]; [| discriminate]. cbn [bind] in Hwrap.
    destruct (wrap_agents rest) as [wr | e]; [| discriminate]. cbn [bind] in Hwrap.
    injection Hwrap as <-. constructor; [eexists _, _; reflexivity | apply IH; reflexivity].
Qed.

(** X9: when the orchestrator is synthesised, its capability list is one
    wrapper per agent of the context, in order and each around that agent,
    followed by the directly declared tools: as many capabilities as there
    are agents plus tools, none substituted and none dropped. *)
Theorem orchestrator_capabilities (c : workflow_ctx) (o : StrandsAgent) :
  _create_orchestrator W c = Ret o ->
  exists wrapped,
    tools o = (wrapped ++ concat (ctx_tools c))%list
    /\ Forall2 (fun a t => exists n d, t = agent_wrapper n d a) (agents c) wrapped
    /\ List.length (tools o)
       = List.length (agents c) + List.length (concat (ctx_tools c)).
Proof.
  unfold _create_orchestrator, StrandsAgent_new.
  destruct (wrap_agents (agents c)) as [wrapped | e] eqn:Hwrap; [| discriminate].
  cbn [bind].
  destruct (match model_id c with Some m => _ | None => _ end) as [m | e];
    [| discriminate]. cbn [bind].
  destruct (StrandsAgent_init W _ _ _); [discriminate |].
  intros Hret. injection Hret as <-. cbn [tools].
  pose proof (wrap_agents_shape _ _ Hwrap) as Hshape.
  exists wrapped. split; [reflexivity |]. split; [exact Hshape |].
  rewrite length_app, (Forall2_length Hshape). reflexivity.
Qed.

Lemma create_nodes_from_live (items : list (string * node_data)) :
  forall acc tools agents tools',
    create_nodes_from W items acc tools = Ret (agents, tools') ->
    agents = (acc ++ flat_map (live_agent W) items)%list.
Proof.
  induction items as [| [node_id node] items IH]; intros acc tools agents tools' Hrun.
  - cbn in Hrun. injection Hrun as <- <-. symmetry. apply app_nil_r.
  - cbn [create_nodes_from] in Hrun. cbn [flat_map]. unfold live_agent at 1.
    cbn [snd]. destruct (String.eqb (node_type node) "agent").
    + destruct (create_agent W node) as [agent |].
      * rewrite (IH _ _ _ _ Hrun), <- app_assoc. reflexivity.
      * exact (IH _ _ _ _ Hrun).
    + destruct (String.eqb (node_type node) "tool").
      * destruct (create_tool W node) as [[[| t ts] |] | e]; cbn [bind] in Hrun;
          try discriminate; exact (IH _ _ _ _ Hrun).
      * exact (IH _ _ _ _ Hrun).
Qed.

Lemma live_agents_bound (items : list (string * node_data)) :
  List.length (flat_map (live_agent W) items)
  <= List.length (filter is_agent_node items).
Proof.
  induction items as [| item items IH]; [apply le_n |].
  cbn [flat_map filter]. rewrite length_app.
  unfold live_agent at 1, is_agent_node at 1.
  destruct (String.eqb (node_type (snd item)) "agent"); cbn [length app].
  - destruct (create_agent W (snd item)); cbn [length]; lia.
  - exact IH.
Qed.

(** X10: the live agents of a context are, in the order of its nodes, the
    agents created for the nodes of type [agent], a node whose agent cannot
    be created adding nothing; there are never more live agents than agent
    nodes. *)
Theorem live_agents_follow_the_nodes (c : workflow_ctx) (agents : list StrandsAgent)
        (tools : list (list tool)) :
  create_nodes W c = Ret (agents, tools) ->
  agents = flat_map (live_agent W) (nodes c)
  /\ List.length agents <= List.length (filter is_agent_node (nodes c)).
Proof.
  intros Hrun.
  pose proof (create_nodes_from_live (nodes c) [] [] agents tools Hrun) as Hlive.
  cbn [app] in Hlive. split; [exact Hlive |].
  rewrite Hlive. apply live_agents_bound.
Qed.

End Materialise.

Lemma orchestrator_capabilities_witness :
  exists o wrapped,
    snd (setup Demo.world Demo.a_to_b) = Ret o
    /\ tools o = (wrapped ++ [])%list
    /\ List.length (tools o) = 2.
Proof.
  destruct (orchestrator_capabilities Demo.world
              (with_nodes_created Demo.a_to_b
                 (map (set_callback_handler agent_level_callback_handler)
                      (flat_map (live_agent Demo.world) (nodes Demo.a_to_b))) [])
              _ eq_refl) as [wrapped [Htools [_ Hcount]]].
  eexists _, wrapped. split; [reflexivity |]. split; [exact Htools | exact Hcount].
Defined.

Lemma live_agents_follow_the_nodes_witness :
  exists agents,
    create_nodes Demo.world Demo.summarizer_flow = Ret (agents, [])
    /\ List.length agents <= 1.
Proof.
  eexists. split; [reflexivity |].
  exact (proj2 (live_agents_follow_the_nodes Demo.world Demo.summarizer_flow _ _ eq_refl)).
Defined.

End PartsFacts.

(* ================================================================== *)
(** ** Properties of the loaders and of what the worker makes of them  *)
(* ================================================================== *)

Module LoaderFacts.
Import Py McpHelpers Models WorkflowRunner Documented Parts.

Lemma setitem_In {A} (k : string) (v : A) (d : list (string * A)) (k' : string) (v' : A) :
  In (k', v') (setitem k v d) -> (k' = k /\ v' = v) \/ In (k', v') d.
Proof.
  induction d as [| [k0 v0] d IH]; cbn [setitem].
  - intros [Heq | []]. injection Heq as <- <-. left. split; reflexivity.
  - destruct (String.eqb_spec k k0) as [-> | Hne].
    + intros [Heq | Hin].
      * injection Heq as <- <-. left. split; reflexivity.
      * right. right. exact Hin.
    + intros [Heq | Hin].
      * right. left. exact Heq.
      * destruct (IH Hin) as [Hnew | Hold]; [left; exact Hnew | right; right; exact Hold].
Qed.

Lemma find_app_last {A} (p : A -> bool) (l : list A) (x : A) :
  find p (l ++ [x])%list
  = match find p l with Some y => Some y | None => find p [x] end.
Proof.
  induction l as [| a l IH]; cbn [app find]; [reflexivity |].
  destruct (p a); [reflexivity | exact IH].
Qed.

Lemma setitem_keys {A} (k : string) (v : A) (d : list (string * A)) :
  map fst (setitem k v d)
  = if has_key k d then map fst d else (map fst d ++ [k])%list.
Proof.
  unfold has_key. induction d as [| [k0 v0] d IH]; cbn [setitem lookup map fst app].
  - reflexivity.
  - destruct (String.eqb k k0); cbn [map fst]; [reflexivity |].
    rewrite IH. destruct (lookup k d); reflexivity.
Qed.

Lemma has_key_In {A} (k : string) (d : list (string * A)) :
  has_key k d = true <-> In k (map fst d).
Proof.
  unfold has_key. induction d as [| [k0 v0] d IH]; cbn [lookup map fst In].
  - split; [discriminate | intros []].
  - destruct (String.eqb_spec k k0) as [-> | Hne].
    + split; [intros _; left; reflexivity | reflexivity].
    + rewrite IH. split; [intros Hin; right; exact Hin |].
      intros [Heq | Hin]; [congruence | exact Hin].
Qed.

Lemma setitem_NoDup {A} (k : string) (v : A) (d : list (string * A)) :
  NoDup (map fst d) -> NoDup (map fst (setitem k v d)).
Proof.
  intros Hd. rewrite setitem_keys. destruct (has_key k d) eqn:Hk; [exact Hd |].
  apply NoDup_app; [exact Hd | repeat constructor; intros [] |].
  intros x Hx [<- | []].
  apply has_key_In in Hx. congruence.
Qed.

Lemma setitem_has_key {A} (k : string) (v : A) (d : list (string * A)) (k' : string) :
  has_key k' (setitem k v d) = (String.eqb k' k || has_key k' d)%bool.
Proof.
  unfold has_key. induction d as [| [k0 v0] d IH]; cbn [setitem lookup].
  - destruct (String.eqb k' k); reflexivity.
  - destruct (String.eqb_spec k k0) as [-> | Hne]; cbn [lookup].
    + destruct (String.eqb k' k0); reflexivity.
    + destruct (String.eqb k' k0).
      * symmetry. apply orb_true_r.
      * exact IH.
Qed.

(** The nodes of a loaded graph, as the loop of [load_workflow] builds
    them from the rows. *)
Lemma prepared_nodes_sound (db : db_session) (rows : list WorkflowNode) :
  forall acc,
    let prepared :=
      fold_left (fun prepared_nodes node =>
                   setitem (WorkflowNode_id node) (prepared_node db node) prepared_nodes)
                rows acc in
    (NoDup (map fst acc) -> NoDup (map fst prepared))
    /\ (forall k n, In (k, n) prepared ->
                    In (k, n) acc
                    \/ exists row, In row rows /\ k = WorkflowNode_id row
                                   /\ n = prepared_node db row)
    /\ (forall row, In row rows -> has_key (WorkflowNode_id row) prepared = true)
    /\ (forall k, has_key k acc = true -> has_key k prepared = true).
Proof.
  induction rows as [| row rows IH]; intros acc; cbn [fold_left].
  - cbv zeta. repeat split; auto; intros row [].
  - specialize (IH (setitem (WorkflowNode_id row) (prepared_node db row) acc)).
    cbv zeta in *. destruct IH as [Hnodup [Hsound [Hall Hkeep]]].
    repeat split.
    + intros Hacc. apply Hnodup, setitem_NoDup, Hacc.
    + intros k n Hin. destruct (Hsound k n Hin) as [Hset | [r [Hr Heq]]].
      * destruct (setitem_In _ _ _ _ _ Hset) as [[-> ->] | Hold].
        -- right. exists row. repeat split. left. reflexivity.
        -- left. exact Hold.
      * right. exists r. split; [right; exact Hr | exact Heq].
    + intros r [<- | Hr].
      * apply Hkeep. rewrite setitem_has_key, String.eqb_refl. reflexivity.
      * apply Hall. exact Hr.
    + intros k Hk. apply Hkeep. rewrite setitem_has_key, Hk. apply orb_true_r.
Qed.

Lemma loaded_nodes_come_from_rows (workflow_id : string) (db : db_session)
      (c : workflow_ctx) :
  load_workflow workflow_id db = Ret c ->
  forall k n, In (k, n) (nodes c) ->
              exists row, In row (WorkflowNode_rows db) /\ n = prepared_node db row.
Proof.
  unfold load_workflow.
  destruct (get_row Workflow_id (Workflow_rows db) workflow_id) as [workflow |];
    [| discriminate].
  intros Hret. injection Hret as <-. cbn [nodes]. intros k n Hin.
  pose proof (prepared_nodes_sound db
                (filter (fun node => String.eqb (WorkflowNode_workflow_id node) workflow_id)
                        (WorkflowNode_rows db)) []) as Hprep.
  cbv zeta in Hprep. destruct Hprep as [_ [Hsound _]].
  destruct (Hsound k n Hin) as [[] | [row [Hrow [_ Hn]]]].
  apply filter_In in Hrow. exists row. split; [apply Hrow | exact Hn].
Qed.

(** X11: a graph loaded for a workflow identifier holds nodes and edges
    of that workflow only: every node is built from a node row of the
    workflow and stored under the identifier of that row, no identifier
    occurs twice, every node row of the workflow has its entry, and every
    edge comes from an edge row of the workflow.  The graph starts with an
    empty history, no live agent and no orchestrator. *)
Theorem loaded_graph_is_the_workflow (workflow_id : string) (db : db_session)
        (c : workflow_ctx) :
  load_workflow workflow_id db = Ret c ->
  NoDup (map fst (nodes c))
  /\ (forall k n, In (k, n) (nodes c) ->
        exists row, In row (WorkflowNode_rows db)
                    /\ WorkflowNode_workflow_id row = workflow_id
                    /\ k = WorkflowNode_id row /\ n = prepared_node db row)
  /\ (forall row, In row (WorkflowNode_rows db) ->
                  WorkflowNode_workflow_id row = workflow_id ->
                  has_key (WorkflowNode_id row) (nodes c) = true)
  /\ (forall e, In e (edges c) ->
        exists row, In row (WorkflowEdge_rows db)
                    /\ WorkflowEdge_workflow_id row = workflow_id
                    /\ source e = WorkflowEdge_source_node_id row
                    /\ target e = WorkflowEdge_target_node_id row)
  /\ conversation_history c = Some [] /\ agents c = [] /\ orchestrator c = None.
Proof.
  unfold load_workflow.
  destruct (get_row Workflow_id (Workflow_rows db) workflow_id) as [workflow |];
    [| discriminate].
  intros Hret. injection Hret as <-. cbn [nodes edges conversation_history agents orchestrator].
  pose proof (prepared_nodes_sound db
                (filter (fun node => String.eqb (WorkflowNode_workflow_id node) workflow_id)
                        (WorkflowNode_rows db)) []) as Hprep.
  cbv zeta in Hprep. destruct Hprep as [Hnodup [Hsound [Hall _]]].
  split; [apply Hnodup; constructor |].
  split.
  { intros k n Hin. destruct (Hsound k n Hin) as [[] | [row [Hrow [Hk Hn]]]].
    apply filter_In in Hrow. destruct Hrow as [Hrow Hwf].
    apply String.eqb_eq in Hwf. exists row. repeat split; assumption. }
  split.
  { intros row Hrow Hwf. apply Hall. apply filter_In. split; [exact Hrow |].
    apply String.eqb_eq. exact Hwf. }
  split; [| repeat split].
  intros e He. apply in_map_iff in He. destruct He as [row [<- Hrow]].
  apply filter_In in Hrow. destruct Hrow as [Hrow Hwf].
  apply String.eqb_eq in Hwf. exists row. repeat split; assumption.
Qed.

Lemma prepared_node_well_shaped (db : db_session) (row : WorkflowNode) :
  well_shaped (prepared_node db row).
Proof.
  unfold well_shaped, prepared_node, prepared_reference. cbn [node_type node_reference].
  intros ->. destruct (WorkflowNode_reference_id row) as [reference_id |]; [| exact I].
  cbn. destruct (get_row Tool_id (Tool_rows db) reference_id); exact I.
Qed.

Section Loaded.
Variable W : World.

Lemma well_shaped_nodes_materialise (items : list (string * node_data)) :
  Forall (fun item => well_shaped (snd item)) items ->
  forall acc tools, exists r, create_nodes_from W items acc tools = Ret r.
Proof.
  induction 1 as [| [node_id node] items Hshape _ IH]; intros acc tools.
  - eexists. reflexivity.
  - cbn [create_nodes_from]. cbn [snd] in Hshape.
    destruct (String.eqb (node_type node) "agent").
    + destruct (create_agent W node); apply IH.
    + destruct (String.eqb_spec (node_type node) "tool") as [Htool | _]; [| apply IH].
      unfold create_tool. specialize (Hshape Htool).
      destruct (node_reference node) as [[r | td] |]; [contradiction | |].
      * destruct (PartsFacts.factory_returns W td) as [made ->]. cbn [bind].
        destruct made as [[| t ts] |]; apply IH.
      * cbn [bind]. apply IH.
Qed.

(** X12: materialising the nodes of a context that came from
    [load_workflow] or [load_agent] never raises, whatever the store holds
    and whatever the tool servers do: the loaders attach to a tool node a tool
    record or nothing. *)
Theorem loaded_nodes_materialise (key : string) (db : db_session) (c : workflow_ctx) :
  load_workflow key db = Ret c \/ load_agent key db = Ret c ->
  exists agents tools, create_nodes W c = Ret (agents, tools).
Proof.
  intros Hloaded.
  assert (Hshape : Forall (fun item => well_shaped (snd item)) (nodes c)).
  { destruct Hloaded as [Hwf | Hagent].
    - pose proof (loaded_nodes_come_from_rows key db c Hwf) as Hrows.
      apply Forall_forall. intros [k n] Hin. cbn [snd].
      destruct (Hrows k n Hin) as [row [_ ->]]. apply prepared_node_well_shaped.
    - unfold load_agent in Hagent.
      destruct (get_row Agent_id (Agent_rows db) key); [| discriminate].
      injection Hagent as <-. cbn [nodes]. constructor; [| constructor].
      cbn. intros Hkind. discriminate Hkind. }
  destruct (well_shaped_nodes_materialise (nodes c) Hshape [] []) as [[agents tools] Hrun].
  exists agents, tools. exact Hrun.
Qed.

(** X13: a bare agent is served by itself.  When the agent of a context
    that came from [load_agent] can be constructed, the set-up succeeds and
    the orchestrator is that agent: it has the stored instruction text and
    name of the agent row, the capabilities of its associated tool records in
    order, and the top-level callback handler.  When the agent cannot be
    constructed, the set-up raises [IndexError]. *)
Theorem bare_agent_is_its_own_orchestrator (key : string) (db : db_session)
        (c : workflow_ctx) (agent_db : Agent) :
  load_agent key db = Ret c ->
  get_row Agent_id (Agent_rows db) key = Some agent_db ->
  let capabilities := flat_map (instances W) (joined_tools db agent_db) in
  let constructed :=
    StrandsAgent_init W (cross_region W (Agent_model_id agent_db))
                      (Agent_prompt agent_db) capabilities in
  (constructed = None ->
   snd (setup W c)
   = Ret (mkStrandsAgent (cross_region W (Agent_model_id agent_db))
                         (Agent_prompt agent_db) capabilities
                         top_level_callback_handler
                         (Some (Agent_name agent_db)) (Agent_description agent_db)))
  /\ (forall e, constructed = Some e -> snd (setup W c) = Raise IndexError).
Proof.
  intros Hload Hrow. unfold load_agent in Hload. rewrite Hrow in Hload.
  injection Hload as <-. cbv zeta.
  unfold setup, create_nodes. cbn [nodes create_nodes_from node_type String.eqb
                                       Ascii.eqb Bool.eqb].
  unfold create_agent, StrandsAgent_new.
  cbn [node_reference agent_ref_of agent_tools agent_model_id agent_prompt
       agent_name agent_description].
  rewrite (FactoryFacts.collect_tools_concat W _ []). cbn [app].
  split.
  - intros ->. reflexivity.
  - intros e ->. reflexivity.
Qed.

End Loaded.

Lemma loaded_graph_is_the_workflow_witness :
  NoDup (map fst (nodes Demo.summarizer_flow)).
Proof.
  exact (proj1 (loaded_graph_is_the_workflow "w-1" Demo.store Demo.summarizer_flow
                  eq_refl)).
Defined.

Lemma loaded_nodes_materialise_witness :
  exists agents tools,
    create_nodes Demo.world Demo.summarizer_flow = Ret (agents, tools).
Proof.
  exact (loaded_nodes_materialise Demo.world "w-1" Demo.store Demo.summarizer_flow
           (or_introl eq_refl)).
Defined.

Lemma bare_agent_is_its_own_orchestrator_witness :
  exists c,
    load_agent "id-Summarizer" Demo.store = Ret c
    /\ snd (setup Demo.world c) = Ret Demo.summarizer.
Proof.
  eexists. split; [reflexivity |].
  exact (proj1 (bare_agent_is_its_own_orchestrator Demo.world "id-Summarizer"
                  Demo.store _ _ eq_refl eq_refl) eq_refl).
Defined.

End LoaderFacts.

(* ================================================================== *)
(** ** Further properties of the configuration helpers                 *)
(* ================================================================== *)

Module ShapesFacts.
Import Py Re McpHelpers Documented Shapes.

Lemma command_mappings_have_key (v : value) :
  forall d, In d (command_mappings v) -> has_key "command" d = true.
Proof.
  induction v as [| b | z | l | s | l IH | e IH] using Py.value_ind;
    try (intros d []).
  cbn [command_mappings]. destruct (has_key "command" e) eqn:Hk.
  - intros d [<- | []]. exact Hk.
  - clear Hk. induction e as [| [k x] e IHe]; [intros d [] |].
    inversion IH as [| ? ? Hx He]; subst. intros d Hin.
    apply in_app_or in Hin. destruct Hin as [Hin | Hin].
    + exact (Hx d Hin).
    + exact (IHe He d Hin).
Qed.

(** X14: whatever [locate_config] returns other than all-[None] is read
    off a mapping that occurs in the value and holds a ['command'] key: the
    command is the value under that key, and the arguments, environment and
    disabled names are those of the same mapping.  Nothing is invented and
    parameters of different mappings are never mixed. *)
Theorem located_parameters_come_from_one_mapping (v : value) :
  locate_config v <> not_found ->
  exists d, In d (command_mappings v)
            /\ has_key "command" d = true
            /\ locate_config v = launch_of d.
Proof.
  rewrite LocateFacts.locate_config_located. intros Hfound.
  destruct v as [| | | | | l | e]; try contradiction.
  unfold located in *. cbn [command_mappings] in *.
  destruct (has_key "command" e) eqn:Hk.
  - exists e. split; [left; reflexivity | split; [exact Hk | reflexivity]].
  - destruct (find truthy_command _) as [d |] eqn:Hfind; [| contradiction].
    apply find_some in Hfind. destruct Hfind as [Hin _].
    exists d. split; [exact Hin |]. split; [| reflexivity].
    apply (command_mappings_have_key (VDict e)). cbn [command_mappings].
    rewrite Hk. exact Hin.
Qed.




Lemma located_parameters_come_from_one_mapping_witness :
  exists d,
    In d (command_mappings (VDict [("a", VDict [("command", VStr "x")])]))
    /\ locate_config (VDict [("a", VDict [("command", VStr "x")])]) = launch_of d.
Proof.
  destruct (located_parameters_come_from_one_mapping
              (VDict [("a", VDict [("command", VStr "x")])]))
    as [d [Hin [_ Heq]]]; [discriminate |].
  exists d. split; assumption.
Defined.

Lemma lookup_setitem {A} (k k' : string) (v : A) (d : list (string * A)) :
  lookup k' (setitem k v d) = if String.eqb k' k then Some v else lookup k' d.
Proof.
  induction d as [| [k0 v0] d IH]; cbn [setitem lookup].
  - reflexivity.
  - destruct (String.eqb_spec k k0) as [-> | Hne]; cbn [lookup].
    + destruct (String.eqb k' k0); reflexivity.
    + destruct (String.eqb_spec k' k0) as [-> | Hne'].
      * destruct (String.eqb_spec k0 k) as [Heq | _]; [congruence | reflexivity].
      * exact IH.
Qed.

(** Looking a key up after a loop of assignments: the value of the last
    assignment to that key, or what was there before. *)
Lemma lookup_after_loop (f : captures -> value) (k : string) (ms : list captures) :
  forall d,
    lookup k (fold_left (fun result m => setitem (group 1 m) (f m) result) ms d)
    = match last_with k ms with
      | Some m => Some (f m)
      | None => lookup k d
      end.
Proof.
  unfold last_with. induction ms as [| m ms IH]; intros d; cbn [fold_left rev find].
  - reflexivity.
  - rewrite IH, LoaderFacts.find_app_last. cbn [find].
    destruct (find _ (rev ms)) as [m' |]; [reflexivity |].
    rewrite lookup_setitem, String.eqb_sym.
    destruct (String.eqb (group 1 m) k); reflexivity.
Qed.

Section Recovered.
Variable limit : option nat.

(** X16: in the mapping that the quoted-key extraction recovers, a key
    has the boolean of its last boolean match if it has one, otherwise the
    number of its last numeric match if it has one, otherwise the string of
    its last string match: the kind decides before the position in the text. *)
Theorem recovered_value_by_kind (text k : string) :
  lookup k (extract_pairs limit text)
  = match last_with k (finditer bool_pattern text) with
    | Some m => Some (VBool (String.eqb (lower (group 2 m)) "true"))
    | None =>
        match last_with k (finditer num_pattern text) with
        | Some m => Some (number_of limit (group 2 m))
        | None =>
            match last_with k (finditer string_pattern text) with
            | Some m => Some (VStr (group 2 m))
            | None => None
            end
        end
    end.
Proof.
  unfold extract_pairs.
  rewrite (lookup_after_loop (fun m => VBool (String.eqb (lower (group 2 m)) "true"))).
  rewrite (lookup_after_loop (fun m => number_of limit (group 2 m))).
  rewrite (lookup_after_loop (fun m => VStr (group 2 m))).
  reflexivity.
Qed.






Variable loads : string -> result value.


End Recovered.


End ShapesFacts.

(* ================================================================== *)
(** ** Further properties of the synthesised orchestrator              *)
(* ================================================================== *)

Module OrchestratorFacts.
Import Py WorkflowRunner Documented.

(** X18: the prompt of the orchestrator holds, for every node of the
    graph that is neither an [input] nor an [output] node, the line
    [- <name> (ID: <id>, Type: <type>)], the name being that of the node's
    reference, or [Node <id>] when the node has none. *)
Theorem prompt_lists_every_working_node (workflow : workflow_ctx)
        (node_id : string) (node : node_data) :
  In (node_id, node) (nodes workflow) ->
  node_type node <> "input" ->
  node_type node <> "output" ->
  occurs_in ("- " ++ display_name (Some node) node_id ++ " (ID: " ++ node_id
             ++ ", Type: " ++ node_type node ++ ")" ++ nl)
            (_generate_workflow_prompt workflow).
Proof.
  intros Hin Hinput Houtput.
  assert (Hline : node_line (node_id, node)
                  = "- " ++ display_name (Some node) node_id ++ " (ID: " ++ node_id
                    ++ ", Type: " ++ node_type node ++ ")" ++ nl).
  { unfold node_line.
    destruct (String.eqb_spec (node_type node) "input") as [Heq | _]; [contradiction |].
    destruct (String.eqb_spec (node_type node) "output") as [Heq | _]; [contradiction |].
    reflexivity. }
  rewrite <- Hline. unfold _generate_workflow_prompt.
  apply PromptFacts.occurs_in_append_r, PromptFacts.fold_keeps,
        PromptFacts.occurs_in_append_r.
  apply (PromptFacts.fold_adds node_line (nodes workflow) _ (node_id, node) Hin).
Qed.

Lemma prompt_lists_every_working_node_witness :
  occurs_in ("- Summarizer (ID: n2, Type: agent)" ++ nl)
            (_generate_workflow_prompt Demo.summarizer_flow).
Proof.
  apply (prompt_lists_every_working_node Demo.summarizer_flow "n2"
           (snd (Demo.agent_node "n2" "Summarizer" "Summarize the text."
                                 [Demo.calculator]))).
  - right. left. reflexivity.
  - discriminate.
  - discriminate.
Defined.

Section Synthesis.
Variable W : World.

Lemma created_agents_are_named (c : workflow_ctx) (agents : list StrandsAgent)
      (tools : list (list tool)) (h : callback) :
  create_nodes W c = Ret (agents, tools) ->
  Forall (fun a => exists n, __agent_name a = Some n)
         (map (set_callback_handler h) agents).
Proof.
  intros Hnodes. apply Forall_forall. intros a Ha.
  apply in_map_iff in Ha. destruct Ha as [a0 [<- Ha0]].
  destruct (SetupFacts.create_nodes_from_agents W _ _ _ _ _ Hnodes a0 Ha0)
    as [[] | [i [n [r [_ [_ [_ [_ Hname]]]]]]]].
  exists (agent_name r).
  rewrite (proj2 (SetupFacts.set_callback_handler_keeps h a0)). exact Hname.
Qed.

End Synthesis.

End OrchestratorFacts.

(* ================================================================== *)
(** ** Properties of the callers of the worker and of the registry     *)
(* ================================================================== *)

Module AppFacts.
Import Py WorkflowRunner Run App.

Lemma data_frame_kind (text : string) :
  String.prefix "data: " text = true ->
  String.eqb text ANSWERED = false /\ startswith HISTORY text = false.
Proof.
  destruct text as [| c text]; [discriminate |].
  cbn [String.prefix]. destruct (Ascii.ascii_dec "d" c) as [<- | _]; [| discriminate].
  intros _. split; reflexivity.
Qed.

Lemma generator_streams_data (puts rest : list string) :
  Forall (fun text => String.prefix "data: " text = true) puts ->
  forall fuel, List.length puts < fuel ->
    _event_generator fuel (puts ++ ANSWERED :: rest)%list = (puts, rest, Finished).
Proof.
  induction 1 as [| text puts Htext _ IH]; intros fuel Hfuel.
  - destruct fuel as [| fuel]; [inversion Hfuel |]. reflexivity.
  - destruct fuel as [| fuel]; [inversion Hfuel |].
    cbn [length] in Hfuel. apply PeanoNat.lt_S_n in Hfuel.
    destruct (data_frame_kind text Htext) as [Hend Hhist].
    cbn [app _event_generator queue_get]. rewrite Hend, Hhist, (IH fuel Hfuel).
    reflexivity.
Qed.

Lemma generator_waits_after_data (puts : list string) :
  Forall (fun text => String.prefix "data: " text = true) puts ->
  forall fuel, List.length puts < fuel ->
    _event_generator fuel puts = (puts, [], Blocked).
Proof.
  induction 1 as [| text puts Htext _ IH]; intros fuel Hfuel.
  - destruct fuel as [| fuel]; [inversion Hfuel |]. reflexivity.
  - destruct fuel as [| fuel]; [inversion Hfuel |].
    cbn [length] in Hfuel. apply PeanoNat.lt_S_n in Hfuel.
    destruct (data_frame_kind text Htext) as [Hend Hhist].
    cbn [_event_generator queue_get]. rewrite Hend, Hhist, (IH fuel Hfuel).
    reflexivity.
Qed.

Lemma slice_from_prefix (p s : string) : slice_from (String.length p) (p ++ s) = s.
Proof. induction p as [| c p IH]; [destruct s; reflexivity | exact IH]. Qed.

Lemma with_output_same (w : worker) : with_output w (output_queue w) = w.
Proof. destruct w. reflexivity. Qed.

Section Callers.
Variable W : World.

Lemma await_history_skips_data (pending rest : list string) :
  Forall (fun text => String.prefix "data: " text = true) pending ->
  await_history W (pending ++ rest)%list = await_history W rest.
Proof.
  induction 1 as [| text pending Htext _ IH]; [reflexivity |].
  destruct (data_frame_kind text Htext) as [Hend Hhist].
  cbn [app await_history]. rewrite Hend, Hhist. exact IH.
Qed.

Lemma parsed_history_of (payload : string) :
  parsed_history W (HISTORY ++ payload)
  = match loads W payload with
    | Ret history => Ret (history_ok history)
    | Raise JSONDecodeError => Ret (http_error 500 "Failed to parse history")
    | Raise e => Raise e
    end.
Proof. unfold parsed_history. rewrite slice_from_prefix. reflexivity. Qed.

(** X20: a turn as the caller sees it.  When a non-empty message that
    is no sentinel is sent to a session whose worker waits and whose output
    queue is empty, and the call of the orchestrator completes, the response
    streams exactly the fragments that the handlers put during the call, in
    their order, and ends; the end marker is consumed and not streamed, the
    queue is empty again, and the history has grown by the question and the
    answer. *)
Theorem turn_is_streamed (o : StrandsAgent) (w : worker) (text : string)
        (puts : list string) (answer : string) (fuel : nat) :
  output_queue w = [] ->
  strip text <> "" ->
  strip text <> TERMINATE ->
  strip text <> RETRIEVE ->
  orchestrator_call W o (agents (context w)) (calls w) (strip text)
  = (puts, Ret answer) ->
  List.length puts < fuel ->
  exists w',
    send_message W fuel o (w, Waiting) text = (Some (puts, Finished), (w', Waiting))
    /\ output_queue w' = []
    /\ history_of w'
       = (history_of w
          ++ [ {| role := "user"; content := strip text;
                  timestamp := timestamp_at W (clock w) |};
               {| role := "assistant"; content := answer;
                  timestamp := timestamp_at W (S (clock w)) |} ])%list.
Proof.
  intros Hempty Hmessage Hterm Hretr Hcall Hfuel.
  pose proof (LoopFacts.orchestrator_call_puts_data W o (agents (context w))
                (calls w) (strip text)) as Hdata.
  rewrite Hcall in Hdata. cbn [fst] in Hdata.
  unfold send_message. apply String.eqb_neq in Hmessage. rewrite Hmessage.
  unfold deliver. cbn [fst snd].
  rewrite (RunFacts.handle_ordinary W o w (strip text) Hterm Hretr), Hcall.
  cbn [output_queue]. rewrite Hempty. cbn [app].
  change (puts ++ [ANSWERED])%list with (puts ++ ANSWERED :: [])%list.
  rewrite (generator_streams_data puts [] Hdata fuel Hfuel).
  eexists. split; [reflexivity |]. split; [reflexivity |].
  unfold with_output. cbn [context]. rewrite RunFacts.history_of_set.
  rewrite <- app_assoc. reflexivity.
Qed.

(** X21: a failed turn never ends the stream.  When the call of the
    orchestrator raises, the worker ends without putting the end marker: the
    response streams the fragments put before the failure and then waits on
    the empty queue, and so does every later message to the session, while a
    later request for the history waits as well. *)
Theorem failed_turn_hangs_the_stream (o : StrandsAgent) (w : worker)
        (text : string) (puts : list string) (e : exn) (fuel : nat) :
  output_queue w = [] ->
  strip text <> "" ->
  strip text <> TERMINATE ->
  strip text <> RETRIEVE ->
  orchestrator_call W o (agents (context w)) (calls w) (strip text)
  = (puts, Raise e) ->
  List.length puts < fuel ->
  exists w',
    send_message W fuel o (w, Waiting) text = (Some (puts, Blocked), (w', Crashed e))
    /\ (forall fuel' text',
           0 < fuel' -> strip text' <> "" ->
           fst (send_message W fuel' o (w', Crashed e) text') = Some ([], Blocked))
    /\ fst (retrieve_conversation_history W o (w', Crashed e)) = None.
Proof.
  intros Hempty Hmessage Hterm Hretr Hcall Hfuel.
  pose proof (LoopFacts.orchestrator_call_puts_data W o (agents (context w))
                (calls w) (strip text)) as Hdata.
  rewrite Hcall in Hdata. cbn [fst] in Hdata.
  unfold send_message at 1. apply String.eqb_neq in Hmessage. rewrite Hmessage.
  unfold deliver at 1. cbn [fst snd].
  rewrite (RunFacts.handle_ordinary W o w (strip text) Hterm Hretr), Hcall.
  cbn [output_queue]. rewrite Hempty. cbn [app].
  rewrite (generator_waits_after_data puts Hdata fuel Hfuel).
  eexists. split; [reflexivity |]. split.
  - intros fuel' text' Hfuel' Htext'.
    unfold send_message. apply String.eqb_neq in Htext'. rewrite Htext'.
    unfold deliver. cbn [fst snd with_output output_queue].
    destruct fuel' as [| fuel']; [inversion Hfuel' |]. reflexivity.
  - reflexivity.
Qed.

(** X22: the history request.  When the worker of a session waits and
    its output queue holds nothing but streamed fragments, the request
    returns what [json.loads] makes of the serialised history of the worker,
    the answer 500 when that text does not parse; the fragments that were on
    the queue are taken off it and returned to nobody, and nothing else of
    the worker changes. *)
Theorem history_is_served (o : StrandsAgent) (w : worker) :
  Forall (fun text => String.prefix "data: " text = true) (output_queue w) ->
  retrieve_conversation_history W o (w, Waiting)
  = (Some match loads W (history_json (history_of w)) with
          | Ret history => Ret (history_ok history)
          | Raise JSONDecodeError => Ret (http_error 500 "Failed to parse history")
          | Raise e => Raise e
          end,
     (with_output w [], Waiting)).
Proof.
  intros Hdata. unfold retrieve_conversation_history, deliver. cbn [fst snd].
  rewrite RunFacts.handle_retrieve. cbn [output_queue].
  rewrite (await_history_skips_data _ _ Hdata).
  cbn [await_history].
  replace (startswith HISTORY (HISTORY ++ history_json (history_of w))) with true
    by (symmetry; apply PromptFacts.prefix_append).
  rewrite parsed_history_of. reflexivity.
Qed.

(** X23: an end marker that is still on the queue hides the history.
    When the output queue of a waiting worker holds fragments and the end
    marker of a turn whose stream was not read to its end, the history
    request returns an empty history, whatever the worker has recorded, and
    the history message of the worker stays on the queue behind what was
    there. *)
Theorem stale_end_marker_hides_history (o : StrandsAgent) (w : worker)
        (pending rest : list string) :
  output_queue w = (pending ++ ANSWERED :: rest)%list ->
  Forall (fun text => String.prefix "data: " text = true) pending ->
  retrieve_conversation_history W o (w, Waiting)
  = (Some (Ret (history_ok (VList []))),
     (with_output w (rest ++ [(HISTORY ++ history_json (history_of w))%string])%list,
      Waiting)).
Proof.
  intros Hqueue Hdata. unfold retrieve_conversation_history, deliver. cbn [fst snd].
  rewrite RunFacts.handle_retrieve. cbn [output_queue]. rewrite Hqueue.
  rewrite <- app_assoc. rewrite (await_history_skips_data _ _ Hdata).
  reflexivity.
Qed.

End Callers.

Lemma key_eqb_eq (a b : key) : key_eqb a b = true <-> a = b.
Proof.
  destruct a as [x | x], b as [y | y]; cbn [key_eqb];
    try (split; intros Habs; discriminate Habs).
  - rewrite String.eqb_eq. split; [intros -> | intros Heq; injection Heq as ->]; reflexivity.
  - rewrite String.eqb_eq. split; [intros -> | intros Heq; injection Heq as ->]; reflexivity.
Qed.

Lemma key_eqb_refl (a : key) : key_eqb a a = true.
Proof. apply key_eqb_eq. reflexivity. Qed.

Lemma key_eqb_neq (a b : key) : a <> b -> key_eqb a b = false.
Proof.
  intros Hne. destruct (key_eqb a b) eqn:Heq; [| reflexivity].
  apply key_eqb_eq in Heq. contradiction.
Qed.

Lemma reg_get_In (r : registry) :
  NoDup (map fst r) -> forall k v, In (k, v) r -> reg_get k r = Some v.
Proof.
  induction r as [| [k' v'] r IH]; intros Hkeys k v Hin; [contradiction |].
  cbn [map fst] in Hkeys. inversion Hkeys as [| ? ? Hfresh Hrest]; subst.
  cbn [reg_get]. destruct Hin as [Heq | Hin].
  - injection Heq as -> ->. rewrite key_eqb_refl. reflexivity.
  - destruct (key_eqb k k') eqn:Hk.
    + apply key_eqb_eq in Hk. subst k'. exfalso. apply Hfresh.
      apply (in_map fst _ _ Hin).
    + exact (IH Hrest k v Hin).
Qed.

Lemma reg_get_Some_In (r : registry) (k : key) (v : entry) :
  reg_get k r = Some v -> In (k, v) r.
Proof.
  induction r as [| [k' v'] r IH]; cbn [reg_get]; [discriminate |].
  destruct (key_eqb k k') eqn:Hk.
  - apply key_eqb_eq in Hk. subst k'. intros Heq. injection Heq as ->. left. reflexivity.
  - intros Hget. right. exact (IH Hget).
Qed.

Lemma reg_get_set (k k' : key) (v : entry) (r : registry) :
  reg_get k' (reg_set k v r) = if key_eqb k' k then Some v else reg_get k' r.
Proof.
  induction r as [| [k0 v0] r IH]; cbn [reg_set reg_get].
  - reflexivity.
  - destruct (key_eqb k k0) eqn:Hk; cbn [reg_get].
    + apply key_eqb_eq in Hk. subst k0. destruct (key_eqb k' k); reflexivity.
    + destruct (key_eqb k' k0) eqn:Hk'; [| exact IH].
      apply key_eqb_eq in Hk'. subst k0.
      rewrite (key_eqb_neq k' k); [reflexivity |].
      intros ->. rewrite key_eqb_refl in Hk. discriminate Hk.
Qed.

Lemma reg_get_pop_other (k k' : key) (r : registry) :
  k' <> k -> reg_get k' (reg_pop k r) = reg_get k' r.
Proof.
  intros Hne. induction r as [| [k0 v0] r IH]; [reflexivity |].
  cbn [reg_pop reg_get]. destruct (key_eqb k k0) eqn:Hk.
  - apply key_eqb_eq in Hk. subst k0. rewrite (key_eqb_neq _ _ Hne). reflexivity.
  - cbn [reg_get]. rewrite IH. reflexivity.
Qed.

Lemma sessions_are_identifiers (id : key) (r : registry) (k : key) :
  In k (get_all_session_for_workflow id r) -> exists s, In (k, session_of s) r.
Proof.
  unfold get_all_session_for_workflow. rewrite in_map_iff.
  intros [[k' v] [Hk Hin]]. cbn [fst] in Hk. subst k'.
  apply filter_In in Hin. destruct Hin as [Hin Heq]. cbn [snd] in Heq.
  destruct v as [input output | s]; [discriminate Heq |].
  exists s. exact Hin.
Qed.

Lemma loop_terminates_nothing (proxy_is_dict : bool) (sessions : list key)
      (r : registry) :
  (forall k, In k sessions -> exists s, reg_get k r = Some (session_of s)) ->
  fold_left (terminate_session proxy_is_dict) sessions (r, []) = (r, []).
Proof.
  induction sessions as [| k sessions IH]; intros Hall; [reflexivity |].
  cbn [fold_left].
  replace (terminate_session proxy_is_dict (r, []) k) with (r, @nil nat).
  - apply IH. intros k' Hk'. apply Hall. right. exact Hk'.
  - destruct (Hall k (or_introl eq_refl)) as [s Hs].
    unfold terminate_session. rewrite Hs. reflexivity.
Qed.

Lemma clear_all_workflow_sessions_eq (proxy_is_dict : bool) (id_to_clear : key)
      (r : registry) :
  NoDup (map fst r) ->
  clear_all_workflow_sessions proxy_is_dict id_to_clear r
  = (reg_pop id_to_clear r,
     match reg_get id_to_clear r with
     | Some (queues input _) => if proxy_is_dict then [input] else []
     | _ => []
     end).
Proof.
  intros Hkeys.
  assert (Hloop : fold_left (terminate_session proxy_is_dict)
                            (get_all_session_for_workflow id_to_clear r) (r, [])
                  = (r, [])).
  { apply loop_terminates_nothing. intros k Hk.
    destruct (sessions_are_identifiers _ _ _ Hk) as [s Hs].
    exists s. exact (reg_get_In r Hkeys k _ Hs). }
  unfold clear_all_workflow_sessions.
  destruct (reg_get id_to_clear r) as [[input output | s] |];
    cbn [input_of_dict]; try (rewrite Hloop; reflexivity).
  destruct proxy_is_dict; [reflexivity | rewrite Hloop; reflexivity].
Qed.

(** X24: what clearing does.  [clear_all_workflow_sessions] removes the
    entry of the identifier it is given and no other entry; it sends
    [TERMINATE] to one queue at most, the input queue of that entry, and only
    when the entry is the shared mapping of a session and [isinstance] counts
    that mapping as a [dict].  The loop over the sessions of a workflow never
    sends anything, and when the mapping is a proxy that is no [dict], no
    worker is told to end. *)
Theorem clearing_forgets_one_key (proxy_is_dict : bool) (id_to_clear : key)
        (r : registry) :
  NoDup (map fst r) ->
  fst (clear_all_workflow_sessions proxy_is_dict id_to_clear r)
  = reg_pop id_to_clear r
  /\ snd (clear_all_workflow_sessions proxy_is_dict id_to_clear r)
     = match reg_get id_to_clear r with
       | Some (queues input _) => if proxy_is_dict then [input] else []
       | _ => []
       end.
Proof.
  intros Hkeys. rewrite (clear_all_workflow_sessions_eq _ _ _ Hkeys).
  split; reflexivity.
Qed.

Lemma clearing_forgets_one_key_witness :
  clear_all_workflow_sessions false (session_key "s1")
    [(session_key "s1", queues 0 1); (workflow_key "w", session_of "s1");
     (session_key "s2", queues 2 3)]
  = ([(workflow_key "w", session_of "s1"); (session_key "s2", queues 2 3)], []).
Proof.
  apply injective_projections.
  - apply (clearing_forgets_one_key false (session_key "s1")
             [(session_key "s1", queues 0 1); (workflow_key "w", session_of "s1");
              (session_key "s2", queues 2 3)]).
    repeat constructor; cbn; intuition discriminate.
  - reflexivity.
Defined.

Lemma NoDup_app_disjoint {A} (l1 l2 : list A) (x : A) :
  NoDup (l1 ++ l2) -> In x l1 -> ~ In x l2.
Proof.
  induction l1 as [| a l1 IH]; intros Hnd Hin; [contradiction |].
  cbn [app] in Hnd. inversion Hnd as [| ? ? Hfresh Hrest]; subst.
  destruct Hin as [-> | Hin].
  - intros Hx. apply Hfresh. apply in_or_app. right. exact Hx.
  - exact (IH Hrest Hin).
Qed.

Lemma reg_set_keys_In (k x : key) (v : entry) (r : registry) :
  In x (map fst (reg_set k v r)) -> x = k \/ In x (map fst r).
Proof.
  induction r as [| [k0 v0] r IH]; cbn [reg_set map fst].
  - intros [<- | []]. left. reflexivity.
  - destruct (key_eqb k k0); cbn [map fst].
    + intros Hin. right. exact Hin.
    + intros [<- | Hin]; [right; left; reflexivity |].
      destruct (IH Hin) as [-> | Hin']; [left; reflexivity | right; right; exact Hin'].
Qed.

Lemma reg_set_keys_NoDup (k : key) (v : entry) (r : registry) :
  NoDup (map fst r) -> NoDup (map fst (reg_set k v r)).
Proof.
  induction r as [| [k0 v0] r IH]; cbn [reg_set map fst]; intros Hkeys.
  - constructor; [intros [] | constructor].
  - destruct (key_eqb k k0) eqn:Hk; cbn [map fst]; [exact Hkeys |].
    inversion Hkeys as [| ? ? Hfresh Hrest]; subst.
    constructor; [| exact (IH Hrest)].
    intros Hin. destruct (reg_set_keys_In _ _ _ _ Hin) as [-> | Hin'].
    + rewrite key_eqb_refl in Hk. discriminate Hk.
    + exact (Hfresh Hin').
Qed.

Lemma reg_set_kinded (k : key) (v : entry) (r : registry) :
  well_kinded (k, v) -> Forall well_kinded r -> Forall well_kinded (reg_set k v r).
Proof.
  intros Hkv. induction 1 as [| [k0 v0] r H0 Hr IH]; cbn [reg_set].
  - constructor; [exact Hkv | constructor].
  - destruct (key_eqb k k0) eqn:Hk.
    + apply key_eqb_eq in Hk. subst k0. constructor; assumption.
    + constructor; assumption.
Qed.

Lemma reg_set_handles_In (k : key) (v : entry) (r : registry) (x : nat) :
  In x (handles (reg_set k v r)) -> In x (queues_of v) \/ In x (handles r).
Proof.
  unfold handles. induction r as [| [k0 v0] r IH]; cbn [reg_set flat_map snd].
  - rewrite app_nil_r. intros Hin. left. exact Hin.
  - destruct (key_eqb k k0); cbn [flat_map snd]; intros Hin;
      apply in_app_or in Hin; destruct Hin as [Hin | Hin].
    + left. exact Hin.
    + right. apply in_or_app. right. exact Hin.
    + right. apply in_or_app. left. exact Hin.
    + destruct (IH Hin) as [Hv | Hr]; [left; exact Hv |].
      right. apply in_or_app. right. exact Hr.
Qed.

Lemma reg_set_handles_NoDup (k : key) (v : entry) (r : registry) :
  NoDup (queues_of v) ->
  (forall x, In x (queues_of v) -> ~ In x (handles r)) ->
  NoDup (handles r) ->
  NoDup (handles (reg_set k v r)).
Proof.
  intros Hv. induction r as [| [k0 v0] r IH]; intros Hfresh Hnd.
  - unfold handles. cbn [reg_set flat_map snd]. rewrite app_nil_r. exact Hv.
  - cbn [reg_set]. change (handles ((k0, v0) :: r)) with (queues_of v0 ++ handles r)%list in *.
    destruct (key_eqb k k0).
    + change (handles ((k0, v) :: r)) with (queues_of v ++ handles r)%list.
      apply NoDup_app; [exact Hv | exact (NoDup_app_remove_l _ _ Hnd) |].
      intros x Hx Hr. apply (Hfresh x Hx). apply in_or_app. right. exact Hr.
    + change (handles ((k0, v0) :: reg_set k v r))
        with (queues_of v0 ++ handles (reg_set k v r))%list.
      apply NoDup_app; [exact (NoDup_app_remove_r _ _ Hnd) | |].
      * apply IH; [| exact (NoDup_app_remove_l _ _ Hnd)].
        intros x Hx Hr. apply (Hfresh x Hx). apply in_or_app. right. exact Hr.
      * intros x Hx Hin. destruct (reg_set_handles_In _ _ _ _ Hin) as [Hnew | Hold].
        -- apply (Hfresh x Hnew). apply in_or_app. left. exact Hx.
        -- exact (NoDup_app_disjoint _ _ x Hnd Hx Hold).
Qed.

Lemma reg_pop_keys_In (k x : key) (r : registry) :
  In x (map fst (reg_pop k r)) -> In x (map fst r).
Proof.
  induction r as [| [k0 v0] r IH]; cbn [reg_pop map fst]; [intros [] |].
  destruct (key_eqb k k0); cbn [map fst].
  - intros Hin. right. exact Hin.
  - intros [<- | Hin]; [left; reflexivity | right; exact (IH Hin)].
Qed.

Lemma reg_pop_keys_NoDup (k : key) (r : registry) :
  NoDup (map fst r) -> NoDup (map fst (reg_pop k r)).
Proof.
  induction r as [| [k0 v0] r IH]; cbn [reg_pop map fst]; intros Hkeys.
  - constructor.
  - inversion Hkeys as [| ? ? Hfresh Hrest]; subst.
    destruct (key_eqb k k0); cbn [map fst]; [exact Hrest |].
    constructor; [| exact (IH Hrest)].
    intros Hin. exact (Hfresh (reg_pop_keys_In _ _ _ Hin)).
Qed.

Lemma reg_pop_kinded (k : key) (r : registry) :
  Forall well_kinded r -> Forall well_kinded (reg_pop k r).
Proof.
  induction 1 as [| [k0 v0] r H0 Hr IH]; cbn [reg_pop]; [constructor |].
  destruct (key_eqb k k0); [exact Hr | constructor; assumption].
Qed.

Lemma reg_pop_handles_In (k : key) (r : registry) (x : nat) :
  In x (handles (reg_pop k r)) -> In x (handles r).
Proof.
  unfold handles. induction r as [| [k0 v0] r IH]; cbn [reg_pop flat_map snd];
    [intros [] |].
  destruct (key_eqb k k0); cbn [flat_map snd]; intros Hin.
  - apply in_or_app. right. exact Hin.
  - apply in_app_or in Hin. apply in_or_app.
    destruct Hin as [Hin | Hin]; [left; exact Hin | right; exact (IH Hin)].
Qed.

Lemma reg_pop_handles_NoDup (k : key) (r : registry) :
  NoDup (handles r) -> NoDup (handles (reg_pop k r)).
Proof.
  induction r as [| [k0 v0] r IH]; intros Hnd; [exact Hnd |].
  cbn [reg_pop]. change (handles ((k0, v0) :: r)) with (queues_of v0 ++ handles r)%list in *.
  destruct (key_eqb k k0); [exact (NoDup_app_remove_l _ _ Hnd) |].
  change (handles ((k0, v0) :: reg_pop k r))
    with (queues_of v0 ++ handles (reg_pop k r))%list.
  apply NoDup_app; [exact (NoDup_app_remove_r _ _ Hnd)
                   | exact (IH (NoDup_app_remove_l _ _ Hnd)) |].
  intros x Hx Hin. exact (NoDup_app_disjoint _ _ x Hnd Hx (reg_pop_handles_In _ _ _ Hin)).
Qed.

(** What holds of every state that the application can produce. *)
Lemma reachable_invariant (m : manager) :
  reachable m ->
  NoDup (map fst (_synced_workflow_queues m))
  /\ Forall well_kinded (_synced_workflow_queues m)
  /\ NoDup (handles (_synced_workflow_queues m))
  /\ (forall x, In x (handles (_synced_workflow_queues m)) -> x < allocated m).
Proof.
  induction 1 as [| workflow_id session_id m _ [Hkeys [Hkinds [Hnd Hbound]]]
                  | b id m _ [Hkeys [Hkinds [Hnd Hbound]]]].
  - cbn. repeat split; try constructor. intros x [].
  - unfold init_workflow_queues.
    cbn [snd _synced_workflow_queues allocated].
    set (r1 := reg_set (session_key session_id)
                       (queues (allocated m) (S (allocated m)))
                       (_synced_workflow_queues m)).
    assert (Hfresh : forall x, In x (queues_of (queues (allocated m) (S (allocated m)))) ->
                               ~ In x (handles (_synced_workflow_queues m))).
    { intros x Hx Hin. specialize (Hbound x Hin). cbn in Hx. lia. }
    assert (Hnd1 : NoDup (handles r1)).
    { apply reg_set_handles_NoDup; [| exact Hfresh | exact Hnd].
      cbn [queues_of]. constructor; [| constructor; [intros [] | constructor]].
      intros [Heq | []]. lia. }
    split; [apply reg_set_keys_NoDup, reg_set_keys_NoDup; exact Hkeys |].
    split; [apply reg_set_kinded; [exact I |];
            apply reg_set_kinded; [exact I | exact Hkinds] |].
    split.
    + apply reg_set_handles_NoDup; [constructor | intros x [] | exact Hnd1].
    + intros x Hin.
      destruct (reg_set_handles_In _ _ _ _ Hin) as [[] | Hin1].
      destruct (reg_set_handles_In _ _ _ _ Hin1) as [Hnew | Hold].
      * cbn in Hnew. lia.
      * specialize (Hbound x Hold). lia.
  - cbn [_synced_workflow_queues allocated].
    rewrite (clear_all_workflow_sessions_eq b id _ Hkeys). cbn [fst].
    split; [apply reg_pop_keys_NoDup; exact Hkeys |].
    split; [apply reg_pop_kinded; exact Hkinds |].
    split; [apply reg_pop_handles_NoDup; exact Hnd |].
    intros x Hin. exact (Hbound x (reg_pop_handles_In _ _ _ Hin)).
Qed.

(** X25: clearing by the identifier of a workflow or of an agent stops
    no worker.  In every state that activations and clearings produce, the
    call with such an identifier sends [TERMINATE] to no queue, whether or
    not [isinstance] counts the shared mappings as [dict], and every session
    stays registered with its queues. *)
Theorem clearing_a_workflow_stops_no_worker (m : manager) (proxy_is_dict : bool)
        (workflow_id : string) :
  reachable m ->
  snd (clear_all_workflow_sessions proxy_is_dict (workflow_key workflow_id)
         (_synced_workflow_queues m)) = []
  /\ forall session_id,
       reg_get (session_key session_id)
               (fst (clear_all_workflow_sessions proxy_is_dict
                       (workflow_key workflow_id) (_synced_workflow_queues m)))
       = reg_get (session_key session_id) (_synced_workflow_queues m).
Proof.
  intros Hreach. destruct (reachable_invariant m Hreach) as [Hkeys [Hkinds _]].
  rewrite (clear_all_workflow_sessions_eq _ _ _ Hkeys). cbn [fst snd]. split.
  - destruct (reg_get (workflow_key workflow_id) (_synced_workflow_queues m))
      as [[input output | s] |] eqn:Hget; try reflexivity.
    apply reg_get_Some_In in Hget. rewrite Forall_forall in Hkinds.
    destruct (Hkinds _ Hget).
  - intros session_id. apply reg_get_pop_other. discriminate.
Qed.

Lemma clearing_a_workflow_stops_no_worker_witness :
  snd (clear_all_workflow_sessions true (workflow_key "w")
         (_synced_workflow_queues Sessions.two_sessions)) = []
  /\ get_all_session_for_workflow (workflow_key "w")
       (_synced_workflow_queues Sessions.two_sessions) = [].
Proof.
  split; [| reflexivity].
  apply (clearing_a_workflow_stops_no_worker Sessions.two_sessions true "w").
  apply after_init, after_init, at_start.
Defined.

Lemma shared_handle (r : registry) :
  NoDup (handles r) ->
  forall kv1 kv2 x,
    In kv1 r -> In kv2 r ->
    In x (queues_of (snd kv1)) -> In x (queues_of (snd kv2)) -> kv1 = kv2.
Proof.
  induction r as [| [k0 v0] r IH]; intros Hnd kv1 kv2 x H1 H2 Hx1 Hx2; [contradiction |].
  change (handles ((k0, v0) :: r)) with (queues_of v0 ++ handles r)%list in Hnd.
  assert (Hin : forall kv, In kv r -> In x (queues_of (snd kv)) -> In x (handles r)).
  { intros kv Hkv Hx. unfold handles. apply in_flat_map. exists kv. split; assumption. }
  destruct H1 as [<- | H1], H2 as [<- | H2].
  - reflexivity.
  - exfalso. exact (NoDup_app_disjoint _ _ x Hnd Hx1 (Hin _ H2 Hx2)).
  - exfalso. exact (NoDup_app_disjoint _ _ x Hnd Hx2 (Hin _ H1 Hx1)).
  - exact (IH (NoDup_app_remove_l _ _ Hnd) kv1 kv2 x H1 H2 Hx1 Hx2).
Qed.

Lemma own_handles (r : registry) :
  NoDup (handles r) -> forall kv, In kv r -> NoDup (queues_of (snd kv)).
Proof.
  induction r as [| [k0 v0] r IH]; intros Hnd kv Hkv; [contradiction |].
  change (handles ((k0, v0) :: r)) with (queues_of v0 ++ handles r)%list in Hnd.
  destruct Hkv as [<- | Hkv].
  - exact (NoDup_app_remove_r _ _ Hnd).
  - exact (IH (NoDup_app_remove_l _ _ Hnd) kv Hkv).
Qed.

(** X26: sessions are isolated.  In every state that activations and
    clearings produce, the input and output queues of two registered sessions
    are four different queues: no message for one conversation can reach the
    worker of another and no answer can reach the wrong caller through a
    shared queue. *)
Theorem sessions_never_share_a_queue (m : manager) (s1 s2 : string)
        (input1 output1 input2 output2 : nat) :
  reachable m ->
  get_workflow_queues (session_key s1) m = Some (queues input1 output1) ->
  get_workflow_queues (session_key s2) m = Some (queues input2 output2) ->
  s1 <> s2 ->
  NoDup [input1; output1; input2; output2].
Proof.
  unfold get_workflow_queues. intros Hreach H1 H2 Hne.
  destruct (reachable_invariant m Hreach) as [_ [_ [Hnd _]]].
  apply reg_get_Some_In in H1. apply reg_get_Some_In in H2.
  change [input1; output1; input2; output2]
    with ([input1; output1] ++ [input2; output2])%list.
  apply NoDup_app.
  - exact (own_handles _ Hnd _ H1).
  - exact (own_handles _ Hnd _ H2).
  - intros x Hx1 Hx2.
    pose proof (shared_handle _ Hnd _ _ x H1 H2 Hx1 Hx2) as Heq.
    injection Heq as Hs _ _. exact (Hne Hs).
Qed.

Lemma sessions_never_share_a_queue_witness :
  get_workflow_queues (session_key "s1") Sessions.two_sessions = Some (queues 0 1)
  /\ get_workflow_queues (session_key "s2") Sessions.two_sessions = Some (queues 2 3)
  /\ NoDup [0; 1; 2; 3].
Proof.
  split; [reflexivity |]. split; [reflexivity |].
  apply (sessions_never_share_a_queue Sessions.two_sessions "s1" "s2" 0 1 2 3).
  - apply after_init, after_init, at_start.
  - reflexivity.
  - reflexivity.
  - discriminate.
Defined.

(** X27: an activation disturbs no session.  [init_workflow_queues]
    never fails with a [KeyError]; it returns the two queues it has just
    made, which the session identifier then looks up; the workflow identifier
    records this session, replacing an earlier one; and every other session
    identifier looks up what it did before, also the earlier sessions of the
    same workflow. *)
Theorem activation_registers_fresh_queues (workflow_id session_id : string)
        (m : manager) :
  let fresh := queues (allocated m) (S (allocated m)) in
  let m' := snd (init_workflow_queues workflow_id session_id m) in
  fst (init_workflow_queues workflow_id session_id m) = Some fresh
  /\ get_workflow_queues (session_key session_id) m' = Some fresh
  /\ get_workflow_queues (workflow_key workflow_id) m' = Some (session_of session_id)
  /\ (forall other, other <> session_id ->
        get_workflow_queues (session_key other) m'
        = get_workflow_queues (session_key other) m).
Proof.
  unfold init_workflow_queues, get_workflow_queues.
  cbn [fst snd _synced_workflow_queues]. repeat split.
  - rewrite !reg_get_set. cbn [key_eqb]. rewrite String.eqb_refl. reflexivity.
  - rewrite !reg_get_set. cbn [key_eqb]. rewrite String.eqb_refl. reflexivity.
  - rewrite reg_get_set. cbn [key_eqb]. rewrite String.eqb_refl. reflexivity.
  - intros other Hother. rewrite !reg_get_set. cbn [key_eqb].
    apply String.eqb_neq in Hother. rewrite Hother. reflexivity.
Qed.

Lemma turn_is_streamed_witness :
  exists puts,
    List.length puts = 1
    /\ fst (send_message Demo.world 5 Demo.summarizer (Sessions.listening, Waiting)
                         "  hello ")
       = Some (puts, Finished).
Proof.
  destruct (turn_is_streamed Demo.world Demo.summarizer Sessions.listening "  hello "
              (fst (orchestrator_call Demo.world Demo.summarizer
                      (agents (context Sessions.listening)) [] "hello"))
              "echo hello" 5)
    as [w' [Hsend _]];
    try reflexivity; try discriminate.
  - vm_compute. lia.
  - eexists. split; [| rewrite Hsend; reflexivity]. reflexivity.
Defined.

Lemma failed_turn_hangs_the_stream_witness :
  exists puts w',
    send_message Sessions.world_with_failing_model 5 Demo.summarizer
                 (Sessions.listening, Waiting) "hello"
    = (Some (puts, Blocked), (w', Crashed (RuntimeError "throttled")))
    /\ fst (send_message Sessions.world_with_failing_model 5 Demo.summarizer
                         (w', Crashed (RuntimeError "throttled")) "again")
       = Some ([], Blocked).
Proof.
  destruct (failed_turn_hangs_the_stream Sessions.world_with_failing_model
              Demo.summarizer Sessions.listening "hello"
              (fst (orchestrator_call Sessions.world_with_failing_model Demo.summarizer
                      (agents (context Sessions.listening)) [] "hello"))
              (RuntimeError "throttled") 5)
    as [w' [Hsend [Hlater _]]];
    try reflexivity; try discriminate.
  - vm_compute. lia.
  - eexists. exists w'. split; [exact Hsend |].
    apply Hlater; [lia | discriminate].
Defined.

Lemma history_is_served_witness :
  questions (history_of Sessions.answered) = ["hello"]
  /\ answers (history_of Sessions.answered) = ["echo hello"]
  /\ fst (retrieve_conversation_history Demo.world Demo.summarizer
            (Sessions.answered, Waiting))
     = Some (Ret (history_ok
                    (VList (map message_value (history_of Sessions.answered))))).
Proof.
  split; [reflexivity |]. split; [reflexivity |].
  rewrite (history_is_served Demo.world Demo.summarizer Sessions.answered).
  - vm_compute. reflexivity.
  - constructor.
Defined.

Lemma stale_end_marker_hides_history_witness :
  exists left,
    retrieve_conversation_history Demo.world Demo.summarizer
      (Sessions.abandoned, Waiting)
    = (Some (Ret (history_ok (VList []))), (left, Waiting))
    /\ output_queue left = ["_Q_E_E_HISTORY[]"].
Proof.
  eexists. split.
  - apply (stale_end_marker_hides_history Demo.world Demo.summarizer
             Sessions.abandoned ["data: {}" ++ nl ++ "end"] []).
    + reflexivity.
    + constructor; [reflexivity | constructor].
  - reflexivity.
Defined.

End AppFacts.

(* ================================================================== *)
(** ** Properties of the catalogue of models                           *)
(* ================================================================== *)

Module BedrockFacts.
Import Py Bedrock.

Lemma split_from_nonempty (sep : string) (s : string) :
  forall skip, split_from sep skip s <> [].
Proof.
  induction s as [| c s IH]; intros skip; cbn [split_from]; [discriminate |].
  destruct skip as [| n]; [| apply IH].
  destruct (String.prefix sep (String c s)); [discriminate |].
  destruct (split_from sep 0 s); discriminate.
Qed.

Lemma split_contains (sep s : string) :
  sep <> "" -> contains sep s = true ->
  exists first second rest, split sep s = first :: second :: rest.
Proof.
  intros Hsep. unfold split. induction s as [| c s IH]; intros Hin.
  - destruct sep as [| a sep]; [contradiction | discriminate Hin].
  - cbn [contains] in Hin. cbn [split_from].
    destruct (String.prefix sep (String c s)) eqn:Hprefix.
    + destruct (split_from sep (String.length sep - 1) s) as [| second rest] eqn:Hrest.
      * exfalso. exact (split_from_nonempty _ _ _ Hrest).
      * exists "", second, rest. reflexivity.
    + cbn [orb] in Hin. destruct (IH Hin) as [first [second [rest Hsplit]]].
      rewrite Hsplit. exists (String c first), second, rest. reflexivity.
Qed.

Lemma base_model_id_returns (model_arn : string) :
  contains "foundation-model/" model_arn = true ->
  exists base_model_id, base_model_id_of model_arn = Ret base_model_id.
Proof.
  intros Hin. unfold base_model_id_of.
  destruct (split_contains "foundation-model/" model_arn) as [first [second [rest ->]]];
    [discriminate | exact Hin |].
  exists second. reflexivity.
Qed.

Lemma for_each_invariant {A B} (I : B -> Prop) (body : B -> A -> result B)
      (items : list A) :
  (forall state item state',
      In item items -> I state -> body state item = Ret state' -> I state') ->
  forall state state', I state -> for_each body items state = Ret state' -> I state'.
Proof.
  induction items as [| item items IH]; intros Hbody state state' Hstate; cbn [for_each].
  - intros Hret. injection Hret as <-. exact Hstate.
  - destruct (body state item) as [next | e] eqn:Hnext; cbn [bind]; [| discriminate].
    apply IH.
    + intros s x s' Hx. apply Hbody. right. exact Hx.
    + exact (Hbody _ _ _ (or_introl eq_refl) Hstate Hnext).
Qed.

Lemma for_each_returns {A B} (I : B -> Prop) (body : B -> A -> result B)
      (items : list A) :
  (forall state item, I state -> exists state', body state item = Ret state' /\ I state') ->
  forall state, I state -> exists state', for_each body items state = Ret state' /\ I state'.
Proof.
  intros Hbody. induction items as [| item items IH]; intros state Hstate; cbn [for_each].
  - exists state. split; [reflexivity | exact Hstate].
  - destruct (Hbody state item Hstate) as [next [-> Hnext]]. cbn [bind].
    exact (IH next Hnext).
Qed.

Lemma lookup_In {A} (k : string) (d : list (string * A)) (v : A) :
  lookup k d = Some v -> In (k, v) d.
Proof.
  induction d as [| [k0 v0] d IH]; cbn [lookup]; [discriminate |].
  destruct (String.eqb_spec k k0) as [-> | _].
  - intros Heq. injection Heq as ->. left. reflexivity.
  - intros Hlook. right. exact (IH Hlook).
Qed.

Lemma nonempty_true (s : string) : nonempty s = true <-> s <> "".
Proof.
  unfold nonempty. destruct (String.eqb_spec s "") as [-> | Hne]; cbn [negb].
  - split; [discriminate | intros Habs; contradiction].
  - split; [intros _; exact Hne | reflexivity].
Qed.

Lemma profile_id_of (profile : profile_summary) :
  or_default "" (inferenceProfileId profile) <> "" ->
  inferenceProfileId profile = Some (or_default "" (inferenceProfileId profile)).
Proof. destruct (inferenceProfileId profile); [reflexivity | intros []; reflexivity]. Qed.

Lemma record_profile_sound (profiles : list profile_summary) (profile : profile_summary)
      (before after : list (string * string)) :
  In profile profiles ->
  (forall k v, In (k, v) before -> from_catalogue profiles k v) ->
  record_profile before profile = Ret after ->
  forall k v, In (k, v) after -> from_catalogue profiles k v.
Proof.
  intros Hprofile Hbefore. unfold record_profile.
  apply (for_each_invariant
           (fun m => forall k v, In (k, v) m -> from_catalogue profiles k v));
    [| exact Hbefore].
  intros state model state' Hmodel Hstate. unfold record_model.
  destruct (modelArn model) as [arn |] eqn:Harn; cbn [or_default].
  - destruct (nonempty arn && contains "foundation-model/" arn)%bool;
      [| intros Hret; injection Hret as <-; exact Hstate].
    destruct (base_model_id_of arn) as [base |] eqn:Hbase; cbn [bind]; [| discriminate].
    destruct (nonempty base && nonempty (or_default "" (inferenceProfileId profile)))%bool
      eqn:Hboth; intros Hret; injection Hret as <-; [| exact Hstate].
    apply andb_prop in Hboth. destruct Hboth as [_ Hid]. apply nonempty_true in Hid.
    intros k v Hin. apply LoaderFacts.setitem_In in Hin.
    destruct Hin as [[-> ->] | Hin]; [| exact (Hstate k v Hin)].
    exists profile, model, arn.
    split; [exact Hprofile |]. split; [exact (profile_id_of profile Hid) |].
    split; [exact Hid |]. split; [exact Hmodel |]. split; [exact Harn | exact Hbase].
  - intros Hret. injection Hret as <-. exact Hstate.
Qed.

Lemma map_of_profiles_sound (c : client) (k v : string) :
  In (k, v) (get_cross_region_inference_profiles c) ->
  exists profiles,
    list_inference_profiles c = Ret (Some profiles) /\ from_catalogue profiles k v.
Proof.
  unfold get_cross_region_inference_profiles.
  destruct (list_inference_profiles c) as [[profiles |] | e]; cbn [bind or_default for_each];
    try (intros []).
  destruct (for_each record_profile profiles []) as [made | e] eqn:Hmade; [| intros []].
  intros Hin. exists profiles. split; [reflexivity |].
  revert k v Hin.
  apply (for_each_invariant
           (fun m => forall k v, In (k, v) m -> from_catalogue profiles k v)
           record_profile profiles) with (state := []); [| intros k v [] | exact Hmade].
  intros state profile state' Hprofile Hstate Hstep.
  exact (record_profile_sound profiles profile state state' Hprofile Hstate Hstep).
Qed.

(** X28: where a cross-region profile comes from.  What
    [get_model_with_cross_region_profile] returns is the identifier it was
    given, or else the identifier, not empty, of a profile of the service's
    answer that lists a model whose ARN names the given identifier after its
    first [foundation-model/]; when the service cannot be reached, every
    identifier is returned as it was given. *)
Theorem profile_comes_from_the_catalogue (c : client) (model_id : string) :
  (get_model_with_cross_region_profile c model_id = model_id
   \/ exists profiles,
        list_inference_profiles c = Ret (Some profiles)
        /\ from_catalogue profiles model_id
                          (get_model_with_cross_region_profile c model_id))
  /\ (forall e, list_inference_profiles c = Raise e ->
                get_model_with_cross_region_profile c model_id = model_id).
Proof.
  unfold get_model_with_cross_region_profile, get_default. split.
  - destruct (lookup model_id (get_cross_region_inference_profiles c)) as [v |] eqn:Hlook;
      [| left; reflexivity].
    right. exact (map_of_profiles_sound c model_id v (lookup_In _ _ _ Hlook)).
  - intros e He. unfold get_cross_region_inference_profiles. rewrite He. reflexivity.
Qed.

Lemma record_model_returns (profile_id : string) (state : list (string * string))
      (model : associated_model) :
  exists state',
    record_model profile_id state model = Ret state'
    /\ (forall k, has_key k state = true -> has_key k state' = true)
    /\ (forall arn base,
           modelArn model = Some arn ->
           contains "foundation-model/" arn = true ->
           base_model_id_of arn = Ret base ->
           base <> "" -> profile_id <> "" ->
           has_key base state' = true).
Proof.
  unfold record_model. destruct (modelArn model) as [arn |]; cbn [or_default].
  - destruct (nonempty arn) eqn:Harn; cbn [andb].
    + destruct (contains "foundation-model/" arn) eqn:Hin.
      * destruct (base_model_id_returns arn Hin) as [base Hfound].
        rewrite Hfound. cbn [bind].
        destruct (nonempty base && nonempty profile_id)%bool eqn:Hboth.
        -- eexists. split; [reflexivity |]. split.
           ++ intros k Hk. rewrite LoaderFacts.setitem_has_key, Hk. apply orb_true_r.
           ++ intros arn' base' Heq _ Hbase' _ _. injection Heq as Heq; subst arn'.
              rewrite Hfound in Hbase'. injection Hbase' as <-.
              rewrite LoaderFacts.setitem_has_key, String.eqb_refl. reflexivity.
        -- exists state. split; [reflexivity |]. split; [auto |].
           intros arn' base' Heq _ Hbase' Hbase Hid. injection Heq as Heq; subst arn'.
           rewrite Hfound in Hbase'. injection Hbase' as <-.
           apply nonempty_true in Hbase. apply nonempty_true in Hid.
           rewrite Hbase, Hid in Hboth. discriminate Hboth.
      * exists state. split; [reflexivity |]. split; [auto |].
        intros arn' base' Heq Hin'. injection Heq as Heq; subst arn'. congruence.
    + exists state. split; [reflexivity |]. split; [auto |].
      intros arn' base' Heq Hin'. injection Heq as Heq; subst arn'.
      unfold nonempty in Harn. destruct (String.eqb_spec arn "") as [Hempty | _];
        [| discriminate Harn].
      rewrite Hempty in Hin'. discriminate Hin'.
  - exists state. split; [reflexivity |]. split; [auto |]. intros arn base Heq.
    discriminate Heq.
Qed.

Lemma record_models_return (profile_id : string) (items : list associated_model) :
  forall state,
  exists state',
    for_each (record_model profile_id) items state = Ret state'
    /\ (forall k, has_key k state = true -> has_key k state' = true)
    /\ (forall model arn base,
           In model items ->
           modelArn model = Some arn ->
           contains "foundation-model/" arn = true ->
           base_model_id_of arn = Ret base ->
           base <> "" -> profile_id <> "" ->
           has_key base state' = true).
Proof.
  induction items as [| item items IH]; intros state; cbn [for_each].
  - exists state. split; [reflexivity |]. split; [auto |]. intros model arn base [].
  - destruct (record_model_returns profile_id state item) as [next [-> [Hkeep Hadd]]].
    cbn [bind]. destruct (IH next) as [final [-> [Hkeep' Hadd']]].
    exists final. split; [reflexivity |]. split; [auto |].
    intros model arn base [<- | Hin] Harn Hmarker Hbase Hne Hid.
    + apply Hkeep'. exact (Hadd arn base Harn Hmarker Hbase Hne Hid).
    + exact (Hadd' model arn base Hin Harn Hmarker Hbase Hne Hid).
Qed.

Lemma record_profiles_return (profiles : list profile_summary) :
  forall state,
  exists state',
    for_each record_profile profiles state = Ret state'
    /\ (forall k, has_key k state = true -> has_key k state' = true)
    /\ (forall profile model arn base,
           In profile profiles ->
           In model (or_default [] (models profile)) ->
           modelArn model = Some arn ->
           contains "foundation-model/" arn = true ->
           base_model_id_of arn = Ret base ->
           base <> "" -> or_default "" (inferenceProfileId profile) <> "" ->
           has_key base state' = true).
Proof.
  induction profiles as [| item profiles IH]; intros state; cbn [for_each].
  - exists state. split; [reflexivity |]. split; [auto |]. intros profile model arn base [].
  - unfold record_profile at 1.
    destruct (record_models_return (or_default "" (inferenceProfileId item))
                (or_default [] (models item)) state) as [next [-> [Hkeep Hadd]]].
    cbn [bind]. destruct (IH next) as [final [-> [Hkeep' Hadd']]].
    exists final. split; [reflexivity |]. split; [auto |].
    intros profile model arn base [<- | Hin] Hmodel Harn Hmarker Hbase Hne Hid.
    + apply Hkeep'. exact (Hadd model arn base Hmodel Harn Hmarker Hbase Hne Hid).
    + exact (Hadd' profile model arn base Hin Hmodel Harn Hmarker Hbase Hne Hid).
Qed.

(** X29: every model that a profile lists gets a profile.  When the
    service answers, and one of its profiles has an identifier that is not
    empty and lists an ARN that contains [foundation-model/] followed by a
    text that is not empty, that text is a key of the map of profiles, and
    [get_model_with_cross_region_profile] turns it into the identifier, not
    empty, of a profile of the answer: no entry of the answer that lacks a
    key, has an empty identifier or has an ARN without that marker makes the
    map fail or lose it. *)
Theorem listed_model_gets_a_profile (c : client) (profiles : list profile_summary)
        (profile : profile_summary) (associated : associated_model)
        (profile_id arn base_model_id : string) :
  list_inference_profiles c = Ret (Some profiles) ->
  In profile profiles ->
  inferenceProfileId profile = Some profile_id ->
  profile_id <> "" ->
  In associated (or_default [] (models profile)) ->
  modelArn associated = Some arn ->
  contains "foundation-model/" arn = true ->
  base_model_id_of arn = Ret base_model_id ->
  base_model_id <> "" ->
  has_key base_model_id (get_cross_region_inference_profiles c) = true
  /\ from_catalogue profiles base_model_id
                    (get_model_with_cross_region_profile c base_model_id).
Proof.
  intros Hanswer Hprofile Hid Hne Hmodel Harn Hmarker Hbase Hbase_ne.
  assert (Hkey : has_key base_model_id (get_cross_region_inference_profiles c) = true).
  { unfold get_cross_region_inference_profiles. rewrite Hanswer. cbn [bind or_default].
    destruct (record_profiles_return profiles []) as [made [-> [_ Hadd]]].
    apply (Hadd profile associated arn base_model_id); try assumption.
    rewrite Hid. exact Hne. }
  split; [exact Hkey |].
  unfold get_model_with_cross_region_profile, get_default.
  unfold has_key in Hkey.
  destruct (lookup base_model_id (get_cross_region_inference_profiles c)) as [v |] eqn:Hlook;
    [| discriminate Hkey].
  destruct (map_of_profiles_sound c base_model_id v (lookup_In _ _ _ Hlook))
    as [profiles' [Hanswer' Hfrom]].
  rewrite Hanswer in Hanswer'. injection Hanswer' as <-. exact Hfrom.
Qed.

Lemma listed_model_gets_a_profile_witness :
  get_model_with_cross_region_profile Catalogue.service "amazon.nova-pro-v1:0"
  = "us.amazon.nova-pro-v1:0"
  /\ has_key "amazon.nova-pro-v1:0"
             (get_cross_region_inference_profiles Catalogue.service) = true.
Proof.
  split; [reflexivity |].
  apply (listed_model_gets_a_profile Catalogue.service _
           {| inferenceProfileId := Some "us.amazon.nova-pro-v1:0";
              models := Some [ {| modelArn := Some Catalogue.nova_arn |} ] |}
           {| modelArn := Some Catalogue.nova_arn |}
           "us.amazon.nova-pro-v1:0" Catalogue.nova_arn "amazon.nova-pro-v1:0"
           eq_refl (or_introl eq_refl) eq_refl).
  - discriminate.
  - left. reflexivity.
  - reflexivity.
  - reflexivity.
  - reflexivity.
  - discriminate.
Defined.

(** X30: the listing agrees with the worker.  Every element of the list
    that [list_bedrock_models] returns with the cross-region filter passed
    the filters that were asked for, carries a cross-region profile that is
    not empty, and that profile is what [get_model_with_cross_region_profile]
    returns for its identifier while the service answers the same: the
    profile that the editor shows is the one that an agent is created with. *)
Theorem listing_agrees_with_the_worker (c : client)
        (filter_text_modality filter_on_demand : bool) (l : listed_model) :
  In l (list_bedrock_models c filter_text_modality filter_on_demand true) ->
  crossRegionProfile l <> ""
  /\ get_model_with_cross_region_profile c (listed_modelId l) = crossRegionProfile l
  /\ (filter_text_modality = true -> In "TEXT" (listed_outputModalities l))
  /\ (filter_on_demand = true -> In "ON_DEMAND" (listed_inferenceTypes l)).
Proof.
  unfold list_bedrock_models.
  destruct (list_foundation_models c) as [summaries | e]; [| intros []].
  intros Hin. apply in_flat_map in Hin. destruct Hin as [model [_ Hl]].
  unfold listed in Hl. cbn [negb] in Hl.
  destruct ((if negb filter_text_modality then true
             else member "TEXT" (or_default [] (outputModalities model)))
            && (if negb filter_on_demand then true
                else member "ON_DEMAND" (or_default [] (inferenceTypesSupported model)))
            && has_key (or_default "" (modelId model))
                       (get_cross_region_inference_profiles c))%bool eqn:Hpass;
    [| destruct Hl].
  destruct Hl as [<- | []]. cbn [crossRegionProfile listed_modelId
                                 listed_outputModalities listed_inferenceTypes].
  apply andb_prop in Hpass. destruct Hpass as [Hpass Hkey].
  apply andb_prop in Hpass. destruct Hpass as [Htext Hdemand].
  unfold get_model_with_cross_region_profile, get_default.
  unfold has_key in Hkey.
  destruct (lookup (or_default "" (modelId model))
                   (get_cross_region_inference_profiles c)) as [v |] eqn:Hlook;
    [| discriminate Hkey].
  destruct (map_of_profiles_sound c _ v (lookup_In _ _ _ Hlook))
    as [profiles [_ [profile [associated [arn [_ [_ [Hne _]]]]]]]].
  split; [exact Hne |]. split; [reflexivity |]. split.
  - intros ->. cbn [negb] in Htext. unfold member in Htext.
    apply existsb_exists in Htext. destruct Htext as [x [Hx Heq]].
    apply String.eqb_eq in Heq. subst x. exact Hx.
  - intros ->. cbn [negb] in Hdemand. unfold member in Hdemand.
    apply existsb_exists in Hdemand. destruct Hdemand as [x [Hx Heq]].
    apply String.eqb_eq in Heq. subst x. exact Hx.
Qed.

Lemma listing_agrees_with_the_worker_witness :
  list_bedrock_models Catalogue.service true true true = [Catalogue.nova_listed]
  /\ get_model_with_cross_region_profile Catalogue.service
       (listed_modelId Catalogue.nova_listed)
     = crossRegionProfile Catalogue.nova_listed.
Proof.
  split; [reflexivity |].
  apply (listing_agrees_with_the_worker Catalogue.service true true
           Catalogue.nova_listed).
  left. reflexivity.
Defined.

End BedrockFacts.

(* ================================================================== *)
(** ** The worker on the catalogue of [bedrock_models.py]              *)
(* ================================================================== *)

Module CatalogueFacts.
Import Py WorkflowRunner Documented Parts.

Lemma unreachable_keeps_identifier (c : Bedrock.client) (m : string) (e : exn) :
  Bedrock.list_inference_profiles c = Raise e ->
  Bedrock.get_model_with_cross_region_profile c m = m.
Proof.
  intros Hfail.
  unfold Bedrock.get_model_with_cross_region_profile,
         Bedrock.get_cross_region_inference_profiles.
  rewrite Hfail. reflexivity.
Qed.

Lemma cross_region_backed (c : Bedrock.client) (W : World) (m : string) :
  m <> "" ->
  cross_region (Catalogue.backed_by c W) (Some m)
  = Some (Bedrock.get_model_with_cross_region_profile c m).
Proof.
  intros Hne. unfold cross_region.
  destruct (String.eqb_spec m "") as [Heq | _]; [contradiction | reflexivity].
Qed.

(** X8: an unreachable model catalogue does not prevent the creation of
    a node's agent.  With the catalogue lookup of [bedrock_models.py], which
    always returns, an agent record that names a model gives, when the
    constructor accepts it, an agent whose model is what the lookup returns
    for that identifier: the identifier itself, unchanged, when the service
    cannot be reached. *)
Theorem catalogue_failure_keeps_model (c : Bedrock.client) (W : World)
        (node_id : string) (r : agent_ref) (m : string) :
  agent_model_id r = Some m ->
  m <> "" ->
  StrandsAgent_init W (Some (Bedrock.get_model_with_cross_region_profile c m))
                    (agent_prompt r)
                    (flat_map (instances (Catalogue.backed_by c W)) (agent_tools r))
  = None ->
  exists a,
    create_agent (Catalogue.backed_by c W) (agent_data_of node_id r) = Some a
    /\ model a = Some (Bedrock.get_model_with_cross_region_profile c m)
    /\ system_prompt a = agent_prompt r
    /\ (forall e, Bedrock.list_inference_profiles c = Raise e -> model a = Some m).
Proof.
  intros Hmodel Hne Haccepted.
  eexists. split.
  - apply FactoryFacts.create_agent_accepted.
    rewrite Hmodel, (cross_region_backed c W m Hne). exact Haccepted.
  - cbn [model system_prompt]. rewrite Hmodel, (cross_region_backed c W m Hne).
    split; [reflexivity |]. split; [reflexivity |].
    intros e Hfail. rewrite (unreachable_keeps_identifier c m e Hfail). reflexivity.
Qed.

Lemma catalogue_failure_keeps_model_witness :
  exists a,
    create_agent (Catalogue.backed_by Catalogue.unreachable Demo.world)
                 (agent_data_of "n" Samples.nova_agent) = Some a
    /\ model a = Some "amazon.nova-pro-v1:0"
    /\ system_prompt a = Some "Do A.".
Proof.
  assert (Hne : "amazon.nova-pro-v1:0" <> "") by discriminate.
  destruct (catalogue_failure_keeps_model Catalogue.unreachable Demo.world "n"
              Samples.nova_agent "amazon.nova-pro-v1:0" eq_refl Hne eq_refl)
    as [a [Hmade [_ [Hprompt Hfail]]]].
  exists a. split; [exact Hmade |].
  split; [exact (Hfail (RuntimeError "no credentials") eq_refl) | exact Hprompt].
Defined.

(** X19: an unreachable model catalogue does not stop the start of a
    graph with several live agents.  With the catalogue lookup of
    [bedrock_models.py], the synthesis of the orchestrator fails only when
    the agent constructor refuses the wrappers and tools, and then with the
    exception of the constructor; otherwise the orchestrator has the
    generated prompt and the model that the lookup returns for the model of
    the context, the identifier itself when the service cannot be reached,
    and the worker puts [STARTED]. *)
Theorem catalogue_failure_never_stops_the_start (c : Bedrock.client) (W : World)
        (ctx : workflow_ctx) (live : list StrandsAgent) (tools : list (list tool))
        (m : string) :
  create_nodes (Catalogue.backed_by c W) ctx = Ret (live, tools) ->
  2 <= List.length live ->
  model_id ctx = Some m ->
  m <> "" ->
  exists wrapped,
    wrap_agents (map (set_callback_handler agent_level_callback_handler) live)
    = Ret wrapped
    /\ let chosen := Bedrock.get_model_with_cross_region_profile c m in
       let all_tools := (wrapped ++ concat tools)%list in
       let prompt := Some (_generate_workflow_prompt ctx) in
       (forall e,
           StrandsAgent_init W (Some chosen) prompt all_tools = Some e ->
           snd (setup (Catalogue.backed_by c W) ctx) = Raise e)
       /\ (StrandsAgent_init W (Some chosen) prompt all_tools = None ->
           snd (setup (Catalogue.backed_by c W) ctx)
           = Ret (mkStrandsAgent (Some chosen) prompt all_tools
                                 top_level_callback_handler None None)
           /\ forall inbox, exists later,
                output_queue (fst (_processing_thread (Catalogue.backed_by c W)
                                                      ctx inbox))
                = STARTED :: later)
       /\ (forall e, Bedrock.list_inference_profiles c = Raise e -> chosen = m).
Proof.
  intros Hnodes Hmany Hmodel Hne.
  destruct (PartsFacts.wrap_agents_named _
              (OrchestratorFacts.created_agents_are_named
                 (Catalogue.backed_by c W) ctx live tools
                 agent_level_callback_handler Hnodes))
    as [wrapped [Hwrap _]].
  exists wrapped. split; [exact Hwrap |]. cbv zeta.
  assert (Hsetup :
            snd (setup (Catalogue.backed_by c W) ctx)
            = match StrandsAgent_init W
                      (Some (Bedrock.get_model_with_cross_region_profile c m))
                      (Some (_generate_workflow_prompt ctx))
                      (wrapped ++ concat tools)%list with
              | Some e => Raise e
              | None =>
                  Ret (mkStrandsAgent
                         (Some (Bedrock.get_model_with_cross_region_profile c m))
                         (Some (_generate_workflow_prompt ctx))
                         (wrapped ++ concat tools)%list
                         top_level_callback_handler None None)
              end).
  { unfold setup. rewrite Hnodes.
    destruct (1 <? List.length live)%nat eqn:Hlt;
      [| apply Nat.ltb_ge in Hlt; lia].
    unfold _create_orchestrator.
    cbn [agents with_nodes_created]. rewrite Hwrap. cbn [bind].
    cbn [model_id ctx_tools with_nodes_created]. rewrite Hmodel.
    destruct (String.eqb_spec m "") as [Heq | _]; [contradiction |].
    cbn [get_model_with_cross_region_profile Catalogue.backed_by bind].
    unfold StrandsAgent_new. cbn [StrandsAgent_init Catalogue.backed_by].
    change (_generate_workflow_prompt
              (with_nodes_created
                 (with_nodes_created ctx live tools)
                 (map (set_callback_handler agent_level_callback_handler) live) tools))
      with (_generate_workflow_prompt ctx).
    destruct (StrandsAgent_init W _ _ _); reflexivity. }
  split; [| split].
  - intros e Hrefused. rewrite Hsetup, Hrefused. reflexivity.
  - intros Haccepted. rewrite Haccepted in Hsetup. split; [exact Hsetup |].
    intros inbox. unfold _processing_thread.
    destruct (setup (Catalogue.backed_by c W) ctx) as [ctx' outcome].
    cbn [snd] in Hsetup. subst outcome.
    match goal with
    | |- context [loop ?world ?o ?w1 inbox] =>
        destruct (LoopFacts.loop_appends world o inbox w1) as [later Hlater];
        exists later; rewrite Hlater; reflexivity
    end.
  - intros e Hfail. exact (unreachable_keeps_identifier c m e Hfail).
Qed.

Lemma catalogue_failure_never_stops_the_start_witness :
  exists o,
    snd (setup (Catalogue.backed_by Catalogue.unreachable Demo.world)
               Samples.a_to_b_on_nova) = Ret o
    /\ model o = Some "amazon.nova-pro-v1:0"
    /\ output_queue
         (fst (_processing_thread (Catalogue.backed_by Catalogue.unreachable Demo.world)
                                  Samples.a_to_b_on_nova []))
       = [STARTED].
Proof.
  assert (Hne : "amazon.nova-pro-v1:0" <> "") by discriminate.
  assert (Hmany : 2 <= List.length
                         (flat_map (live_agent
                                      (Catalogue.backed_by Catalogue.unreachable Demo.world))
                                   (nodes Samples.a_to_b_on_nova)))
    by (vm_compute; lia).
  destruct (catalogue_failure_never_stops_the_start Catalogue.unreachable Demo.world
              Samples.a_to_b_on_nova _ [] "amazon.nova-pro-v1:0"
              eq_refl Hmany eq_refl Hne)
    as [wrapped [_ [_ [Hstarts _]]]].
  destruct (Hstarts eq_refl) as [Hsetup _].
  eexists. split; [exact Hsetup |]. split; reflexivity.
Defined.

End CatalogueFacts.
